(** * Send-side bandwidth estimation

    A shallow embedding of
    [modules/bitrate_controller/send_side_bandwidth_estimation.cc]
    (class [SendSideBandwidthEstimation] and the file-local helper
    [CalcTfrcBps]), followed by the properties of the estimator.

    Conventions.
    - Fixed-width integers are values of [Z]; every place where the C++
      arithmetic wraps is written out with [to_uint32], [to_uint16] or
      [to_uint8].  Signed [int] arithmetic does not wrap in C++: an [int]
      result outside the range of the type has no defined behaviour, and the
      model returns [None] there.
    - [double] is IEEE 754 binary64, modelled by Rocq's primitive floats;
      each C++ floating-point operator is one correctly rounded operation,
      evaluated in the order the C++ grammar fixes.  The conversion of a
      [double] to [uint32_t] truncates towards zero and is only defined when
      the truncated value fits; the model returns [None] otherwise.
    - The member functions take the object as an explicit state argument and
      return the new state together with the trace messages they emit.
    - The floating-point facts are proved from the specification of
      binary64 in [SpecFloat], to which the axioms of [FloatAxioms] relate
      the primitive operations. *)

From Stdlib Require Import ZArith Lia Bool List Floats Uint63.
Import ListNotations.

Local Open Scope bool_scope.
Local Open Scope Z_scope.

(** ** Fixed-width integers *)

Definition to_uint32 (z : Z) : Z := z mod 4294967296.
Definition to_uint16 (z : Z) : Z := z mod 65536.
Definition to_uint8 (z : Z) : Z := z mod 256.

Definition is_uint32 (z : Z) : Prop := 0 <= z < 4294967296.
Definition is_uint16 (z : Z) : Prop := 0 <= z < 65536.
Definition is_uint8 (z : Z) : Prop := 0 <= z < 256.

Definition INT_MIN : Z := -2147483648.
Definition INT_MAX : Z := 2147483647.
Definition is_int (z : Z) : Prop := INT_MIN <= z <= INT_MAX.

(** The result of an [int] operation: defined only inside the type. *)
Definition int_result (z : Z) : option Z :=
  if (INT_MIN <=? z) && (z <=? INT_MAX) then Some z else None.

(** ** The constants of the anonymous namespace *)

Definition kBweIncreaseIntervalMs : Z := 1000.
Definition kBweDecreaseIntervalMs : Z := 300.
Definition kLimitNumPackets : Z := 20.
Definition kAvgPacketSizeBytes : Z := 1000.

(** ** Doubles *)

Module Double.

(** [static_cast<double>] of a non-negative integer below [2^53]: exact. *)
Definition of_int (z : Z) : float := PrimFloat.of_uint63 (Uint63.of_Z z).

(** The integer part of a finite binary64 value, towards zero. *)
Definition SFtrunc (x : spec_float) : Z :=
  match x with
  | S754_finite false m e => Z.shiftl (Z.pos m) e
  | S754_finite true m e => - Z.shiftl (Z.pos m) e
  | _ => 0
  end.

(** Is the truncation of [d] a value of [uint32_t]?  False for NaN and for
    the infinities. *)
Definition fits_uint32 (d : float) : bool :=
  ((-1 <? d) && (d <? 4294967296))%float.

(** [static_cast<uint32_t>(d)]. *)
Definition to_uint32 (d : float) : option Z :=
  if fits_uint32 d then Some (SFtrunc (Prim2SF d)) else None.

End Double.

(** The literal [1.08] is not a binary64 value; the compiler stores the
    nearest one. *)
Definition double_1_08 : float := 0x1.147ae147ae148p+0%float.

(** ** [CalcTfrcBps] *)

(** The value [X * 8] of [CalcTfrcBps], for [rtt] and [loss] already
    converted to [double]. *)
Definition TfrcBitsPerSecond (rtt loss : float) : float :=
  (let R := rtt / 1000 in
   let b := 1%Z in
   let t_RTO := 4 * R in
   let p := loss / 255 in
   let s := Double.of_int kAvgPacketSizeBytes in
   let X :=
     s / (R * PrimFloat.sqrt (Double.of_int (2 * b) * p / 3) +
          (t_RTO * (3 * PrimFloat.sqrt (Double.of_int (3 * b) * p / 8) * p *
                    (1 + 32 * p * p)))) in
   X * 8)%float.

(** [uint32_t CalcTfrcBps(uint16_t rtt, uint8_t loss)]. *)
Definition CalcTfrcBps (rtt loss : Z) : option Z :=
  if (rtt =? 0) || (loss =? 0) then Some 0
  else Double.to_uint32
         (TfrcBitsPerSecond (Double.of_int rtt) (Double.of_int loss)).

(** ** The estimator's state *)

(** Modelled from the spec: the class declaration
    ([send_side_bandwidth_estimation.h]) is not among the sources.  The
    members are the ones the constructor initialises; their widths are those
    of the parameters they are assigned from and read back into
    ([uint32_t] for the rates, the timestamps and the round-trip time,
    [uint8_t] for the loss fraction) and [int] for the two accumulators, as
    in the data model of the spec. *)
Record state : Type := {
  accumulate_lost_packets_Q8_ : Z;   (* int *)
  accumulate_expected_packets_ : Z;  (* int *)
  bitrate_ : Z;                      (* uint32_t *)
  min_bitrate_configured_ : Z;       (* uint32_t *)
  max_bitrate_configured_ : Z;       (* uint32_t *)
  last_fraction_loss_ : Z;           (* uint8_t *)
  last_round_trip_time_ : Z;         (* uint32_t *)
  bwe_incoming_ : Z;                 (* uint32_t *)
  time_last_increase_ : Z;           (* uint32_t *)
  time_last_decrease_ : Z            (* uint32_t *)
}.

Definition set_accumulate_lost_packets_Q8 (v : Z) (s : state) : state :=
  {| accumulate_lost_packets_Q8_ := v;
     accumulate_expected_packets_ := accumulate_expected_packets_ s;
     bitrate_ := bitrate_ s;
     min_bitrate_configured_ := min_bitrate_configured_ s;
     max_bitrate_configured_ := max_bitrate_configured_ s;
     last_fraction_loss_ := last_fraction_loss_ s;
     last_round_trip_time_ := last_round_trip_time_ s;
     bwe_incoming_ := bwe_incoming_ s;
     time_last_increase_ := time_last_increase_ s;
     time_last_decrease_ := time_last_decrease_ s |}.

Definition set_accumulate_expected_packets (v : Z) (s : state) : state :=
  {| accumulate_lost_packets_Q8_ := accumulate_lost_packets_Q8_ s;
     accumulate_expected_packets_ := v;
     bitrate_ := bitrate_ s;
     min_bitrate_configured_ := min_bitrate_configured_ s;
     max_bitrate_configured_ := max_bitrate_configured_ s;
     last_fraction_loss_ := last_fraction_loss_ s;
     last_round_trip_time_ := last_round_trip_time_ s;
     bwe_incoming_ := bwe_incoming_ s;
     time_last_increase_ := time_last_increase_ s;
     time_last_decrease_ := time_last_decrease_ s |}.

Definition set_bitrate (v : Z) (s : state) : state :=
  {| accumulate_lost_packets_Q8_ := accumulate_lost_packets_Q8_ s;
     accumulate_expected_packets_ := accumulate_expected_packets_ s;
     bitrate_ := v;
     min_bitrate_configured_ := min_bitrate_configured_ s;
     max_bitrate_configured_ := max_bitrate_configured_ s;
     last_fraction_loss_ := last_fraction_loss_ s;
     last_round_trip_time_ := last_round_trip_time_ s;
     bwe_incoming_ := bwe_incoming_ s;
     time_last_increase_ := time_last_increase_ s;
     time_last_decrease_ := time_last_decrease_ s |}.

Definition set_min_bitrate_configured (v : Z) (s : state) : state :=
  {| accumulate_lost_packets_Q8_ := accumulate_lost_packets_Q8_ s;
     accumulate_expected_packets_ := accumulate_expected_packets_ s;
     bitrate_ := bitrate_ s;
     min_bitrate_configured_ := v;
     max_bitrate_configured_ := max_bitrate_configured_ s;
     last_fraction_loss_ := last_fraction_loss_ s;
     last_round_trip_time_ := last_round_trip_time_ s;
     bwe_incoming_ := bwe_incoming_ s;
     time_last_increase_ := time_last_increase_ s;
     time_last_decrease_ := time_last_decrease_ s |}.

Definition set_max_bitrate_configured (v : Z) (s : state) : state :=
  {| accumulate_lost_packets_Q8_ := accumulate_lost_packets_Q8_ s;
     accumulate_expected_packets_ := accumulate_expected_packets_ s;
     bitrate_ := bitrate_ s;
     min_bitrate_configured_ := min_bitrate_configured_ s;
     max_bitrate_configured_ := v;
     last_fraction_loss_ := last_fraction_loss_ s;
     last_round_trip_time_ := last_round_trip_time_ s;
     bwe_incoming_ := bwe_incoming_ s;
     time_last_increase_ := time_last_increase_ s;
     time_last_decrease_ := time_last_decrease_ s |}.

Definition set_last_fraction_loss (v : Z) (s : state) : state :=
  {| accumulate_lost_packets_Q8_ := accumulate_lost_packets_Q8_ s;
     accumulate_expected_packets_ := accumulate_expected_packets_ s;
     bitrate_ := bitrate_ s;
     min_bitrate_configured_ := min_bitrate_configured_ s;
     max_bitrate_configured_ := max_bitrate_configured_ s;
     last_fraction_loss_ := v;
     last_round_trip_time_ := last_round_trip_time_ s;
     bwe_incoming_ := bwe_incoming_ s;
     time_last_increase_ := time_last_increase_ s;
     time_last_decrease_ := time_last_decrease_ s |}.

Definition set_last_round_trip_time (v : Z) (s : state) : state :=
  {| accumulate_lost_packets_Q8_ := accumulate_lost_packets_Q8_ s;
     accumulate_expected_packets_ := accumulate_expected_packets_ s;
     bitrate_ := bitrate_ s;
     min_bitrate_configured_ := min_bitrate_configured_ s;
     max_bitrate_configured_ := max_bitrate_configured_ s;
     last_fraction_loss_ := last_fraction_loss_ s;
     last_round_trip_time_ := v;
     bwe_incoming_ := bwe_incoming_ s;
     time_last_increase_ := time_last_increase_ s;
     time_last_decrease_ := time_last_decrease_ s |}.

Definition set_bwe_incoming (v : Z) (s : state) : state :=
  {| accumulate_lost_packets_Q8_ := accumulate_lost_packets_Q8_ s;
     accumulate_expected_packets_ := accumulate_expected_packets_ s;
     bitrate_ := bitrate_ s;
     min_bitrate_configured_ := min_bitrate_configured_ s;
     max_bitrate_configured_ := max_bitrate_configured_ s;
     last_fraction_loss_ := last_fraction_loss_ s;
     last_round_trip_time_ := last_round_trip_time_ s;
     bwe_incoming_ := v;
     time_last_increase_ := time_last_increase_ s;
     time_last_decrease_ := time_last_decrease_ s |}.

Definition set_time_last_increase (v : Z) (s : state) : state :=
  {| accumulate_lost_packets_Q8_ := accumulate_lost_packets_Q8_ s;
     accumulate_expected_packets_ := accumulate_expected_packets_ s;
     bitrate_ := bitrate_ s;
     min_bitrate_configured_ := min_bitrate_configured_ s;
     max_bitrate_configured_ := max_bitrate_configured_ s;
     last_fraction_loss_ := last_fraction_loss_ s;
     last_round_trip_time_ := last_round_trip_time_ s;
     bwe_incoming_ := bwe_incoming_ s;
     time_last_increase_ := v;
     time_last_decrease_ := time_last_decrease_ s |}.

Definition set_time_last_decrease (v : Z) (s : state) : state :=
  {| accumulate_lost_packets_Q8_ := accumulate_lost_packets_Q8_ s;
     accumulate_expected_packets_ := accumulate_expected_packets_ s;
     bitrate_ := bitrate_ s;
     min_bitrate_configured_ := min_bitrate_configured_ s;
     max_bitrate_configured_ := max_bitrate_configured_ s;
     last_fraction_loss_ := last_fraction_loss_ s;
     last_round_trip_time_ := last_round_trip_time_ s;
     bwe_incoming_ := bwe_incoming_ s;
     time_last_increase_ := time_last_increase_ s;
     time_last_decrease_ := v |}.

(** Every member holds a value of its type. *)
Record state_ok (s : state) : Prop := {
  ok_accumulate_lost : is_int (accumulate_lost_packets_Q8_ s);
  ok_accumulate_expected : is_int (accumulate_expected_packets_ s);
  ok_bitrate : is_uint32 (bitrate_ s);
  ok_min_bitrate : is_uint32 (min_bitrate_configured_ s);
  ok_max_bitrate : is_uint32 (max_bitrate_configured_ s);
  ok_last_fraction_loss : is_uint8 (last_fraction_loss_ s);
  ok_last_round_trip_time : is_uint32 (last_round_trip_time_ s);
  ok_bwe_incoming : is_uint32 (bwe_incoming_ s);
  ok_time_last_increase : is_uint32 (time_last_increase_ s);
  ok_time_last_decrease : is_uint32 (time_last_decrease_ s)
}.

(** ** Trace output *)

Inductive TraceLevel : Type := kTraceWarning.
Inductive TraceModule : Type := kTraceRtpRtcp.

(** One call of [WEBRTC_TRACE]: level, module, id and the two [%u]
    arguments of the only message this file emits. *)
Record trace_msg : Type := {
  trace_level : TraceLevel;
  trace_module : TraceModule;
  trace_id : Z;
  trace_min_kbps : Z;
  trace_estimate_kbps : Z
}.

(** What a member function leaves behind: the object and the messages. *)
Definition outcome : Type := (state * list trace_msg)%type.

(** ** The member functions *)

(** [SendSideBandwidthEstimation::SendSideBandwidthEstimation()]. *)
Definition initial : state :=
  {| accumulate_lost_packets_Q8_ := 0;
     accumulate_expected_packets_ := 0;
     bitrate_ := 0;
     min_bitrate_configured_ := 0;
     max_bitrate_configured_ := 0;
     last_fraction_loss_ := 0;
     last_round_trip_time_ := 0;
     bwe_incoming_ := 0;
     time_last_increase_ := 0;
     time_last_decrease_ := 0 |}.

Definition SetSendBitrate (bitrate : Z) (s : state) : state :=
  set_bitrate bitrate s.

Definition SetMinMaxBitrate (min_bitrate max_bitrate : Z) (s : state) : state :=
  set_max_bitrate_configured max_bitrate
    (set_min_bitrate_configured min_bitrate s).

Definition SetMinBitrate (min_bitrate : Z) (s : state) : state :=
  set_min_bitrate_configured min_bitrate s.

Definition CurrentEstimate (s : state) : Z * Z * Z :=
  (bitrate_ s, last_fraction_loss_ s, last_round_trip_time_ s).

Definition CapBitrateToThresholds (s : state) : outcome :=
  let s :=
    if (0 <? bwe_incoming_ s) && (bwe_incoming_ s <? bitrate_ s)
    then set_bitrate (bwe_incoming_ s) s else s in
  let s :=
    if max_bitrate_configured_ s <? bitrate_ s
    then set_bitrate (max_bitrate_configured_ s) s else s in
  if bitrate_ s <? min_bitrate_configured_ s then
    (set_bitrate (min_bitrate_configured_ s) s,
     [ {| trace_level := kTraceWarning;
          trace_module := kTraceRtpRtcp;
          trace_id := -1;
          trace_min_kbps := min_bitrate_configured_ s / 1000;
          trace_estimate_kbps := bitrate_ s / 1000 |} ])
  else (s, []).

Definition UpdateReceiverEstimate (bandwidth : Z) (s : state) : outcome :=
  CapBitrateToThresholds (set_bwe_incoming bandwidth s).

(** [static_cast<uint32_t>(bitrate_ * 1.08 + 0.5)]. *)
Definition IncreasedBitrate (bitrate : Z) : option Z :=
  Double.to_uint32 (Double.of_int bitrate * double_1_08 + 0.5)%float.

(** [static_cast<uint32_t>((bitrate_ * static_cast<double>(512 -
    last_fraction_loss_)) / 512.0)]. *)
Definition DecreasedBitrate (bitrate loss : Z) : option Z :=
  Double.to_uint32
    ((Double.of_int bitrate * Double.of_int (512 - loss)) / 512)%float.

Definition UpdateEstimate (now_ms : Z) (s : state) : option outcome :=
  if last_fraction_loss_ s <=? 5 then
    if kBweIncreaseIntervalMs <=? to_uint32 (now_ms - time_last_increase_ s)
    then
      let s := set_time_last_increase now_ms s in
      match IncreasedBitrate (bitrate_ s) with
      | Some b =>
          let s := set_bitrate b s in
          let s := set_bitrate (to_uint32 (bitrate_ s + 1000)) s in
          Some (CapBitrateToThresholds s)
      | None => None
      end
    else Some (CapBitrateToThresholds s)
  else if last_fraction_loss_ s <=? 26 then Some (CapBitrateToThresholds s)
  else
    if to_uint32 (kBweDecreaseIntervalMs + last_round_trip_time_ s)
       <=? to_uint32 (now_ms - time_last_decrease_ s)
    then
      let s := set_time_last_decrease now_ms s in
      match DecreasedBitrate (bitrate_ s) (last_fraction_loss_ s) with
      | Some b =>
          let s := set_bitrate b s in
          match CalcTfrcBps (to_uint16 (last_round_trip_time_ s))
                            (last_fraction_loss_ s) with
          | Some tfrc =>
              Some (CapBitrateToThresholds
                      (set_bitrate (Z.max (bitrate_ s) tfrc) s))
          | None => None
          end
      | None => None
      end
    else Some (CapBitrateToThresholds s).

Definition UpdateReceiverBlock
    (fraction_loss rtt number_of_packets now_ms : Z) (s : state)
    : option outcome :=
  let s := set_last_round_trip_time rtt s in
  if 0 <? number_of_packets then
    match int_result (fraction_loss * number_of_packets) with
    | Some num_lost_packets_Q8 =>
        match int_result (accumulate_lost_packets_Q8_ s + num_lost_packets_Q8),
              int_result (accumulate_expected_packets_ s + number_of_packets)
        with
        | Some lost, Some expected =>
            let s := set_accumulate_lost_packets_Q8 lost s in
            let s := set_accumulate_expected_packets expected s in
            if kLimitNumPackets <=? accumulate_expected_packets_ s then
              let s :=
                set_last_fraction_loss
                  (to_uint8 (Z.quot (accumulate_lost_packets_Q8_ s)
                                    (accumulate_expected_packets_ s))) s in
              let s := set_accumulate_lost_packets_Q8 0 s in
              let s := set_accumulate_expected_packets 0 s in
              UpdateEstimate now_ms s
            else Some (s, [])
        | _, _ => None
        end
    | None => None
    end
  else UpdateEstimate now_ms s.

(** ** Sequences of calls *)

(** The calls of the public interface that change the object. *)
Inductive call : Type :=
| CallSetSendBitrate (bitrate : Z)
| CallSetMinMaxBitrate (min_bitrate max_bitrate : Z)
| CallSetMinBitrate (min_bitrate : Z)
| CallUpdateReceiverEstimate (bandwidth : Z)
| CallUpdateReceiverBlock (fraction_loss rtt number_of_packets now_ms : Z).

(** The arguments are values of the parameter types. *)
Definition call_ok (c : call) : Prop :=
  match c with
  | CallSetSendBitrate bitrate => is_uint32 bitrate
  | CallSetMinMaxBitrate min_bitrate max_bitrate =>
      is_uint32 min_bitrate /\ is_uint32 max_bitrate
  | CallSetMinBitrate min_bitrate => is_uint32 min_bitrate
  | CallUpdateReceiverEstimate bandwidth => is_uint32 bandwidth
  | CallUpdateReceiverBlock fraction_loss rtt number_of_packets now_ms =>
      is_uint8 fraction_loss /\ is_uint32 rtt /\ is_int number_of_packets /\
      is_uint32 now_ms
  end.

Definition step (c : call) (s : state) : option outcome :=
  match c with
  | CallSetSendBitrate bitrate => Some (SetSendBitrate bitrate s, [])
  | CallSetMinMaxBitrate min_bitrate max_bitrate =>
      Some (SetMinMaxBitrate min_bitrate max_bitrate s, [])
  | CallSetMinBitrate min_bitrate => Some (SetMinBitrate min_bitrate s, [])
  | CallUpdateReceiverEstimate bandwidth =>
      Some (UpdateReceiverEstimate bandwidth s)
  | CallUpdateReceiverBlock fraction_loss rtt number_of_packets now_ms =>
      UpdateReceiverBlock fraction_loss rtt number_of_packets now_ms s
  end.

Fixpoint run (cs : list call) (s : state) : option outcome :=
  match cs with
  | [] => Some (s, [])
  | c :: cs' =>
      match step c s with
      | Some (s', out) =>
          match run cs' s' with
          | Some (s'', out') => Some (s'', out ++ out')
          | None => None
          end
      | None => None
      end
  end.

(** ** Predicates and states of the statements *)

(** Does the call end in [CapBitrateToThresholds]?  The receiver estimate
    always does; a receiver block does unless it returns early. *)
Definition reaches_clamp (c : call) (s : state) : Prop :=
  match c with
  | CallUpdateReceiverEstimate _ => True
  | CallUpdateReceiverBlock _ _ number_of_packets _ =>
      number_of_packets <= 0 \/
      kLimitNumPackets <= accumulate_expected_packets_ s + number_of_packets
  | _ => False
  end.

(** The region [CapBitrateToThresholds] leaves the bitrate in: at least the
    configured minimum, and no more than the configured maximum and a
    positive receiver estimate unless the minimum is above them. *)
Definition clamped (s : state) : Prop :=
  min_bitrate_configured_ s <= bitrate_ s /\
  bitrate_ s <= Z.max (min_bitrate_configured_ s) (max_bitrate_configured_ s) /\
  (0 < bwe_incoming_ s ->
   bitrate_ s <= Z.max (min_bitrate_configured_ s) (bwe_incoming_ s)).

(** The bounds as the specification words them. *)
Definition within_bounds (s : state) : Prop :=
  min_bitrate_configured_ s <= bitrate_ s <= max_bitrate_configured_ s /\
  (0 < bwe_incoming_ s -> bitrate_ s <= bwe_incoming_ s).

(** The value the clamp computes from the bitrate it is given. *)
Definition capped_to_estimate (s : state) : Z :=
  if 0 <? bwe_incoming_ s then Z.min (bitrate_ s) (bwe_incoming_ s)
  else bitrate_ s.

Definition capped_to_max (s : state) : Z :=
  Z.min (max_bitrate_configured_ s) (capped_to_estimate s).

Definition min_bitrate_warning (s : state) : trace_msg :=
  {| trace_level := kTraceWarning;
     trace_module := kTraceRtpRtcp;
     trace_id := -1;
     trace_min_kbps := min_bitrate_configured_ s / 1000;
     trace_estimate_kbps := capped_to_max s / 1000 |}.

(** The accumulators between two commits: fewer than [kLimitNumPackets]
    packets, and at most 255/256 lost per packet. *)
Definition accumulators_ok (s : state) : Prop :=
  0 <= accumulate_expected_packets_ s < kLimitNumPackets /\
  0 <= accumulate_lost_packets_Q8_ s <= 255 * accumulate_expected_packets_ s.

(** The three ways of leaving the bitrate to the clamp alone. *)
Definition holds_rate (now_ms : Z) (s : state) : Prop :=
  (last_fraction_loss_ s <= 5 /\
   to_uint32 (now_ms - time_last_increase_ s) < kBweIncreaseIntervalMs) \/
  (5 < last_fraction_loss_ s <= 26) \/
  (26 < last_fraction_loss_ s /\
   to_uint32 (now_ms - time_last_decrease_ s) <
   to_uint32 (kBweDecreaseIntervalMs + last_round_trip_time_ s)).

(** Two states that differ at most in the bitrate and the timestamps. *)
Definition same_configuration (s1 s : state) : Prop :=
  min_bitrate_configured_ s1 = min_bitrate_configured_ s /\
  max_bitrate_configured_ s1 = max_bitrate_configured_ s /\
  bwe_incoming_ s1 = bwe_incoming_ s /\
  last_fraction_loss_ s1 = last_fraction_loss_ s /\
  last_round_trip_time_ s1 = last_round_trip_time_ s /\
  accumulate_lost_packets_Q8_ s1 = accumulate_lost_packets_Q8_ s /\
  accumulate_expected_packets_ s1 = accumulate_expected_packets_ s.

(** The state a report leaves when it returns early. *)
Definition accumulated (fraction_loss rtt number_of_packets : Z) (s : state)
    : state :=
  set_accumulate_expected_packets
    (accumulate_expected_packets_ s + number_of_packets)
    (set_accumulate_lost_packets_Q8
       (accumulate_lost_packets_Q8_ s + fraction_loss * number_of_packets)
       (set_last_round_trip_time rtt s)).

(** The state a report hands to [UpdateEstimate] when it commits. *)
Definition committed (fraction_loss rtt number_of_packets : Z) (s : state)
    : state :=
  set_accumulate_expected_packets 0
    (set_accumulate_lost_packets_Q8 0
       (set_last_fraction_loss
          (to_uint8
             (Z.quot (accumulate_lost_packets_Q8_ s +
                      fraction_loss * number_of_packets)
                     (accumulate_expected_packets_ s + number_of_packets)))
          (set_last_round_trip_time rtt s))).

(** No [int] operation of the report leaves the type. *)
Definition no_int_overflow (fraction_loss number_of_packets : Z) (s : state)
    : Prop :=
  is_int (fraction_loss * number_of_packets) /\
  is_int (accumulate_lost_packets_Q8_ s + fraction_loss * number_of_packets) /\
  is_int (accumulate_expected_packets_ s + number_of_packets).


(** One receiver report: the arguments of [UpdateReceiverBlock]. *)
Record report : Type := {
  report_fraction_loss : Z;
  report_rtt : Z;
  report_number_of_packets : Z;
  report_now_ms : Z
}.

Definition report_call (r : report) : call :=
  CallUpdateReceiverBlock (report_fraction_loss r) (report_rtt r)
    (report_number_of_packets r) (report_now_ms r).

(** A report that covers at least one packet. *)
Definition report_ok (r : report) : Prop :=
  is_uint8 (report_fraction_loss r) /\ is_uint32 (report_rtt r) /\
  0 < report_number_of_packets r /\ is_int (report_number_of_packets r) /\
  is_uint32 (report_now_ms r).

(** What a list of reports adds to the two accumulators. *)
Fixpoint expected_packets (rs : list report) : Z :=
  match rs with
  | [] => 0
  | r :: rs' => report_number_of_packets r + expected_packets rs'
  end.

Fixpoint lost_packets_Q8 (rs : list report) : Z :=
  match rs with
  | [] => 0
  | r :: rs' =>
      report_fraction_loss r * report_number_of_packets r +
      lost_packets_Q8 rs'
  end.

Definition is_setter (c : call) : Prop :=
  match c with
  | CallSetSendBitrate _ | CallSetMinMaxBitrate _ _ | CallSetMinBitrate _ =>
      True
  | _ => False
  end.

(** The configuration calls of a stream start: bounds, then base bitrate. *)
Definition configured (min_bitrate max_bitrate bitrate : Z) : state :=
  SetSendBitrate bitrate (SetMinMaxBitrate min_bitrate max_bitrate initial).

(** ** Binary64 numbers *)

(** After shifting [M] right by [log2 P] bits the record holds the quotient;
    the round bit tells on which side of the half the remainder lies and the
    sticky bit whether it is exactly there. *)
Definition shr_inv (M P : Z) (mrs : shr_record) : Prop :=
  exists rho,
    M = P * shr_m mrs + rho /\
    0 <= shr_m mrs /\
    0 <= rho /\
    (shr_r mrs = false -> 2 * rho < P) /\
    (shr_r mrs = true -> P <= 2 * rho < 2 * P) /\
    (shr_r mrs = false -> shr_s mrs = false -> rho = 0) /\
    (shr_r mrs = true -> shr_s mrs = false -> 2 * rho = P).

(** [x] is a positive normal binary64 number of value [v / 2^53], between
    one half and [2^53]. *)
Definition represents (x : spec_float) (v : Z) : Prop :=
  exists (m : positive) (e : Z),
    x = S754_finite false m e /\
    2 ^ 52 <= Z.pos m < 2 ^ 53 /\
    -53 <= e <= 0 /\
    v = Z.pos m * 2 ^ (e + 53).

(** ** The TFRC floor as the specification words it *)

(** [X_bps = 8 * s / (R * sqrt (2p/3) + 4R * (3 * sqrt (3p/8) * p *
    (1 + 32 p^2)))] with [R = rtt_ms / 1000], [p = loss_q8 / 255] and
    [s = 1000], the throughput equation of RFC 3448 with [b = 1] and
    [t_RTO = 4 R], evaluated in [double]. *)
Definition spec_tfrc_bps (rtt_ms loss_q8 : float) : float :=
  (let R := rtt_ms / 1000 in
   let p := loss_q8 / 255 in
   let s := 1000 in
   8 * s / (R * PrimFloat.sqrt (2 * p / 3) +
            4 * R * (3 * PrimFloat.sqrt (3 * p / 8) * p *
                     (1 + 32 * (p * p)))))%float.

(** ** Checking [CalcTfrcBps] on every input *)

(** The two terms of the denominator that depend on the loss alone, as the
    code computes them. *)
Definition TfrcLossTerm1 (loss : float) : float :=
  (let b := 1%Z in
   let p := loss / 255 in
   PrimFloat.sqrt (Double.of_int (2 * b) * p / 3))%float.

Definition TfrcLossTerm2 (loss : float) : float :=
  (let b := 1%Z in
   let p := loss / 255 in
   3 * PrimFloat.sqrt (Double.of_int (3 * b) * p / 8) * p *
   (1 + 32 * p * p))%float.

(** The second term as the specification computes it. *)
Definition spec_loss_term2 (loss_q8 : float) : float :=
  (let p := loss_q8 / 255 in
   3 * PrimFloat.sqrt (3 * p / 8) * p * (1 + 32 * (p * p)))%float.

Definition TfrcDenominator (term1 term2 rtt : float) : float :=
  (let R := rtt / 1000 in
   let t_RTO := 4 * R in
   R * term1 + (t_RTO * term2))%float.

(** For one input: the conversion of the code's value fits [uint32_t], and
    the specification's value is the same [double]. *)
Definition tfrc_check (s s8 term1 term2 rtt : float) : bool :=
  let D := TfrcDenominator term1 term2 rtt in
  let X8 := (s / D * 8)%float in
  Double.fits_uint32 X8 && PrimFloat.Leibniz.eqb X8 (s8 / D)%float.

(** The same for [n] round-trip times from [rtt] on. *)
Fixpoint tfrc_check_rtts (n : nat) (rtt : int) (s s8 term1 term2 : float)
    : bool :=
  match n with
  | O => true
  | S n' =>
      tfrc_check s s8 term1 term2 (PrimFloat.of_uint63 rtt)
      && tfrc_check_rtts n' (rtt + 1)%uint63 s s8 term1 term2
  end.

(** The same for every non-zero [uint16_t] round-trip time and [n] loss
    values from [loss] on. *)
Fixpoint tfrc_check_losses (n : nat) (loss : int) : bool :=
  match n with
  | O => true
  | S n' =>
      let l := PrimFloat.of_uint63 loss in
      PrimFloat.Leibniz.eqb (TfrcLossTerm2 l) (spec_loss_term2 l)
      && tfrc_check_rtts (Z.to_nat 65535) 1%uint63
           (Double.of_int kAvgPacketSizeBytes) 8000%float
           (TfrcLossTerm1 l) (TfrcLossTerm2 l)
      && tfrc_check_losses n' (loss + 1)%uint63
  end.

(** [bitrate * 1.08], rounded to the nearest integer. *)
Definition round_1_08 (bitrate : Z) : Z := (108 * bitrate + 50) / 100.

(** The outcome of [UpdateEstimate] when it decreases, given the TFRC rate. *)
Definition decreased (now_ms tfrc : Z) (s : state) : outcome :=
  CapBitrateToThresholds
    (set_bitrate
       (Z.max (bitrate_ s * (512 - last_fraction_loss_ s) / 512) tfrc)
       (set_time_last_decrease now_ms s)).

(** The outcome of [UpdateEstimate] when it increases. *)
Definition increased (now_ms : Z) (s : state) : outcome :=
  CapBitrateToThresholds
    (set_bitrate (round_1_08 (bitrate_ s) + 1000)
       (set_time_last_increase now_ms s)).

(** The same with the sum of [bitrate_ += 1000] as the [uint32_t] it is:
    the outcome of every increase whose rounded product fits 32 bits. *)
Definition increased_uint32 (now_ms : Z) (s : state) : outcome :=
  CapBitrateToThresholds
    (set_bitrate (to_uint32 (round_1_08 (bitrate_ s) + 1000))
       (set_time_last_increase now_ms s)).

(** A configured estimator that has committed a loss fraction and a
    round-trip time. *)
Definition observing (min_bitrate max_bitrate bitrate loss rtt : Z) : state :=
  set_last_fraction_loss loss
    (set_last_round_trip_time rtt
       (configured min_bitrate max_bitrate bitrate)).

(** The state a report of at least [kLimitNumPackets] packets hands to
    [UpdateEstimate] when the accumulators were empty. *)
Definition reported (fraction_loss rtt : Z) (s : state) : state :=
  set_accumulate_expected_packets 0
    (set_accumulate_lost_packets_Q8 0
       (set_last_fraction_loss fraction_loss
          (set_last_round_trip_time rtt s))).

(** ** Arguments that keep every call defined *)

(** The largest bitrate whose increase
    [static_cast<uint32_t>(bitrate_ * 1.08 + 0.5)] is a [uint32_t]. *)
Definition safe_bitrate_limit : Z := 3976821569.

(** The largest bitrate whose increase does not wrap around either:
    [round_1_08 b + 1000 < 2^32]. *)
Definition no_wrap_bitrate_limit : Z := 3976820643.

(** The largest packet count of one report with which no accumulator can
    leave [int]: [255 * (19 + n) <= INT_MAX]. *)
Definition safe_packets_limit : Z := 8421485.

(** A call within these limits: arguments of the parameter types, bitrates
    at most [safe_bitrate_limit], reports of at most [safe_packets_limit]
    packets. *)
Definition safe_call (c : call) : Prop :=
  call_ok c /\
  match c with
  | CallSetSendBitrate bitrate => bitrate <= safe_bitrate_limit
  | CallSetMinMaxBitrate min_bitrate max_bitrate =>
      min_bitrate <= safe_bitrate_limit /\ max_bitrate <= safe_bitrate_limit
  | CallSetMinBitrate min_bitrate => min_bitrate <= safe_bitrate_limit
  | CallUpdateReceiverEstimate _ => True
  | CallUpdateReceiverBlock _ _ number_of_packets _ =>
      number_of_packets <= safe_packets_limit
  end.

(** The states such calls keep the estimator in. *)
Definition safe_state (s : state) : Prop :=
  state_ok s /\ accumulators_ok s /\
  bitrate_ s <= safe_bitrate_limit /\
  min_bitrate_configured_ s <= safe_bitrate_limit /\
  max_bitrate_configured_ s <= safe_bitrate_limit.

(** The loss fraction a report hands to [UpdateEstimate]: the one it
    commits, or the stored one when it covers no packet. *)
Definition loss_after_report (fraction_loss number_of_packets : Z) (s : state)
    : Z :=
  if 0 <? number_of_packets
  then (accumulate_lost_packets_Q8_ s + fraction_loss * number_of_packets) /
       (accumulate_expected_packets_ s + number_of_packets)
  else last_fraction_loss_ s.

(** ** Sustained low and sustained heavy loss *)

(** The highest bitrate the clamp lets through: the configured maximum, a
    positive receiver estimate below it, or the configured minimum when
    that is higher still. *)
Definition ceiling (s : state) : Z :=
  Z.max (min_bitrate_configured_ s)
    (if 0 <? bwe_incoming_ s
     then Z.min (max_bitrate_configured_ s) (bwe_incoming_ s)
     else max_bitrate_configured_ s).

(** [k] reports of the same loss fraction and round-trip time, of
    [kLimitNumPackets] packets each, the first one [period] ms after [start]
    and each [period] ms after the one before, on the 32-bit clock. *)
Fixpoint periodic_reports (fraction_loss rtt start period : Z) (k : nat)
    : list call :=
  match k with
  | O => []
  | S k' =>
      CallUpdateReceiverBlock fraction_loss rtt kLimitNumPackets
        (to_uint32 (start + period))
      :: periodic_reports fraction_loss rtt (start + period) period k'
  end.

(** ** Checking that [CalcTfrcBps] falls as its arguments grow *)

(** The value [X * 8] of [CalcTfrcBps] from the packet size, the two terms
    of the loss and the round-trip time. *)
Definition TfrcValue (s term1 term2 rtt : float) : float :=
  (s / TfrcDenominator term1 term2 rtt * 8)%float.

(** For [n] round-trip times from [rtt] on and two losses, given by their
    terms: the value for the second loss is not above the one for the
    first, and neither value is above the one for the round-trip time
    before ([prev1], [prev2]). *)
Fixpoint tfrc_falls_rtts (n : nat) (rtt : int)
    (prev1 prev2 s a1 a2 b1 b2 : float) : bool :=
  match n with
  | O => true
  | S n' =>
      let r := PrimFloat.of_uint63 rtt in
      let x1 := TfrcValue s a1 a2 r in
      let x2 := TfrcValue s b1 b2 r in
      (x2 <=? x1)%float && (x1 <=? prev1)%float && (x2 <=? prev2)%float
      && tfrc_falls_rtts n' (rtt + 1)%uint63 x1 x2 s a1 a2 b1 b2
  end.

(** The same for every non-zero [uint16_t] round-trip time and [n] pairs of
    a loss and the next one, from [loss] on. *)
Fixpoint tfrc_falls_losses (n : nat) (loss : int) : bool :=
  match n with
  | O => true
  | S n' =>
      let l1 := PrimFloat.of_uint63 loss in
      let l2 := PrimFloat.of_uint63 (loss + 1)%uint63 in
      tfrc_falls_rtts (Z.to_nat 65535) 1%uint63 infinity infinity
        (Double.of_int kAvgPacketSizeBytes)
        (TfrcLossTerm1 l1) (TfrcLossTerm2 l1)
        (TfrcLossTerm1 l2) (TfrcLossTerm2 l2)
      && tfrc_falls_losses n' (loss + 1)%uint63
  end.

(** The integer [CalcTfrcBps] returns past its early return. *)
Definition TfrcBps (rtt loss : Z) : Z :=
  Double.SFtrunc
    (Prim2SF (TfrcBitsPerSecond (Double.of_int rtt) (Double.of_int loss))).

(** * Properties *)

(** ** Tactics *)

Ltac unfold_setters :=
  unfold set_accumulate_lost_packets_Q8, set_accumulate_expected_packets,
    set_bitrate, set_min_bitrate_configured, set_max_bitrate_configured,
    set_last_fraction_loss, set_last_round_trip_time, set_bwe_incoming,
    set_time_last_increase, set_time_last_decrease in *.

(** Reduce the projections of updated states, in the goal and the
    hypotheses. *)
Ltac simpl_state :=
  unfold_setters;
  cbn [accumulate_lost_packets_Q8_ accumulate_expected_packets_ bitrate_
       min_bitrate_configured_ max_bitrate_configured_ last_fraction_loss_
       last_round_trip_time_ bwe_incoming_ time_last_increase_
       time_last_decrease_ fst snd] in *.

(** The same by plain unfolding, which leaves the arithmetic alone. *)
Ltac state_fields :=
  unfold_setters;
  cbv beta iota delta
    [accumulate_lost_packets_Q8_ accumulate_expected_packets_ bitrate_
     min_bitrate_configured_ max_bitrate_configured_ last_fraction_loss_
     last_round_trip_time_ bwe_incoming_ time_last_increase_
     time_last_decrease_ fst snd] in *.

(** Split on the comparisons of a conditional. *)
Ltac cases_ltb :=
  repeat match goal with
  | |- context [if ?a <? ?c then _ else _] =>
      destruct (Z.ltb_spec a c); cbn in *
  end.

(** ** The clamp *)

Lemma CapBitrateToThresholds_eq (s : state) :
  CapBitrateToThresholds s =
    (set_bitrate (Z.max (min_bitrate_configured_ s) (capped_to_max s)) s,
     if capped_to_max s <? min_bitrate_configured_ s
     then [min_bitrate_warning s] else []).
Proof.
  unfold CapBitrateToThresholds, min_bitrate_warning, capped_to_max,
    capped_to_estimate.
  destruct s as [al ae b mn mx l r h ti td]; unfold_setters; cbn.
  destruct (Z.ltb_spec 0 h); destruct (Z.ltb_spec h b); cbn;
    cases_ltb; try lia;
    repeat f_equal; try lia.
  all: try (f_equal; lia).
Qed.

Lemma CapBitrateToThresholds_clamped (s : state) :
  clamped (fst (CapBitrateToThresholds s)).
Proof.
  rewrite CapBitrateToThresholds_eq.
  unfold clamped, capped_to_max, capped_to_estimate, set_bitrate.
  cbn [fst bitrate_ min_bitrate_configured_ max_bitrate_configured_
       bwe_incoming_].
  destruct (Z.ltb_spec 0 (bwe_incoming_ s)); lia.
Qed.

Lemma set_bitrate_same (s : state) : set_bitrate (bitrate_ s) s = s.
Proof. destruct s; reflexivity. Qed.

Lemma CapBitrateToThresholds_fixed (s : state) :
  clamped s -> fst (CapBitrateToThresholds s) = s.
Proof.
  intros (Hmin & Hmax & Hest). rewrite CapBitrateToThresholds_eq.
  cbn [fst].
  transitivity (set_bitrate (bitrate_ s) s); [|apply set_bitrate_same].
  f_equal.
  unfold capped_to_max, capped_to_estimate.
  destruct (Z.ltb_spec 0 (bwe_incoming_ s)); lia.
Qed.

(** ** The branches of [UpdateEstimate] *)

Lemma UpdateEstimate_increase (now_ms : Z) (s : state) :
  last_fraction_loss_ s <= 5 ->
  kBweIncreaseIntervalMs <= to_uint32 (now_ms - time_last_increase_ s) ->
  UpdateEstimate now_ms s =
    match IncreasedBitrate (bitrate_ s) with
    | Some b =>
        Some (CapBitrateToThresholds
                (set_bitrate (to_uint32 (b + 1000))
                   (set_time_last_increase now_ms s)))
    | None => None
    end.
Proof.
  intros Hl Ht. unfold UpdateEstimate.
  destruct (Z.leb_spec (last_fraction_loss_ s) 5); [|lia].
  destruct (Z.leb_spec kBweIncreaseIntervalMs
              (to_uint32 (now_ms - time_last_increase_ s))); [|lia].
  cbn. destruct (IncreasedBitrate (bitrate_ s)); reflexivity.
Qed.

Lemma UpdateEstimate_hold (now_ms : Z) (s : state) :
  holds_rate now_ms s ->
  UpdateEstimate now_ms s = Some (CapBitrateToThresholds s).
Proof.
  unfold holds_rate. intros H. unfold UpdateEstimate.
  destruct (Z.leb_spec (last_fraction_loss_ s) 5).
  - destruct (Z.leb_spec kBweIncreaseIntervalMs
                (to_uint32 (now_ms - time_last_increase_ s)));
      [lia | reflexivity].
  - destruct (Z.leb_spec (last_fraction_loss_ s) 26); [reflexivity|].
    destruct (Z.leb_spec
                (to_uint32 (kBweDecreaseIntervalMs + last_round_trip_time_ s))
                (to_uint32 (now_ms - time_last_decrease_ s)));
      [lia | reflexivity].
Qed.

Lemma UpdateEstimate_decrease (now_ms : Z) (s : state) :
  26 < last_fraction_loss_ s ->
  to_uint32 (kBweDecreaseIntervalMs + last_round_trip_time_ s) <=
    to_uint32 (now_ms - time_last_decrease_ s) ->
  UpdateEstimate now_ms s =
    match DecreasedBitrate (bitrate_ s) (last_fraction_loss_ s),
          CalcTfrcBps (to_uint16 (last_round_trip_time_ s))
                      (last_fraction_loss_ s) with
    | Some b, Some tfrc =>
        Some (CapBitrateToThresholds
                (set_bitrate (Z.max b tfrc)
                   (set_time_last_decrease now_ms s)))
    | _, _ => None
    end.
Proof.
  intros Hl Ht. unfold UpdateEstimate.
  destruct (Z.leb_spec (last_fraction_loss_ s) 5); [lia|].
  destruct (Z.leb_spec (last_fraction_loss_ s) 26); [lia|].
  destruct (Z.leb_spec
              (to_uint32 (kBweDecreaseIntervalMs + last_round_trip_time_ s))
              (to_uint32 (now_ms - time_last_decrease_ s))); [|lia].
  cbn.
  destruct (DecreasedBitrate (bitrate_ s) (last_fraction_loss_ s));
    [|reflexivity].
  destruct (CalcTfrcBps (to_uint16 (last_round_trip_time_ s))
              (last_fraction_loss_ s)); reflexivity.
Qed.

(** Whatever branch is taken, [UpdateEstimate] ends in the clamp and touches
    nothing but the bitrate and the two timestamps. *)
Lemma UpdateEstimate_ends_in_clamp (now_ms : Z) (s : state) (o : outcome) :
  UpdateEstimate now_ms s = Some o ->
  exists s1, o = CapBitrateToThresholds s1 /\ same_configuration s1 s.
Proof.
  unfold UpdateEstimate, same_configuration. intros H.
  repeat match type of H with
  | (if ?c then _ else _) = _ => destruct c
  | match ?x with Some _ => _ | None => _ end = _ => destruct x
  | None = Some _ => discriminate
  | Some _ = Some _ => injection H as <-
  end; eexists; (split; [reflexivity|]); cbn; repeat split.
Qed.

(** ** The branches of [UpdateReceiverBlock] *)

Lemma int_result_ok (z : Z) : is_int z -> int_result z = Some z.
Proof.
  unfold is_int, int_result. intros H.
  destruct (Z.leb_spec INT_MIN z); destruct (Z.leb_spec z INT_MAX);
    cbn; try reflexivity; lia.
Qed.

Lemma int_result_some (z v : Z) : int_result z = Some v -> v = z /\ is_int z.
Proof.
  unfold is_int, int_result.
  destruct (Z.leb_spec INT_MIN z); destruct (Z.leb_spec z INT_MAX);
    cbn; intros Hv; try discriminate.
  injection Hv as <-. lia.
Qed.

Lemma UpdateReceiverBlock_no_packets
    (fraction_loss rtt number_of_packets now_ms : Z) (s : state) :
  number_of_packets <= 0 ->
  UpdateReceiverBlock fraction_loss rtt number_of_packets now_ms s =
    UpdateEstimate now_ms (set_last_round_trip_time rtt s).
Proof.
  intros Hn. unfold UpdateReceiverBlock.
  destruct (Z.ltb_spec 0 number_of_packets); [lia | reflexivity].
Qed.

Lemma UpdateReceiverBlock_early_return
    (fraction_loss rtt number_of_packets now_ms : Z) (s : state) :
  0 < number_of_packets ->
  no_int_overflow fraction_loss number_of_packets s ->
  accumulate_expected_packets_ s + number_of_packets < kLimitNumPackets ->
  UpdateReceiverBlock fraction_loss rtt number_of_packets now_ms s =
    Some (accumulated fraction_loss rtt number_of_packets s, []).
Proof.
  intros Hn (Hp & Hl & He) Hlim. unfold UpdateReceiverBlock.
  destruct (Z.ltb_spec 0 number_of_packets); [|lia].
  rewrite (int_result_ok _ Hp). cbn.
  rewrite (int_result_ok _ Hl), (int_result_ok _ He).
  destruct (Z.leb_spec kLimitNumPackets
              (accumulate_expected_packets_ s + number_of_packets));
    [lia | reflexivity].
Qed.

Lemma UpdateReceiverBlock_commit
    (fraction_loss rtt number_of_packets now_ms : Z) (s : state) :
  0 < number_of_packets ->
  no_int_overflow fraction_loss number_of_packets s ->
  kLimitNumPackets <= accumulate_expected_packets_ s + number_of_packets ->
  UpdateReceiverBlock fraction_loss rtt number_of_packets now_ms s =
    UpdateEstimate now_ms (committed fraction_loss rtt number_of_packets s).
Proof.
  intros Hn (Hp & Hl & He) Hlim. unfold UpdateReceiverBlock.
  destruct (Z.ltb_spec 0 number_of_packets); [|lia].
  rewrite (int_result_ok _ Hp). cbn.
  rewrite (int_result_ok _ Hl), (int_result_ok _ He).
  destruct (Z.leb_spec kLimitNumPackets
              (accumulate_expected_packets_ s + number_of_packets));
    [|lia].
  reflexivity.
Qed.

(** A report that does not fail did not overflow. *)
Lemma UpdateReceiverBlock_defined
    (fraction_loss rtt number_of_packets now_ms : Z) (s : state) (o : outcome) :
  0 < number_of_packets ->
  UpdateReceiverBlock fraction_loss rtt number_of_packets now_ms s = Some o ->
  no_int_overflow fraction_loss number_of_packets s.
Proof.
  intros Hn. unfold UpdateReceiverBlock, no_int_overflow.
  destruct (Z.ltb_spec 0 number_of_packets); [|lia].
  destruct (int_result (fraction_loss * number_of_packets)) as [p|] eqn:Ep;
    [|discriminate].
  apply int_result_some in Ep as [-> Hp]. cbn.
  destruct (int_result _) as [l|] eqn:El; [|discriminate].
  destruct (int_result (_ + number_of_packets)) as [e|] eqn:Ee;
    [|discriminate].
  apply int_result_some in El as [-> Hl].
  apply int_result_some in Ee as [-> He]. auto.
Qed.

(** ** Sequences of calls *)

Lemma run_app (cs1 cs2 : list call) (s : state) :
  run (cs1 ++ cs2) s =
    match run cs1 s with
    | Some (s1, out1) =>
        match run cs2 s1 with
        | Some (s2, out2) => Some (s2, out1 ++ out2)
        | None => None
        end
    | None => None
    end.
Proof.
  revert s. induction cs1 as [|c cs1 IH]; intros s; cbn.
  - destruct (run cs2 s) as [[s2 out2]|]; reflexivity.
  - destruct (step c s) as [[s' out]|]; [|reflexivity].
    rewrite IH. destruct (run cs1 s') as [[s1 out1]|]; [|reflexivity].
    destruct (run cs2 s1) as [[s2 out2]|]; [|reflexivity].
    now rewrite app_assoc.
Qed.

Lemma run_single (c : call) (s : state) :
  run [c] s =
    match step c s with
    | Some (s', out) => Some (s', out ++ [])
    | None => None
    end.
Proof. cbn. destruct (step c s) as [[s' out]|]; reflexivity. Qed.

(** A call that reaches the clamp leaves a clamped bitrate and the bounds it
    found; only the receiver estimate is replaced by the call's own. *)
Lemma step_reaches_clamp (c : call) (s s' : state) (out : list trace_msg) :
  step c s = Some (s', out) ->
  reaches_clamp c s ->
  clamped s' /\
  min_bitrate_configured_ s' = min_bitrate_configured_ s /\
  max_bitrate_configured_ s' = max_bitrate_configured_ s.
Proof.
  destruct c as [b|mn mx|mn|bw|fl rtt n now]; cbn; try tauto.
  - intros H _. injection H as H. 
    pose proof (CapBitrateToThresholds_clamped (set_bwe_incoming bw s)) as Hc.
    unfold UpdateReceiverEstimate in H.
    rewrite CapBitrateToThresholds_eq in H. rewrite CapBitrateToThresholds_eq in Hc.
    injection H as <- _. split; [exact Hc|]. split; reflexivity.
  - intros H Hr.
    assert (exists s0, UpdateEstimate now s0 = Some (s', out) /\
              min_bitrate_configured_ s0 = min_bitrate_configured_ s /\
              max_bitrate_configured_ s0 = max_bitrate_configured_ s)
      as (s0 & Hu & Hmn & Hmx).
    { destruct (Z.ltb_spec 0 n) as [Hn|Hn].
      - destruct Hr as [Hr|Hr]; [lia|].
        pose proof (UpdateReceiverBlock_defined _ _ _ _ _ _ Hn H) as Hov.
        rewrite (UpdateReceiverBlock_commit _ _ _ _ _ Hn Hov Hr) in H.
        eexists; split; [exact H|]. split; reflexivity.
      - rewrite UpdateReceiverBlock_no_packets in H by lia.
        eexists; split; [exact H|]. split; reflexivity. }
    apply UpdateEstimate_ends_in_clamp in Hu as (s1 & Ho & Hc).
    destruct Hc as (Hmn1 & Hmx1 & _).
    pose proof (CapBitrateToThresholds_clamped s1) as Hcl.
    rewrite <- Ho in Hcl. cbn in Hcl. split; [exact Hcl|].
    rewrite CapBitrateToThresholds_eq in Ho. injection Ho as -> _.
    cbn. split; congruence.
Qed.

Lemma clamped_within_bounds (s : state) :
  clamped s ->
  min_bitrate_configured_ s <= max_bitrate_configured_ s ->
  (0 < bwe_incoming_ s -> min_bitrate_configured_ s <= bwe_incoming_ s) ->
  within_bounds s.
Proof. unfold clamped, within_bounds. lia. Qed.

(** ** Reports below the packet limit *)

Lemma expected_packets_pos (rs : list report) :
  Forall report_ok rs -> 0 <= expected_packets rs.
Proof.
  induction 1 as [|r rs Hr _ IH]; cbn; [lia|].
  destruct Hr as (_ & _ & Hn & _). lia.
Qed.

Lemma lost_packets_Q8_bounds (rs : list report) :
  Forall report_ok rs ->
  0 <= lost_packets_Q8 rs <= 255 * expected_packets rs.
Proof.
  induction 1 as [|r rs Hr _ IH]; cbn [expected_packets lost_packets_Q8];
    [lia|].
  destruct Hr as (Hf & _ & Hn & _). unfold is_uint8 in Hf.
  assert (0 <= report_fraction_loss r * report_number_of_packets r <=
          255 * report_number_of_packets r) by nia.
  lia.
Qed.

Lemma run_reports_below_limit (rs : list report) (s : state) :
  Forall report_ok rs ->
  accumulators_ok s ->
  accumulate_expected_packets_ s + expected_packets rs < kLimitNumPackets ->
  exists s',
    run (map report_call rs) s = Some (s', []) /\
    accumulate_expected_packets_ s' =
      accumulate_expected_packets_ s + expected_packets rs /\
    accumulate_lost_packets_Q8_ s' =
      accumulate_lost_packets_Q8_ s + lost_packets_Q8 rs /\
    bitrate_ s' = bitrate_ s /\
    last_fraction_loss_ s' = last_fraction_loss_ s /\
    min_bitrate_configured_ s' = min_bitrate_configured_ s /\
    max_bitrate_configured_ s' = max_bitrate_configured_ s /\
    bwe_incoming_ s' = bwe_incoming_ s /\
    time_last_increase_ s' = time_last_increase_ s /\
    time_last_decrease_ s' = time_last_decrease_ s.
Proof.
  intros Hrs. revert s.
  induction Hrs as [|r rs Hr Hrs IH]; intros s Hacc Hlim;
    cbn [map run expected_packets lost_packets_Q8] in *.
  - exists s. rewrite !Z.add_0_r. repeat split; reflexivity.
  - pose proof (expected_packets_pos rs Hrs) as Hpos.
    pose proof (lost_packets_Q8_bounds rs Hrs) as Hlpos.
    destruct Hr as (Hf & Hrtt & Hn & Hi & Hnow).
    destruct Hacc as (He & Hl).
    unfold is_uint8, kLimitNumPackets in *.
    set (n := report_number_of_packets r) in *.
    set (f := report_fraction_loss r) in *.
    assert (Hfn : 0 <= f * n <= 255 * n) by nia.
    assert (Hov : no_int_overflow f n s).
    { unfold no_int_overflow, is_int, INT_MIN, INT_MAX. lia. }
    unfold report_call at 1. cbn [step]. fold n f.
    rewrite (UpdateReceiverBlock_early_return _ _ _ _ _ Hn Hov)
      by (unfold kLimitNumPackets; lia).
    destruct (IH (accumulated f (report_rtt r) n s))
      as (s' & Hrun & Hexp & Hlost & Hrest).
    + unfold accumulators_ok, kLimitNumPackets, accumulated; simpl_state.
      lia.
    + unfold accumulated; simpl_state. lia.
    + exists s'. rewrite Hrun. unfold accumulated in *; simpl_state.
      split; [reflexivity|].
      split; [lia|]. split; [lia|]. exact Hrest.
Qed.

(** The quotient the commit stores is a loss fraction: it fits [uint8_t]. *)
Lemma committed_fraction_loss (lost expected : Z) :
  0 < expected -> 0 <= lost <= 255 * expected ->
  to_uint8 (Z.quot lost expected) = lost / expected /\
  is_uint8 (lost / expected).
Proof.
  intros He Hl.
  assert (H : 0 <= lost / expected <= 255).
  { split.
    - apply Z.div_pos; lia.
    - apply Z.div_le_upper_bound; lia. }
  unfold to_uint8, is_uint8.
  rewrite Z.quot_div_nonneg by lia.
  rewrite Z.mod_small by lia. lia.
Qed.

(** ** Binary64 rounding *)

(** The facts about [SpecFloat] the estimator needs: what
    [binary_round_aux] does to a mantissa, and from it the product, the sum
    and the conversions of positive normal numbers. *)

Lemma pow2_pos (n : Z) : 0 <= n -> 0 < 2 ^ n.
Proof. intros. apply Z.pow_pos_nonneg; lia. Qed.

Lemma pow2_succ (n : Z) : 0 <= n -> 2 ^ (n + 1) = 2 * 2 ^ n.
Proof. intros. rewrite Z.pow_add_r by lia. lia. Qed.

Lemma pow2_le (a b : Z) : 0 <= a <= b -> 2 ^ a <= 2 ^ b.
Proof. intros. apply Z.pow_le_mono_r; lia. Qed.

Lemma pow2_lt (a b : Z) : 0 <= a < b -> 2 ^ a < 2 ^ b.
Proof. intros. apply Z.pow_lt_mono_r; lia. Qed.

(** Comparing two powers of two compares the exponents. *)
Lemma pow2_lt_inv (a b : Z) : 0 <= a -> 0 <= b -> 2 ^ a < 2 ^ b -> a < b.
Proof.
  intros Ha Hb H. destruct (Z.lt_ge_cases a b) as [|Hge]; [assumption|].
  pose proof (pow2_le b a). lia.
Qed.

Lemma digits2_pos_bounds (p : positive) :
  2 ^ (Z.pos (digits2_pos p) - 1) <= Z.pos p < 2 ^ Z.pos (digits2_pos p).
Proof.
  induction p as [p IH|p IH|]; cbn [digits2_pos].
  - rewrite Pos2Z.inj_succ. replace (Z.succ (Z.pos (digits2_pos p)) - 1)
      with (Z.pos (digits2_pos p) - 1 + 1) by lia.
    unfold Z.succ. rewrite !pow2_succ by lia. lia.
  - rewrite Pos2Z.inj_succ. replace (Z.succ (Z.pos (digits2_pos p)) - 1)
      with (Z.pos (digits2_pos p) - 1 + 1) by lia.
    unfold Z.succ. rewrite !pow2_succ by lia. lia.
  - cbn. lia.
Qed.

Lemma digits2_pos_unique (p : positive) (d : Z) :
  0 < d -> 2 ^ (d - 1) <= Z.pos p < 2 ^ d -> Z.pos (digits2_pos p) = d.
Proof.
  intros Hd H. pose proof (digits2_pos_bounds p) as Hp.
  assert (d - 1 < Z.pos (digits2_pos p))
    by (apply pow2_lt_inv; lia).
  assert (Z.pos (digits2_pos p) - 1 < d)
    by (apply pow2_lt_inv; lia).
  lia.
Qed.

Lemma iter_xO_pow2 (d p : positive) :
  Z.pos (Pos.iter xO p d) = Z.pos p * 2 ^ Z.pos d.
Proof.
  revert p. induction d as [|d IH] using Pos.peano_ind; intros p.
  - cbn. lia.
  - rewrite Pos.iter_succ, Pos2Z.inj_xO, IH, Pos2Z.inj_succ.
    unfold Z.succ. rewrite pow2_succ by lia. lia.
Qed.

(** *** Shifting right, with the two sticky bits *)

Lemma shr_inv_init (M : Z) :
  0 <= M -> shr_inv M 1 {| shr_m := M; shr_r := false; shr_s := false |}.
Proof.
  intros HM. exists 0. cbn [shr_m shr_r shr_s].
  repeat split; intros; try lia; congruence.
Qed.

Lemma shr_1_inv (M P : Z) (mrs : shr_record) :
  0 < P -> shr_inv M P mrs -> shr_inv M (2 * P) (shr_1 mrs).
Proof.
  intros HP (rho & HM & Hm & Hrho & Hr0 & Hr1 & Hs0 & Hs1).
  destruct mrs as [m r s]. cbn [shr_m shr_r shr_s] in *.
  assert (Hlt : rho < P) by (destruct r; [specialize (Hr1 eq_refl)|
                                           specialize (Hr0 eq_refl)]; lia).
  destruct m as [|[p|p|]|p]; cbn [shr_1 shr_m shr_r shr_s]; try lia.
  - exists rho. cbn [shr_m shr_r shr_s]. repeat split; try lia;
      try discriminate.
    intros _ Hs. apply orb_false_elim in Hs as [-> ->]. auto.
  - exists (P + rho). cbn [shr_m shr_r shr_s].
    rewrite Pos2Z.inj_xI in HM. repeat split; try lia; try discriminate.
    intros _ Hs. apply orb_false_elim in Hs as [-> ->].
    rewrite (Hs0 eq_refl eq_refl). lia.
  - exists rho. cbn [shr_m shr_r shr_s].
    rewrite Pos2Z.inj_xO in HM. repeat split; try lia; try discriminate.
    intros _ Hs. apply orb_false_elim in Hs as [-> ->]. auto.
  - exists (P + rho). cbn [shr_m shr_r shr_s].
    repeat split; try lia; try discriminate.
    intros _ Hs. apply orb_false_elim in Hs as [-> ->].
    rewrite (Hs0 eq_refl eq_refl). lia.
Qed.

Lemma pow2_double (n : Z) : 0 <= n -> 2 ^ (2 * n) = 2 ^ n * 2 ^ n.
Proof.
  intros. replace (2 * n) with (n + n) by lia. apply Z.pow_add_r; lia.
Qed.

Lemma iter_pos_shr_1_inv (n : positive) (M P : Z) (mrs : shr_record) :
  0 < P -> shr_inv M P mrs ->
  shr_inv M (P * 2 ^ Z.pos n) (iter_pos shr_1 n mrs).
Proof.
  revert P mrs. induction n as [n IH|n IH|]; intros P mrs HP H;
    cbn [iter_pos].
  - change (Z.pos n~1) with (2 * Z.pos n + 1).
    pose proof (pow2_pos (Z.pos n)).
    replace (P * 2 ^ (2 * Z.pos n + 1))
      with (2 * P * 2 ^ Z.pos n * 2 ^ Z.pos n)
      by (rewrite pow2_succ, pow2_double by lia; lia).
    apply IH; [nia|]. apply IH; [lia|]. now apply shr_1_inv.
  - change (Z.pos n~0) with (2 * Z.pos n).
    pose proof (pow2_pos (Z.pos n)).
    replace (P * 2 ^ (2 * Z.pos n))
      with (P * 2 ^ Z.pos n * 2 ^ Z.pos n)
      by (rewrite pow2_double by lia; lia).
    apply IH; [nia|]. apply IH; [lia|]. assumption.
  - replace (P * 2 ^ 1) with (2 * P) by lia. now apply shr_1_inv.
Qed.

(** *** Rounding a mantissa to 53 bits *)

Lemma fexp_normal (e : Z) : -1021 <= e -> fexp prec emax e = e - 53.
Proof. unfold fexp, emin, prec, emax. lia. Qed.

(** A mantissa of at most 53 bits is left alone. *)
Lemma shr_fexp_short (m : positive) (e : Z) :
  Z.pos (digits2_pos m) <= 53 -> -1074 <= e ->
  shr_fexp prec emax (Z.pos m) e loc_Exact =
    ({| shr_m := Z.pos m; shr_r := false; shr_s := false |}, e).
Proof.
  intros Hd He. unfold shr_fexp, shr. cbn [Zdigits2 shr_record_of_loc].
  destruct (fexp prec emax (Z.pos (digits2_pos m) + e) - e) as [|p|p] eqn:E;
    try reflexivity.
  unfold fexp, emin, prec, emax in E. lia.
Qed.

(** A longer one is shifted right by the excess. *)
Lemma shr_fexp_long (m : positive) (e : Z) :
  53 < Z.pos (digits2_pos m) -> -1074 <= e ->
  shr_fexp prec emax (Z.pos m) e loc_Exact =
    (iter_pos shr_1 (Z.to_pos (Z.pos (digits2_pos m) - 53))
       {| shr_m := Z.pos m; shr_r := false; shr_s := false |},
     e + (Z.pos (digits2_pos m) - 53)).
Proof.
  intros Hd He. unfold shr_fexp, shr. cbn [Zdigits2 shr_record_of_loc].
  rewrite fexp_normal by lia.
  replace (Z.pos (digits2_pos m) + e - 53 - e)
    with (Z.pos (digits2_pos m) - 53) by lia.
  destruct (Z.pos (digits2_pos m) - 53) as [|p|p] eqn:E; try lia.
  reflexivity.
Qed.

(** [binary_round_aux] on an exact positive mantissa of at least 53 bits:
    the result is a normal number within half a unit in the last place, and
    the very number when the bits shifted out are zero. *)
Lemma binary_round_aux_correct (m : positive) (e : Z) :
  let n := Z.pos (digits2_pos m) - 53 in
  0 <= n -> -1074 <= e -> e + n < 971 ->
  exists (m' : positive) (e' : Z),
    binary_round_aux prec emax false (Z.pos m) e loc_Exact =
      S754_finite false m' e' /\
    2 ^ 52 <= Z.pos m' < 2 ^ 53 /\
    e + n <= e' <= e + n + 1 /\
    - 2 ^ (e' - e) <= 2 * (Z.pos m' * 2 ^ (e' - e) - Z.pos m)
      <= 2 ^ (e' - e) /\
    (Z.pos m mod 2 ^ n = 0 ->
     Z.pos m' * 2 ^ n = Z.pos m /\ e' = e + n).
Proof.
  intros n Hn He Hmax.
  pose proof (digits2_pos_bounds m) as Hm.
  unfold binary_round_aux.
  destruct (Z.eq_dec n 0) as [Hn0|Hn0].
  - (* exactly 53 bits *)
    assert (Hd : Z.pos (digits2_pos m) = 53) by lia.
    rewrite shr_fexp_short by lia. cbn [shr_m loc_of_shr_record
      round_nearest_even].
    rewrite shr_fexp_short by lia. cbn [shr_m].
    destruct (Z.leb_spec e (emax - prec)); [|unfold emax, prec in *; lia].
    exists m, e. rewrite Hd in Hm. change (53 - 1) with 52 in Hm.
    rewrite Hn0, Z.add_0_r, Z.sub_diag. cbn [Z.pow].
    repeat split; try lia.
  - (* more than 53 bits *)
    rewrite shr_fexp_long by lia. fold n.
    pose proof (iter_pos_shr_1_inv (Z.to_pos n) (Z.pos m) 1 _ Z.lt_0_1
                  (shr_inv_init (Z.pos m) (Pos2Z.is_nonneg m))) as Hinv.
    rewrite Z2Pos.id, Z.mul_1_l in Hinv by lia.
    set (mrs := iter_pos shr_1 (Z.to_pos n) _) in *.
    destruct Hinv as (rho & HM & Hq0 & Hrho & Hr0 & Hr1 & Hs0 & Hs1).
    pose proof (pow2_pos n ltac:(lia)) as HP.
    assert (Hsplit : 2 ^ Z.pos (digits2_pos m) = 2 ^ n * 2 ^ 53).
    { rewrite <- Z.pow_add_r by lia. f_equal. lia. }
    assert (Hsplit' : 2 ^ (Z.pos (digits2_pos m) - 1) = 2 ^ n * 2 ^ 52).
    { rewrite <- Z.pow_add_r by lia. f_equal. lia. }
    assert (Hrlt : rho < 2 ^ n).
    { destruct (shr_r mrs); [specialize (Hr1 eq_refl)|
                             specialize (Hr0 eq_refl)]; lia. }
    assert (Hq : 2 ^ 52 <= shr_m mrs < 2 ^ 53) by nia.
    set (q := round_nearest_even (shr_m mrs) (loc_of_shr_record mrs)).
    assert (Hq' : (q = shr_m mrs /\ 2 * rho <= 2 ^ n) \/
                  (q = shr_m mrs + 1 /\ 2 ^ n <= 2 * rho)).
    { unfold q, round_nearest_even, loc_of_shr_record.
      destruct mrs as [q0 [|] [|]]; cbn [shr_m shr_r shr_s] in *.
      - right. specialize (Hr1 eq_refl). lia.
      - specialize (Hr1 eq_refl). specialize (Hs1 eq_refl eq_refl).
        destruct (Z.even q0); [left|right]; lia.
      - left. specialize (Hr0 eq_refl). lia.
      - left. specialize (Hr0 eq_refl). lia. }
    assert (Hexact : Z.pos m mod 2 ^ n = 0 -> q = shr_m mrs /\ rho = 0).
    { intros Hmod.
      assert (rho = 0).
      { rewrite HM in Hmod.
        rewrite Z.add_comm, Z.mul_comm, Z.mod_add in Hmod by lia.
        rewrite Z.mod_small in Hmod by lia. exact Hmod. }
      split; [|assumption]. destruct Hq' as [[? _]|[_ ?]]; lia. }
    clearbody q.
    destruct (Z.eq_dec q (2 ^ 53)) as [Hcarry|Hcarry].
    + (* the increment carried into a 54th bit *)
      subst q. change (2 ^ 53) with (Z.pos (2 ^ 53)) at 1.
      rewrite shr_fexp_long; [|vm_compute; reflexivity|lia].
      change (Z.pos (digits2_pos (2 ^ 53)) - 53) with 1.
      cbn [Z.to_pos iter_pos]. 
      change (shr_1 {| shr_m := Z.pos (2 ^ 53); shr_r := false;
                       shr_s := false |})
        with {| shr_m := 2 ^ 52; shr_r := false; shr_s := false |}.
      cbn [shr_m]. change (2 ^ 52) with (Z.pos (2 ^ 52)) at 1.
      destruct (Z.leb_spec (e + n + 1) (emax - prec));
        [|unfold emax, prec in *; lia].
      exists (2 ^ 52)%positive, (e + n + 1).
      replace (e + n + 1 - e) with (n + 1) by lia.
      rewrite pow2_succ by lia.
      change (Z.pos (2 ^ 52)) with (2 ^ 52).
      destruct Hq' as [[? _]|[Hqq ?]]; [lia|].
      repeat split; try lia.
      all: try (intros Hmod; destruct (Hexact Hmod); lia).
    + destruct (shr_m mrs) as [|q0|q0] eqn:Eq0; try lia.
      assert (Hqpos : exists qp, q = Z.pos qp).
      { destruct q as [|qp|qp]; try lia. now exists qp. }
      destruct Hqpos as (qp & ->).
      assert (Hdq : Z.pos (digits2_pos qp) = 53).
      { apply digits2_pos_unique; [lia|].
        change (53 - 1) with 52. lia. }
      rewrite shr_fexp_short by lia. cbn [shr_m].
      destruct (Z.leb_spec (e + n) (emax - prec));
        [|unfold emax, prec in *; lia].
      exists qp, (e + n).
      replace (e + n - e) with n by lia.
      repeat split; try lia.
      all: try (intros Hmod; destruct (Hexact Hmod); lia).
Qed.

(** *** Positive normal numbers *)

Lemma binary_round_short (p : positive) (e : Z) :
  let k := 53 - Z.pos (digits2_pos p) in
  0 <= k -> -1021 <= e -> e < 971 ->
  exists m' : positive,
    binary_round prec emax false p e = S754_finite false m' (e - k) /\
    2 ^ 52 <= Z.pos m' < 2 ^ 53 /\
    Z.pos m' = Z.pos p * 2 ^ k.
Proof.
  intros k Hk He He'. unfold binary_round.
  pose proof (digits2_pos_bounds p) as Hp.
  rewrite fexp_normal by lia. unfold shl_align.
  replace (Z.pos (digits2_pos p) + e - 53 - e) with (- k) by lia.
  assert (Hres : forall mz : positive,
            Z.pos mz = Z.pos p * 2 ^ k ->
            exists m' : positive,
              binary_round_aux prec emax false (Z.pos mz) (e - k) loc_Exact =
                S754_finite false m' (e - k) /\
              2 ^ 52 <= Z.pos m' < 2 ^ 53 /\ Z.pos m' = Z.pos p * 2 ^ k).
  { intros mz Hmz.
    assert (Hb : 2 ^ 52 <= Z.pos mz < 2 ^ 53).
    { rewrite Hmz.
      replace (2 ^ 52) with (2 ^ (Z.pos (digits2_pos p) - 1) * 2 ^ k)
        by (rewrite <- Z.pow_add_r by lia; f_equal; lia).
      replace (2 ^ 53) with (2 ^ Z.pos (digits2_pos p) * 2 ^ k)
        by (rewrite <- Z.pow_add_r by lia; f_equal; lia).
      pose proof (pow2_pos k Hk). nia. }
    assert (Hd : Z.pos (digits2_pos mz) = 53)
      by (apply digits2_pos_unique; [lia|]; change (53 - 1) with 52; lia).
    pose proof (binary_round_aux_correct mz (e - k)) as Hc.
    cbv zeta in Hc. rewrite Hd in Hc. change (53 - 53) with 0 in Hc.
    specialize (Hc ltac:(lia) ltac:(lia) ltac:(lia)).
    destruct Hc as (m' & e' & Hr & Hm' & He'' & _ & Hex).
    destruct Hex as [Hex1 Hex2]; [apply Z.mod_1_r|].
    exists m'. rewrite Hr. replace e' with (e - k) by lia.
    split; [reflexivity|]. split; [assumption|]. lia. }
  destruct (- k) as [|q|q] eqn:Ek; try lia.
  - replace (e - k) with e in * by lia. apply Hres.
    replace k with 0 by lia. lia.
  - replace (Z.pos (digits2_pos p) + e - 53) with (e - k) by lia.
    apply Hres. rewrite iter_xO_pow2. f_equal. f_equal. lia.
Qed.

(** On 53 bits and more [binary_round] goes straight to the rounding. *)
Lemma binary_round_long (p : positive) (e : Z) :
  53 <= Z.pos (digits2_pos p) -> -1021 <= e ->
  binary_round prec emax false p e =
    binary_round_aux prec emax false (Z.pos p) e loc_Exact.
Proof.
  intros Hd He. unfold binary_round. rewrite fexp_normal by lia.
  unfold shl_align.
  destruct (Z.pos (digits2_pos p) + e - 53 - e) as [|q|q] eqn:E;
    try reflexivity; lia.
Qed.

(** Integers convert exactly. *)
Lemma represents_int (z : Z) :
  0 < z < 2 ^ 53 ->
  represents (binary_normalize prec emax z 0 false) (z * 2 ^ 53).
Proof.
  intros Hz. destruct z as [|p|p]; try lia. cbn [binary_normalize].
  pose proof (digits2_pos_bounds p) as Hp.
  assert (Hd : Z.pos (digits2_pos p) - 1 < 53)
    by (apply pow2_lt_inv; lia).
  destruct (binary_round_short p 0) as (m' & Hr & Hm' & Hv); try lia.
  exists m', (0 - (53 - Z.pos (digits2_pos p))).
  split; [exact Hr|]. split; [exact Hm'|]. split; [lia|].
  rewrite Hv, <- Z.mul_assoc, <- Z.pow_add_r by lia.
  f_equal. f_equal. lia.
Qed.

(** The value determines the number. *)
Lemma represents_unique (m : positive) (e : Z) (x : spec_float) :
  2 ^ 52 <= Z.pos m < 2 ^ 53 -> -53 <= e <= 0 ->
  represents x (Z.pos m * 2 ^ (e + 53)) ->
  x = S754_finite false m e.
Proof.
  intros Hm He (m' & e' & -> & Hm' & He' & Hv).
  assert (e = e').
  { destruct (Z.lt_trichotomy e e') as [Hlt|[Heq|Hgt]]; [|assumption|].
    - exfalso. replace (e' + 53) with (e + 53 + (e' - e)) in Hv by lia.
      rewrite (Z.pow_add_r 2 (e + 53) (e' - e)) in Hv by lia.
      pose proof (pow2_pos (e + 53) ltac:(lia)).
      pose proof (pow2_le 1 (e' - e) ltac:(lia)).
      assert (Z.pos m = Z.pos m' * 2 ^ (e' - e))
        by (apply Z.mul_reg_r with (2 ^ (e + 53)); [lia|rewrite Hv; ring]).
      change (2 ^ 1) with 2 in *. nia.
    - exfalso. replace (e + 53) with (e' + 53 + (e - e')) in Hv by lia.
      rewrite (Z.pow_add_r 2 (e' + 53) (e - e')) in Hv by lia.
      pose proof (pow2_pos (e' + 53) ltac:(lia)).
      pose proof (pow2_le 1 (e - e') ltac:(lia)).
      assert (Z.pos m' = Z.pos m * 2 ^ (e - e'))
        by (apply Z.mul_reg_r with (2 ^ (e' + 53)); [lia|rewrite <- Hv; ring]).
      change (2 ^ 1) with 2 in *. nia. }
  subst e'. pose proof (pow2_pos (e + 53) ltac:(lia)).
  assert (Z.pos m = Z.pos m') by (apply Z.mul_reg_r with (2 ^ (e + 53)); lia).
  congruence.
Qed.

(** *** Product and sum *)

Lemma represents_pos (x : spec_float) (v : Z) :
  represents x v -> 2 ^ 52 <= v < 2 ^ 106.
Proof.
  intros (m & e & _ & Hm & He & ->).
  pose proof (pow2_le 0 (e + 53) ltac:(lia)) as H0.
  pose proof (pow2_le (e + 53) 53 ltac:(lia)) as H1.
  change (2 ^ 0) with 1 in H0. change (2 ^ 106) with (2 ^ 53 * 2 ^ 53).
  nia.
Qed.

(** The product of two normal numbers is the exact product, rounded: the
    relative error is at most [2^-53]. *)
Lemma SFmul_represents (x y : spec_float) (vx vy : Z) :
  represents x vx -> represents y vy ->
  2 ^ 106 <= vx * vy < 2 ^ 158 ->
  exists v,
    represents (SFmul prec emax x y) v /\
    - v <= 2 ^ 53 * v - vx * vy <= v.
Proof.
  intros (mx & ex & -> & Hmx & Hex & ->) (my & ey & -> & Hmy & Hey & ->) Hv.
  cbn [SFmul xorb].
  set (p := (mx * my)%positive). set (e := ex + ey).
  assert (Hp : Z.pos p = Z.pos mx * Z.pos my) by reflexivity.
  assert (Hprod : Z.pos mx * 2 ^ (ex + 53) * (Z.pos my * 2 ^ (ey + 53)) =
                  Z.pos p * 2 ^ (e + 106)).
  { unfold e. replace (ex + ey + 106) with (ex + 53 + (ey + 53)) by lia.
    rewrite (Z.pow_add_r 2 (ex + 53) (ey + 53)) by lia. rewrite Hp. ring. }
  rewrite Hprod in *.
  pose proof (digits2_pos_bounds p) as Hd.
  set (d := Z.pos (digits2_pos p)) in *.
  pose proof (pow2_pos (e + 106) ltac:(lia)) as HQ.
  (* the size of the product fixes the exponent of the result *)
  assert (Hlow : 1 - e <= d).
  { assert (2 ^ (- e) < 2 ^ d); [|apply pow2_lt_inv in H; lia].
    apply Z.le_lt_trans with (Z.pos p); [|lia].
    apply Z.mul_le_mono_pos_r with (2 ^ (e + 106)); [lia|].
    rewrite <- Z.pow_add_r by lia.
    replace (- e + (e + 106)) with 106 by lia. lia. }
  assert (Hhigh : d <= 52 - e).
  { assert (2 ^ (d - 1) < 2 ^ (52 - e)); [|apply pow2_lt_inv in H; lia].
    apply Z.le_lt_trans with (Z.pos p); [lia|].
    apply Z.mul_lt_mono_pos_r with (2 ^ (e + 106)); [lia|].
    rewrite <- Z.pow_add_r by lia.
    replace (52 - e + (e + 106)) with 158 by lia. lia. }
  assert (Hd104 : 105 <= d).
  { assert (2 ^ 104 < 2 ^ d); [|apply pow2_lt_inv in H; lia].
    change (2 ^ 104) with (2 ^ 52 * 2 ^ 52). nia. }
  pose proof (binary_round_aux_correct p e) as Hc. cbv zeta in Hc.
  fold d in Hc.
  specialize (Hc ltac:(lia) ltac:(lia) ltac:(lia)).
  destruct Hc as (m' & e' & Hr & Hm' & He' & Herr & _).
  exists (Z.pos m' * 2 ^ (e' + 53)). split.
  - exists m', e'. repeat split; try assumption; lia.
  - pose proof (pow2_pos (e' - e) ltac:(lia)) as HP.
    replace (2 ^ 53 * (Z.pos m' * 2 ^ (e' + 53)))
      with (Z.pos m' * 2 ^ (e' - e) * 2 ^ (e + 106)).
    2:{ replace (Z.pos m' * 2 ^ (e' - e) * 2 ^ (e + 106))
          with (Z.pos m' * (2 ^ (e' - e) * 2 ^ (e + 106))) by ring.
        rewrite <- Z.pow_add_r by lia.
        replace (2 ^ 53 * (Z.pos m' * 2 ^ (e' + 53)))
          with (Z.pos m' * (2 ^ 53 * 2 ^ (e' + 53))) by ring.
        rewrite <- Z.pow_add_r by lia. f_equal. f_equal. lia. }
    assert (Hhalf : 2 ^ (e' - e) * 2 ^ (e + 106) <=
                    2 * (Z.pos m' * 2 ^ (e' + 53))).
    { rewrite <- Z.pow_add_r by lia.
      replace (e' - e + (e + 106)) with (53 + (e' + 53)) by lia.
      rewrite Z.pow_add_r by lia.
      pose proof (pow2_pos (e' + 53) ltac:(lia)).
      change (2 ^ 53) with (2 * 2 ^ 52). nia. }
    nia.
Qed.

(** When the exact product is itself a normal number, it is the result. *)
Lemma SFmul_exact (x y : spec_float) (vx vy : Z) (m : positive) (e0 : Z) :
  represents x vx -> represents y vy ->
  2 ^ 52 <= Z.pos m < 2 ^ 53 -> -53 <= e0 <= 0 ->
  vx * vy = 2 ^ 53 * (Z.pos m * 2 ^ (e0 + 53)) ->
  SFmul prec emax x y = S754_finite false m e0.
Proof.
  intros (mx & ex & -> & Hmx & Hex & ->) (my & ey & -> & Hmy & Hey & ->)
    Hm He0 Hv.
  cbn [SFmul xorb].
  set (p := (mx * my)%positive). set (e := ex + ey).
  assert (Hp : Z.pos p = Z.pos mx * Z.pos my) by reflexivity.
  assert (Hprod : Z.pos p * 2 ^ (e + 106) = Z.pos m * 2 ^ (e0 + 106)).
  { replace (2 ^ (e0 + 106)) with (2 ^ 53 * 2 ^ (e0 + 53))
      by (rewrite <- Z.pow_add_r by lia; f_equal; lia).
    unfold e. replace (ex + ey + 106) with (ex + 53 + (ey + 53)) by lia.
    rewrite (Z.pow_add_r 2 (ex + 53) (ey + 53)) by lia. rewrite Hp.
    replace (Z.pos m * (2 ^ 53 * 2 ^ (e0 + 53)))
      with (2 ^ 53 * (Z.pos m * 2 ^ (e0 + 53))) by ring.
    rewrite <- Hv. ring. }
  pose proof (pow2_pos (e + 106) ltac:(lia)) as HQ.
  assert (Hp104 : 2 ^ 104 <= Z.pos p)
    by (change (2 ^ 104) with (2 ^ 52 * 2 ^ 52); nia).
  assert (Hk : e <= e0).
  { destruct (Z.le_gt_cases e e0) as [|Hgt]; [assumption|exfalso].
    replace (e + 106) with (e0 + 106 + (e - e0)) in Hprod by lia.
    rewrite (Z.pow_add_r 2 (e0 + 106) (e - e0)) in Hprod by lia.
    pose proof (pow2_pos (e0 + 106) ltac:(lia)).
    pose proof (pow2_pos (e - e0) ltac:(lia)).
    assert (Z.pos m = Z.pos p * 2 ^ (e - e0))
      by (apply Z.mul_reg_r with (2 ^ (e0 + 106)); [lia|rewrite <- Hprod; ring]).
    change (2 ^ 104) with (2 ^ 51 * 2 ^ 53) in Hp104. nia. }
  set (k := e0 - e).
  assert (Hpk : Z.pos p = Z.pos m * 2 ^ k).
  { apply Z.mul_reg_r with (2 ^ (e + 106)); [lia|]. rewrite Hprod.
    rewrite <- Z.mul_assoc, <- Z.pow_add_r by (unfold k; lia).
    f_equal. f_equal. unfold k. lia. }
  pose proof (pow2_pos k ltac:(unfold k; lia)) as HK.
  assert (Hd : Z.pos (digits2_pos p) = 53 + k).
  { apply digits2_pos_unique; [unfold k; lia|]. rewrite Hpk.
    replace (53 + k - 1) with (52 + k) by lia.
    rewrite !Z.pow_add_r by (unfold k; lia). nia. }
  pose proof (binary_round_aux_correct p e) as Hc. cbv zeta in Hc.
  rewrite Hd in Hc. replace (53 + k - 53) with k in Hc by lia.
  specialize (Hc ltac:(unfold k; lia) ltac:(lia) ltac:(unfold k; lia)).
  destruct Hc as (m' & e' & Hr & Hm' & He' & _ & Hexact).
  destruct Hexact as [Hex1 Hex2].
  { rewrite Hpk. apply Z.mod_mul. lia. }
  rewrite Hr. f_equal.
  - assert (Z.pos m' = Z.pos m)
      by (apply Z.mul_reg_r with (2 ^ k); lia).
    congruence.
  - unfold k in *. lia.
Qed.

Lemma shl_align_fst (m : positive) (e ez : Z) :
  ez <= e -> Z.pos (fst (shl_align m e ez)) = Z.pos m * 2 ^ (e - ez).
Proof.
  intros H. unfold shl_align.
  destruct (ez - e) as [|q|q] eqn:E; cbn [fst]; try lia.
  - replace (e - ez) with 0 by lia. cbn. lia.
  - rewrite iter_xO_pow2. f_equal. f_equal. lia.
Qed.

(** The sum of two normal numbers is the exact sum, rounded. *)
Lemma SFadd_represents (x y : spec_float) (vx vy : Z) :
  represents x vx -> represents y vy ->
  vx + vy < 2 ^ 105 ->
  exists v,
    represents (SFadd prec emax x y) v /\
    - v <= 2 ^ 53 * (v - (vx + vy)) <= v.
Proof.
  intros (mx & ex & -> & Hmx & Hex & ->) (my & ey & -> & Hmy & Hey & ->) Hv.
  cbn [SFadd cond_Zopp].
  set (ez := Z.min ex ey).
  pose proof (shl_align_fst mx ex ez ltac:(unfold ez; lia)) as Hax.
  pose proof (shl_align_fst my ey ez ltac:(unfold ez; lia)) as Hay.
  set (ax := fst (shl_align mx ex ez)) in *.
  set (ay := fst (shl_align my ey ez)) in *.
  cbn [Z.add binary_normalize].
  set (s := (ax + ay)%positive).
  assert (Hs : Z.pos s = Z.pos ax + Z.pos ay) by reflexivity.
  pose proof (pow2_pos (ex - ez) ltac:(unfold ez; lia)) as HPx.
  pose proof (pow2_pos (ey - ez) ltac:(unfold ez; lia)) as HPy.
  pose proof (pow2_pos (ez + 53) ltac:(unfold ez; lia)) as HQ.
  assert (Hsum : Z.pos mx * 2 ^ (ex + 53) + Z.pos my * 2 ^ (ey + 53) =
                 Z.pos s * 2 ^ (ez + 53)).
  { rewrite Hs, Hax, Hay.
    replace (ex + 53) with (ex - ez + (ez + 53)) by lia.
    replace (ey + 53) with (ey - ez + (ez + 53)) by lia.
    rewrite (Z.pow_add_r 2 (ex - ez) (ez + 53)) by (unfold ez; lia).
    rewrite (Z.pow_add_r 2 (ey - ez) (ez + 53)) by (unfold ez; lia).
    ring. }
  rewrite Hsum in *.
  pose proof (digits2_pos_bounds s) as Hd.
  set (d := Z.pos (digits2_pos s)) in *.
  assert (Hs53 : 2 ^ 53 <= Z.pos s)
    by (change (2 ^ 53) with (2 ^ 52 + 2 ^ 52); nia).
  assert (Hd54 : 54 <= d).
  { assert (2 ^ 53 < 2 ^ d); [|apply pow2_lt_inv in H; lia]. lia. }
  assert (Hhigh : d <= 52 - ez).
  { assert (2 ^ (d - 1) < 2 ^ (52 - ez)); [|apply pow2_lt_inv in H; unfold ez in *; lia].
    apply Z.le_lt_trans with (Z.pos s); [lia|].
    apply Z.mul_lt_mono_pos_r with (2 ^ (ez + 53)); [lia|].
    rewrite <- Z.pow_add_r by (unfold ez; lia).
    replace (52 - ez + (ez + 53)) with 105 by lia. lia. }
  rewrite binary_round_long by (fold d; unfold ez; lia).
  pose proof (binary_round_aux_correct s ez) as Hc. cbv zeta in Hc.
  fold d in Hc.
  specialize (Hc ltac:(lia) ltac:(unfold ez; lia) ltac:(lia)).
  destruct Hc as (m' & e' & Hr & Hm' & He' & Herr & _).
  assert (Hez : -53 <= ez <= 0) by (unfold ez; lia).
  exists (Z.pos m' * 2 ^ (e' + 53)). split.
  - exists m', e'. repeat split; try assumption; lia.
  - pose proof (pow2_pos (e' - ez) ltac:(lia)) as HP.
    replace (Z.pos m' * 2 ^ (e' + 53))
      with (Z.pos m' * 2 ^ (e' - ez) * 2 ^ (ez + 53)).
    2:{ rewrite <- Z.mul_assoc, <- Z.pow_add_r by lia.
        f_equal. f_equal. lia. }
    assert (Hhalf : 2 ^ 53 * (2 ^ (e' - ez) * 2 ^ (ez + 53)) <=
                    2 * (Z.pos m' * 2 ^ (e' - ez) * 2 ^ (ez + 53))).
    { change (2 ^ 53) with (2 * 2 ^ 52). nia. }
    nia.
Qed.

(** *** Division by 512, comparison, truncation *)

(** Dividing a normal number by [512.0] lowers the exponent by nine. *)
Lemma SFdiv_512 (m : positive) (e : Z) :
  2 ^ 52 <= Z.pos m < 2 ^ 53 -> -44 <= e <= 0 ->
  SFdiv prec emax (S754_finite false m e)
    (S754_finite false 4503599627370496 (-43)) =
    S754_finite false m (e - 9).
Proof.
  intros Hm He. cbn [SFdiv xorb]. unfold SFdiv_core_binary.
  cbn [Zdigits2].
  assert (Hd : Z.pos (digits2_pos m) = 53)
    by (apply digits2_pos_unique; [lia|]; change (53 - 1) with 52; lia).
  rewrite Hd. change (Z.pos (digits2_pos 4503599627370496)) with 53.
  replace (53 + e - (53 + -43)) with (e + 43) by lia.
  rewrite fexp_normal by lia.
  replace (Z.min (e + 43 - 53) (e - -43)) with (e - 10) by lia.
  replace (e - -43 - (e - 10)) with 53 by lia.
  cbv iota.
  assert (Hdiv : Z.div_eucl (Z.shiftl (Z.pos m) 53) 4503599627370496 =
                 (Z.pos m~0, 0)).
  { rewrite Z.shiftl_mul_pow2 by lia.
    pose proof (Z_div_mod (Z.pos m * 2 ^ 53) 4503599627370496 eq_refl) as H.
    destruct (Z.div_eucl (Z.pos m * 2 ^ 53) 4503599627370496) as [q r].
    change (2 ^ 53) with 9007199254740992 in H.
    f_equal; lia. }
  rewrite Hdiv. change (new_location 4503599627370496 0) with loc_Exact.
  pose proof (binary_round_aux_correct m~0 (e - 10)) as Hc.
  cbv zeta in Hc. cbn [digits2_pos] in Hc.
  rewrite Pos2Z.inj_succ, Hd in Hc. change (Z.succ 53 - 53) with 1 in Hc.
  specialize (Hc ltac:(lia) ltac:(lia) ltac:(lia)).
  destruct Hc as (m' & e' & Hr & _ & _ & _ & Hex).
  destruct Hex as [Hex1 Hex2].
  { change (2 ^ 1) with 2. rewrite Pos2Z.inj_xO, Z.mul_comm.
    apply Z.mod_mul. lia. }
  rewrite Hr. f_equal; [|lia].
  change (2 ^ 1) with 2 in Hex1. rewrite (Pos2Z.inj_xO m) in Hex1.
  assert (Z.pos m' = Z.pos m) by lia. congruence.
Qed.

(** The constants of the file, as binary64 numbers. *)
Lemma Prim2SF_minus_one :
  Prim2SF (-1) = S754_finite true 4503599627370496 (-52).
Proof. vm_compute. reflexivity. Qed.

Lemma Prim2SF_two32 :
  Prim2SF 4294967296 = S754_finite false 4503599627370496 (-20).
Proof. vm_compute. reflexivity. Qed.

Lemma Prim2SF_512 :
  Prim2SF 512 = S754_finite false 4503599627370496 (-43).
Proof. vm_compute. reflexivity. Qed.

Lemma Prim2SF_half :
  Prim2SF 0.5 = S754_finite false 4503599627370496 (-53).
Proof. vm_compute. reflexivity. Qed.

Lemma Prim2SF_1_08 :
  Prim2SF double_1_08 = S754_finite false 4863887597560136 (-52).
Proof. vm_compute. reflexivity. Qed.

(** A normal number is above [-1], and below [2^32] when its exponent
    says so. *)
Lemma SFltb_minus_one (d : float) (m : positive) (e : Z) :
  Prim2SF d = S754_finite false m e -> (-1 <? d)%float = true.
Proof.
  intros H. rewrite FloatAxioms.ltb_spec, H, Prim2SF_minus_one.
  reflexivity.
Qed.

Lemma SFltb_two32 (d : float) (m : positive) (e : Z) :
  Prim2SF d = S754_finite false m e ->
  2 ^ 52 <= Z.pos m ->
  (d <? 4294967296)%float = (e <? -20).
Proof.
  intros H Hm. rewrite FloatAxioms.ltb_spec, H, Prim2SF_two32.
  set (C := 4503599627370496%positive).
  assert (HC : Z.pos C = 2 ^ 52) by (vm_compute; reflexivity).
  clearbody C.
  unfold SFltb, SFcompare, Z.ltb.
  destruct (e ?= -20) eqn:E; try reflexivity.
  destruct (Pos.compare_cont Eq m C) eqn:E2; try reflexivity.
  change (Pos.compare_cont Eq m C) with (Pos.compare m C) in E2.
  apply Pos.compare_lt_iff in E2. change (Z.pos m < Z.pos C) in E2. lia.
Qed.

(** The conversion to [uint32_t] of a normal number. *)
Lemma to_uint32_finite (d : float) (m : positive) (e : Z) :
  Prim2SF d = S754_finite false m e ->
  2 ^ 52 <= Z.pos m -> e <= 0 ->
  Double.to_uint32 d =
    if e <? -20 then Some (Z.pos m / 2 ^ (- e)) else None.
Proof.
  intros H Hm He. unfold Double.to_uint32, Double.fits_uint32.
  rewrite (SFltb_minus_one d m e H), (SFltb_two32 d m e H Hm).
  cbn [andb]. rewrite H. cbn [Double.SFtrunc].
  rewrite Z.shiftl_div_pow2 by lia. reflexivity.
Qed.

Lemma to_uint32_represents (d : float) (v : Z) :
  represents (Prim2SF d) v ->
  Double.to_uint32 d =
    if v <? 2 ^ 85 then Some (v / 2 ^ 53) else None.
Proof.
  intros (m & e & H & Hm & He & ->).
  rewrite (to_uint32_finite d m e H) by lia.
  pose proof (pow2_pos (e + 53) ltac:(lia)) as HQ.
  assert (Hdiv : Z.pos m * 2 ^ (e + 53) / 2 ^ 53 = Z.pos m / 2 ^ (- e)).
  { replace (2 ^ 53) with (2 ^ (- e) * 2 ^ (e + 53))
      by (rewrite <- Z.pow_add_r by lia; f_equal; lia).
    apply Z.div_mul_cancel_r; [|lia].
    pose proof (pow2_pos (- e) ltac:(lia)). lia. }
  rewrite Hdiv.
  destruct (Z.ltb_spec e (-20)); destruct (Z.ltb_spec (Z.pos m * 2 ^ (e + 53)) (2 ^ 85));
    try reflexivity; exfalso.
  - pose proof (pow2_le (e + 53) 32 ltac:(lia)).
    change (2 ^ 85) with (2 ^ 53 * 2 ^ 32) in *. nia.
  - pose proof (pow2_le 33 (e + 53) ltac:(lia)).
    change (2 ^ 85) with (2 ^ 52 * 2 ^ 33) in *. nia.
Qed.

(** A zero converts to zero. *)
Lemma to_uint32_zero (d : float) (s : bool) :
  Prim2SF d = S754_zero s -> Double.to_uint32 d = Some 0.
Proof.
  intros H. unfold Double.to_uint32, Double.fits_uint32.
  rewrite !FloatAxioms.ltb_spec, H, Prim2SF_minus_one, Prim2SF_two32.
  destruct s; reflexivity.
Qed.

(** *** The conversions from integers *)

Lemma Prim2SF_of_int (z : Z) :
  0 <= z < 2 ^ 63 ->
  Prim2SF (Double.of_int z) = binary_normalize prec emax z 0 false.
Proof.
  intros Hz. unfold Double.of_int.
  rewrite of_uint63_spec, Uint63.of_Z_spec.
  rewrite Z.mod_small; [reflexivity|].
  change wB with (2 ^ 63). lia.
Qed.

Lemma represents_of_int (z : Z) :
  0 < z < 2 ^ 53 -> represents (Prim2SF (Double.of_int z)) (z * 2 ^ 53).
Proof.
  intros Hz. rewrite Prim2SF_of_int by lia. now apply represents_int.
Qed.

(** ** The two rate formulas in integers *)

Lemma Prim2SF_of_int_0 : Prim2SF (Double.of_int 0) = S754_zero false.
Proof. vm_compute. reflexivity. Qed.

(** The multiplicative decrease is exact: the product of a 32-bit rate and
    a factor of at most 512 fits the 53 bits of a [double], and [512.0] is a
    power of two. *)
Lemma DecreasedBitrate_eq (bitrate loss : Z) :
  is_uint32 bitrate -> is_uint8 loss ->
  DecreasedBitrate bitrate loss = Some (bitrate * (512 - loss) / 512).
Proof.
  unfold is_uint32, is_uint8, DecreasedBitrate. intros Hb Hl.
  set (k := 512 - loss). assert (Hk : 257 <= k <= 512) by (unfold k; lia).
  pose proof (represents_of_int k ltac:(lia)) as HK.
  destruct (Z.eq_dec bitrate 0) as [->|Hb0].
  - (* a zero rate stays zero *)
    rewrite Z.mul_0_l. change (0 / 512) with 0.
    apply (to_uint32_zero _ false).
    rewrite FloatAxioms.div_spec, FloatAxioms.mul_spec, Prim2SF_of_int_0, Prim2SF_512.
    destruct HK as (m & e & -> & _). reflexivity.
  - pose proof (represents_of_int bitrate ltac:(lia)) as HB.
    assert (Hbk : 257 <= bitrate * k < 2 ^ 41)
      by (change (2 ^ 41) with (4294967296 * 512); nia).
    destruct (represents_int (bitrate * k) ltac:(lia))
      as (m & e & _ & Hm & He & Hv).
    pose proof (pow2_pos (e + 53) ltac:(lia)) as HQ.
    assert (Hmul : Prim2SF (Double.of_int bitrate * Double.of_int k) =
                   S754_finite false m e).
    { rewrite FloatAxioms.mul_spec.
      apply (SFmul_exact _ _ _ _ m e HB HK Hm He).
      rewrite <- Hv. ring. }
    (* the exponent of the product lies between 2^8 and 2^41 *)
    assert (He44 : -44 <= e).
    { destruct (Z.le_gt_cases (-44) e) as [|Hlt]; [assumption|exfalso].
      pose proof (pow2_le (e + 53) 8 ltac:(lia)).
      change (2 ^ 8) with 256 in *. change (2 ^ 53) with 9007199254740992 in *.
      nia. }
    assert (He11 : e < -11).
    { destruct (Z.lt_ge_cases e (-11)) as [|Hge]; [assumption|exfalso].
      pose proof (pow2_le 42 (e + 53) ltac:(lia)).
      change (2 ^ 41) with 2199023255552 in *.
      change (2 ^ 42) with 4398046511104 in *.
      change (2 ^ 52) with 4503599627370496 in *.
      change (2 ^ 53) with 9007199254740992 in *. nia. }
    assert (Hdiv : Prim2SF (Double.of_int bitrate * Double.of_int k / 512) =
                   S754_finite false m (e - 9)).
    { rewrite FloatAxioms.div_spec, Hmul, Prim2SF_512. apply SFdiv_512; lia. }
    rewrite (to_uint32_finite _ m (e - 9) Hdiv) by lia.
    destruct (Z.ltb_spec (e - 9) (-20)); [|lia].
    f_equal.
    assert (Hm' : Z.pos m = bitrate * k * 2 ^ (- e)).
    { apply Z.mul_reg_r with (2 ^ (e + 53)); [lia|].
      rewrite <- Hv.
      replace (2 ^ 53) with (2 ^ (- e) * 2 ^ (e + 53))
        by (rewrite <- Z.pow_add_r by lia; f_equal; lia).
      ring. }
    rewrite Hm'. replace (- (e - 9)) with (9 + - e) by lia.
    rewrite Z.pow_add_r by lia. change (2 ^ 9) with 512.
    pose proof (pow2_pos (- e) ltac:(lia)).
    apply Z.div_mul_cancel_r; lia.
Qed.

(** The increase: the two roundings of [bitrate * 1.08 + 0.5] are too small
    to move the sum across an integer, so the conversion yields the nearest
    integer to [1.08 * bitrate], when that is a [uint32_t]. *)
Lemma IncreasedBitrate_eq (bitrate : Z) :
  is_uint32 bitrate ->
  IncreasedBitrate bitrate =
    if (108 * bitrate + 50) / 100 <? 4294967296
    then Some ((108 * bitrate + 50) / 100) else None.
Proof.
  unfold is_uint32, IncreasedBitrate. intros Hb.
  destruct (Z.eq_dec bitrate 0) as [->|Hb0].
  - assert (H : Prim2SF (Double.of_int 0 * double_1_08 + 0.5) =
                S754_finite false 4503599627370496 (-53))
      by (vm_compute; reflexivity).
    rewrite (to_uint32_finite _ _ _ H) by (vm_compute; discriminate).
    reflexivity.
  - pose proof (represents_of_int bitrate ltac:(lia)) as HB.
    assert (HC : represents (Prim2SF double_1_08) (2 * 4863887597560136)).
    { rewrite Prim2SF_1_08. exists 4863887597560136%positive, (-52).
      repeat split; try lia; vm_compute; congruence. }
    assert (HH : represents (Prim2SF 0.5) (2 ^ 52)).
    { rewrite Prim2SF_half. exists 4503599627370496%positive, (-53).
      repeat split; try lia; vm_compute; congruence. }
    destruct (SFmul_represents _ _ _ _ HB HC) as (v1 & Hv1 & Herr1).
    { change (2 ^ 106) with (2 ^ 53 * 2 ^ 53).
      change (2 ^ 158) with (2 ^ 53 * 2 ^ 105).
      change (2 ^ 105) with 40564819207303340847894502572032.
      change (2 ^ 53) with 9007199254740992. lia. }
    rewrite <- FloatAxioms.mul_spec in Hv1.
    change (2 ^ 53) with 9007199254740992 in Herr1.
    destruct (SFadd_represents _ _ _ _ Hv1 HH) as (v2 & Hv2 & Herr2).
    { change (2 ^ 105) with 40564819207303340847894502572032.
      change (2 ^ 52) with 4503599627370496. lia. }
    rewrite <- FloatAxioms.add_spec in Hv2.
    change (2 ^ 53) with 9007199254740992 in Herr2.
    change (2 ^ 52) with 4503599627370496 in Herr2.
    rewrite (to_uint32_represents _ v2 Hv2).
    change (2 ^ 53) with 9007199254740992.
    change (2 ^ 85) with (4294967296 * 9007199254740992).
    set (T := (108 * bitrate + 50) / 100).
    pose proof (Z.div_mod (108 * bitrate + 50) 100 ltac:(lia)) as HT.
    pose proof (Z.mod_pos_bound (108 * bitrate + 50) 100 ltac:(lia)) as HR.
    fold T in HT.
    set (r := (108 * bitrate + 50) mod 100) in *.
    assert (Hv2T : v2 / 9007199254740992 = T).
    { symmetry. apply Z.div_unique with (v2 - 9007199254740992 * T); lia. }
    rewrite Hv2T.
    destruct (Z.ltb_spec T 4294967296);
      destruct (Z.ltb_spec v2 (4294967296 * 9007199254740992));
      try reflexivity; exfalso.
    + pose proof (Z.div_le_mono _ _ 9007199254740992 ltac:(lia) H0) as Hmono.
      rewrite Z.div_mul in Hmono by lia. lia.
    + assert (v2 / 9007199254740992 < 4294967296)
        by (apply Z.div_lt_upper_bound; lia).
      lia.
Qed.

(** ** The conversion to [uint32_t] yields a [uint32_t] *)

Lemma Prim2SF_canonical (d : float) (m : positive) (e : Z) (s : bool) :
  Prim2SF d = S754_finite s m e ->
  (Z.pos (digits2_pos m) = 53 /\ -1074 <= e) \/
  (Z.pos (digits2_pos m) <= 53 /\ e = -1074).
Proof.
  intros H. pose proof (Prim2SF_valid d) as Hv. rewrite H in Hv.
  cbn [SpecFloat.valid_binary] in Hv. unfold bounded in Hv.
  apply andb_true_iff in Hv as [Hc _].
  unfold canonical_mantissa in Hc. apply Z.eqb_eq in Hc.
  unfold fexp, emin, prec, emax in Hc. lia.
Qed.

Lemma SFtrunc_above_minus_one (m C : positive) (e : Z) :
  Z.pos C = 2 ^ 52 ->
  Z.pos (digits2_pos m) <= 53 ->
  SFltb (S754_finite true C (-52)) (S754_finite true m e) = true ->
  Z.shiftl (Z.pos m) e = 0.
Proof.
  intros HC Hd. pose proof (digits2_pos_bounds m) as Hm.
  unfold SFltb, SFcompare.
  destruct (Z.compare_spec (-52) e) as [<-|Hlt|Hgt]; try discriminate.
  - change (Pos.compare_cont Eq C m) with (Pos.compare C m).
    destruct (Pos.compare_spec C m) as [?|?|Hcm]; try discriminate.
    intros _. change (Z.pos m < Z.pos C) in Hcm.
    rewrite Z.shiftl_div_pow2 by lia.
    apply Z.div_small. change (- -52) with 52. lia.
  - intros _. rewrite Z.shiftl_div_pow2 by lia. apply Z.div_small.
    pose proof (pow2_le (Z.pos (digits2_pos m)) (- e) ltac:(lia)). lia.
Qed.

Lemma SFtrunc_below_two32 (m C : positive) (e : Z) :
  Z.pos C = 2 ^ 52 ->
  Z.pos (digits2_pos m) <= 53 ->
  SFltb (S754_finite false m e) (S754_finite false C (-20)) = true ->
  0 <= Z.shiftl (Z.pos m) e < 4294967296.
Proof.
  intros HC Hd. pose proof (digits2_pos_bounds m) as Hm.
  unfold SFltb, SFcompare.
  destruct (Z.compare_spec e (-20)) as [->|Hlt|Hgt]; try discriminate.
  - change (Pos.compare_cont Eq m C) with (Pos.compare m C).
    destruct (Pos.compare_spec m C) as [?|Hcm|?]; try discriminate.
    intros _. change (Z.pos m < Z.pos C) in Hcm.
    rewrite Z.shiftl_div_pow2 by lia. change (- -20) with 20.
    split; [apply Z.div_pos; lia|].
    apply Z.div_lt_upper_bound; [lia|].
    change (2 ^ 52) with 4503599627370496 in *. lia.
  - intros _. rewrite Z.shiftl_div_pow2 by lia.
    pose proof (pow2_pos (- e) ltac:(lia)).
    split; [apply Z.div_pos; lia|].
    apply Z.div_lt_upper_bound; [lia|].
    pose proof (pow2_le 21 (- e) ltac:(lia)).
    pose proof (pow2_le (Z.pos (digits2_pos m)) 53 ltac:(lia)).
    change (2 ^ 21) with 2097152 in *.
    change (2 ^ 53) with 9007199254740992 in *. nia.
Qed.

Lemma to_uint32_range (d : float) (t : Z) :
  Double.to_uint32 d = Some t -> is_uint32 t.
Proof.
  unfold Double.to_uint32, Double.fits_uint32, is_uint32.
  destruct ((-1 <? d)%float && (d <? 4294967296)%float) eqn:Hfit;
    [|discriminate].
  intros Ht. injection Ht as <-.
  apply andb_true_iff in Hfit as [Hlo Hhi].
  rewrite FloatAxioms.ltb_spec, Prim2SF_minus_one in Hlo.
  rewrite FloatAxioms.ltb_spec, Prim2SF_two32 in Hhi.
  destruct (Prim2SF d) as [s|s| |s m e] eqn:E.
  - cbn. lia.
  - cbn. lia.
  - cbn. lia.
  - assert (Hd : Z.pos (digits2_pos m) <= 53)
      by (destruct (Prim2SF_canonical d m e s E); lia).
    destruct s; cbn [Double.SFtrunc].
    + rewrite (SFtrunc_above_minus_one m _ e eq_refl Hd Hlo). lia.
    + exact (SFtrunc_below_two32 m _ e eq_refl Hd Hhi).
Qed.


(** ** [CalcTfrcBps] never leaves [uint32_t] and computes the specified
    value *)

Lemma TfrcBitsPerSecond_terms (rtt loss : float) :
  TfrcBitsPerSecond rtt loss =
    (Double.of_int kAvgPacketSizeBytes /
     TfrcDenominator (TfrcLossTerm1 loss) (TfrcLossTerm2 loss) rtt * 8)%float.
Proof. reflexivity. Qed.

Lemma spec_tfrc_bps_terms (rtt loss : float) :
  spec_tfrc_bps rtt loss =
    (8000 / TfrcDenominator (TfrcLossTerm1 loss) (spec_loss_term2 loss) rtt)
      %float.
Proof. reflexivity. Qed.

Lemma to_Z_succ (i : int) :
  Uint63.to_Z i < 2 ^ 62 ->
  Uint63.to_Z (i + 1)%uint63 = Uint63.to_Z i + 1.
Proof.
  intros Hi. pose proof (Uint63.to_Z_bounded i) as Hbi.
  rewrite Uint63.add_spec. change (Uint63.to_Z 1) with 1.
  apply Z.mod_small. change wB with (2 ^ 63).
  change (2 ^ 62) with 4611686018427387904 in Hi.
  change (2 ^ 63) with 9223372036854775808. lia.
Qed.

Lemma tfrc_check_rtts_sound (n : nat) (s s8 term1 term2 : float) :
  forall i : int,
    tfrc_check_rtts n i s s8 term1 term2 = true ->
    Uint63.to_Z i + Z.of_nat n < 2 ^ 62 ->
    forall j : int,
      Uint63.to_Z i <= Uint63.to_Z j < Uint63.to_Z i + Z.of_nat n ->
      tfrc_check s s8 term1 term2 (PrimFloat.of_uint63 j) = true.
Proof.
  induction n as [|n IH]; intros i Hfit Hno j Hj.
  - cbn in Hj. lia.
  - cbn [tfrc_check_rtts] in Hfit.
    apply andb_true_iff in Hfit as [Hi Hrest].
    destruct (Z.eq_dec (Uint63.to_Z j) (Uint63.to_Z i)) as [Heq|Hne].
    + apply Uint63.to_Z_inj in Heq. now subst j.
    + pose proof (to_Z_succ i ltac:(lia)) as Hsucc.
      apply (IH (i + 1)%uint63 Hrest); rewrite Hsucc; lia.
Qed.

Lemma tfrc_check_losses_sound (n : nat) :
  forall i : int,
    tfrc_check_losses n i = true ->
    Uint63.to_Z i + Z.of_nat n < 2 ^ 62 ->
    forall l r : int,
      Uint63.to_Z i <= Uint63.to_Z l < Uint63.to_Z i + Z.of_nat n ->
      1 <= Uint63.to_Z r <= 65535 ->
      Double.fits_uint32
        (TfrcBitsPerSecond (PrimFloat.of_uint63 r) (PrimFloat.of_uint63 l)) =
        true /\
      spec_tfrc_bps (PrimFloat.of_uint63 r) (PrimFloat.of_uint63 l) =
        TfrcBitsPerSecond (PrimFloat.of_uint63 r) (PrimFloat.of_uint63 l).
Proof.
  induction n as [|n IH]; intros i Hfit Hno l r Hl Hr.
  - cbn in Hl. lia.
  - cbn [tfrc_check_losses] in Hfit. cbv zeta in Hfit.
    apply andb_true_iff in Hfit as [Hi Hrest].
    apply andb_true_iff in Hi as [Hterm Hi].
    destruct (Z.eq_dec (Uint63.to_Z l) (Uint63.to_Z i)) as [Heq|Hne].
    + apply Uint63.to_Z_inj in Heq. subst l.
      apply FloatAxioms.Leibniz.eqb_spec in Hterm.
      rewrite TfrcBitsPerSecond_terms, spec_tfrc_bps_terms, <- Hterm.
      pose proof (tfrc_check_rtts_sound _ _ _ _ _ 1%uint63 Hi) as Hc.
      rewrite Z2Nat.id in Hc by lia. change (Uint63.to_Z 1) with 1 in Hc.
      specialize (Hc ltac:(vm_compute; reflexivity) r ltac:(lia)).
      unfold tfrc_check in Hc. cbv zeta in Hc.
      apply andb_true_iff in Hc as [Hfits Heq].
      apply FloatAxioms.Leibniz.eqb_spec in Heq.
      split; [exact Hfits|]. symmetry. exact Heq.
    + pose proof (to_Z_succ i ltac:(lia)) as Hsucc.
      apply (IH (i + 1)%uint63 Hrest); try rewrite Hsucc; lia.
Qed.

(** The check itself: all 65535 * 255 inputs outside the early return. *)
Lemma tfrc_check_everywhere :
  tfrc_check_losses (Z.to_nat 255) 1%uint63 = true.
Proof. vm_cast_no_check (eq_refl true). Qed.

Lemma of_Z_to_Z_small (z : Z) :
  0 <= z < 2 ^ 62 -> Uint63.to_Z (Uint63.of_Z z) = z.
Proof.
  intros Hz. rewrite Uint63.of_Z_spec. apply Z.mod_small.
  change wB with (2 ^ 63). change (2 ^ 62) with 4611686018427387904 in Hz.
  change (2 ^ 63) with 9223372036854775808. lia.
Qed.

Lemma TfrcBitsPerSecond_checked (rtt loss : Z) :
  1 <= rtt <= 65535 -> 1 <= loss <= 255 ->
  Double.fits_uint32
    (TfrcBitsPerSecond (Double.of_int rtt) (Double.of_int loss)) = true /\
  spec_tfrc_bps (Double.of_int rtt) (Double.of_int loss) =
    TfrcBitsPerSecond (Double.of_int rtt) (Double.of_int loss).
Proof.
  intros Hr Hl. unfold Double.of_int.
  apply (tfrc_check_losses_sound _ 1%uint63 tfrc_check_everywhere).
  - vm_compute. reflexivity.
  - rewrite of_Z_to_Z_small
      by (change (2 ^ 62) with 4611686018427387904; lia).
    rewrite Z2Nat.id by lia. change (Uint63.to_Z 1) with 1. lia.
  - rewrite of_Z_to_Z_small
      by (change (2 ^ 62) with 4611686018427387904; lia).
    lia.
Qed.

Lemma CalcTfrcBps_defined (rtt loss : Z) :
  is_uint16 rtt -> is_uint8 loss ->
  exists tfrc, CalcTfrcBps rtt loss = Some tfrc /\ is_uint32 tfrc.
Proof.
  unfold is_uint16, is_uint8, CalcTfrcBps. intros Hr Hl.
  destruct (Z.eqb_spec rtt 0) as [|Hr0];
    [exists 0; split; [reflexivity|unfold is_uint32; lia]|].
  destruct (Z.eqb_spec loss 0) as [|Hl0];
    [exists 0; split; [reflexivity|unfold is_uint32; lia]|].
  cbn [orb].
  destruct (TfrcBitsPerSecond_checked rtt loss) as [Hfit _]; try lia.
  destruct (Double.to_uint32 _) as [t|] eqn:E.
  - exists t. split; [reflexivity|]. exact (to_uint32_range _ _ E).
  - unfold Double.to_uint32 in E. rewrite Hfit in E. discriminate.
Qed.

(** ** Every call keeps the members inside their types *)

Lemma to_uint32_is_uint32 (z : Z) : is_uint32 (to_uint32 z).
Proof. unfold is_uint32, to_uint32. apply Z.mod_pos_bound. lia. Qed.

Lemma to_uint32_small (z : Z) : is_uint32 z -> to_uint32 z = z.
Proof. unfold is_uint32, to_uint32. intros. now apply Z.mod_small. Qed.

Lemma CapBitrateToThresholds_ok (s : state) :
  state_ok s -> state_ok (fst (CapBitrateToThresholds s)).
Proof.
  intros [? ? ? ? ? ? ? ? ? ?]. rewrite CapBitrateToThresholds_eq.
  unfold capped_to_max, capped_to_estimate.
  constructor; simpl_state; try assumption.
  unfold is_uint32 in *.
  destruct (Z.ltb_spec 0 (bwe_incoming_ s)); lia.
Qed.

Lemma IncreasedBitrate_some (bitrate b : Z) :
  is_uint32 bitrate ->
  IncreasedBitrate bitrate = Some b ->
  b = round_1_08 bitrate /\ is_uint32 b.
Proof.
  intros Hb. rewrite (IncreasedBitrate_eq bitrate Hb). fold (round_1_08 bitrate).
  destruct (Z.ltb_spec (round_1_08 bitrate) 4294967296); [|discriminate].
  intros Hres. injection Hres as <-. split; [reflexivity|].
  unfold is_uint32, round_1_08 in *. split; [|assumption].
  apply Z.div_pos; lia.
Qed.

Lemma decreased_is_uint32 (bitrate loss : Z) :
  is_uint32 bitrate -> is_uint8 loss ->
  is_uint32 (bitrate * (512 - loss) / 512).
Proof.
  unfold is_uint32, is_uint8. intros Hb Hl. split.
  - apply Z.div_pos; nia.
  - apply Z.div_lt_upper_bound; nia.
Qed.

Lemma UpdateEstimate_ok (now_ms : Z) (s s' : state) (out : list trace_msg) :
  is_uint32 now_ms -> state_ok s ->
  UpdateEstimate now_ms s = Some (s', out) -> state_ok s'.
Proof.
  intros Hnow Hs. pose proof Hs as [? ? Hb ? ? Hl Hr ? ? ?].
  assert (Hcap : forall s1 o, state_ok s1 ->
            Some (CapBitrateToThresholds s1) = Some o -> state_ok (fst o)).
  { intros s1 o Hs1 Ho. injection Ho as <-.
    now apply CapBitrateToThresholds_ok. }
  unfold UpdateEstimate.
  destruct (last_fraction_loss_ s <=? 5).
  - destruct (kBweIncreaseIntervalMs <=? _).
    + cbv zeta.
      change (bitrate_ (set_time_last_increase now_ms s)) with (bitrate_ s).
      destruct (IncreasedBitrate (bitrate_ s)) as [b|] eqn:E;
        [|discriminate].
      intros Hres. apply Hcap in Hres; [exact Hres|].
      destruct s; constructor; state_fields; try assumption.
      apply to_uint32_is_uint32.
    + intros Hres. now apply Hcap in Hres.
  - destruct (last_fraction_loss_ s <=? 26).
    + intros Hres. now apply Hcap in Hres.
    + destruct (_ <=? _).
      * cbv zeta.
        change (bitrate_ (set_time_last_decrease now_ms s))
          with (bitrate_ s).
        change (last_fraction_loss_ (set_time_last_decrease now_ms s))
          with (last_fraction_loss_ s).
        rewrite (DecreasedBitrate_eq _ _ Hb Hl).
        change (last_round_trip_time_
                  (set_bitrate (bitrate_ s * (512 - last_fraction_loss_ s) / 512)
                     (set_time_last_decrease now_ms s)))
          with (last_round_trip_time_ s).
        change (last_fraction_loss_
                  (set_bitrate (bitrate_ s * (512 - last_fraction_loss_ s) / 512)
                     (set_time_last_decrease now_ms s)))
          with (last_fraction_loss_ s).
        destruct (CalcTfrcBps_defined (to_uint16 (last_round_trip_time_ s))
                    (last_fraction_loss_ s)) as (t & -> & Ht);
          [unfold is_uint16, to_uint16; apply Z.mod_pos_bound; lia
          |assumption|].
        intros Hres. apply Hcap in Hres; [exact Hres|].
        pose proof (decreased_is_uint32 _ _ Hb Hl) as Hd.
        destruct s; constructor; state_fields; try assumption.
        unfold is_uint32 in *. lia.
      * intros Hres. now apply Hcap in Hres.
Qed.

Lemma step_ok (c : call) (s s' : state) (out : list trace_msg) :
  call_ok c -> state_ok s -> accumulators_ok s ->
  step c s = Some (s', out) ->
  state_ok s' /\ accumulators_ok s'.
Proof.
  intros Hc Hs Ha. pose proof Hs as [? ? ? ? ? ? ? ? ? ?].
  destruct c as [b|mn mx|mn|bw|fl rtt n now]; cbn [step call_ok] in *.
  - intros Hres. injection Hres as <- _. split; [|exact Ha].
    constructor; state_fields; assumption.
  - intros Hres. injection Hres as <- _. split; [|exact Ha].
    destruct Hc. constructor; state_fields; assumption.
  - intros Hres. injection Hres as <- _. split; [|exact Ha].
    constructor; state_fields; assumption.
  - intros Hres. injection Hres as Hres. apply (f_equal fst) in Hres.
    cbn [fst] in Hres. subst s'. unfold UpdateReceiverEstimate. split.
    + apply CapBitrateToThresholds_ok.
      constructor; state_fields; assumption.
    + rewrite CapBitrateToThresholds_eq. exact Ha.
  - destruct Hc as (Hfl & Hrtt & Hn & Hnow).
    assert (Hs1 : state_ok (set_last_round_trip_time rtt s))
      by (constructor; state_fields; assumption).
    assert (Hkeep : forall s0 o,
              UpdateEstimate now s0 = Some o ->
              accumulators_ok s0 -> accumulators_ok (fst o)).
    { intros s0 o Ho Ha0.
      apply UpdateEstimate_ends_in_clamp in Ho as (s1 & -> & Hc1).
      rewrite CapBitrateToThresholds_eq. unfold accumulators_ok in *.
      destruct Hc1 as (_ & _ & _ & _ & _ & Hl1 & He1). state_fields.
      rewrite Hl1, He1. exact Ha0. }
    intros Hres. destruct (Z.ltb_spec 0 n) as [Hpos|Hneg].
    + pose proof (UpdateReceiverBlock_defined _ _ _ _ _ _ Hpos Hres) as Hov.
      destruct Ha as (He & Hl). unfold kLimitNumPackets, is_uint8 in *.
      assert (Hfn : 0 <= fl * n <= 255 * n) by nia.
      destruct (Z.lt_ge_cases (accumulate_expected_packets_ s + n)
                  kLimitNumPackets) as [Hlt|Hge].
      * rewrite (UpdateReceiverBlock_early_return _ _ _ _ _ Hpos Hov Hlt)
          in Hres.
        injection Hres as <- _. destruct Hov as (_ & Hov1 & Hov2).
        unfold accumulated, accumulators_ok, kLimitNumPackets in *.
        split; [constructor; state_fields; assumption|].
        state_fields. lia.
      * rewrite (UpdateReceiverBlock_commit _ _ _ _ _ Hpos Hov Hge) in Hres.
        destruct (committed_fraction_loss
                    (accumulate_lost_packets_Q8_ s + fl * n)
                    (accumulate_expected_packets_ s + n)) as [Hq Hq8];
          [unfold kLimitNumPackets in *; lia|lia|].
        split.
        -- apply (UpdateEstimate_ok now _ _ _ Hnow) in Hres; [assumption|].
           unfold committed. rewrite Hq.
           constructor; state_fields; try assumption;
             unfold is_int, INT_MIN, INT_MAX; lia.
        -- apply (Hkeep _ _ Hres). unfold committed, accumulators_ok,
             kLimitNumPackets. state_fields. lia.
    + rewrite UpdateReceiverBlock_no_packets in Hres by lia. split.
      * now apply (UpdateEstimate_ok now _ _ _ Hnow Hs1 Hres).
      * apply (Hkeep _ _ Hres). exact Ha.
Qed.

Lemma initial_ok : state_ok initial /\ accumulators_ok initial.
Proof.
  split.
  - constructor; cbn; unfold is_int, is_uint32, is_uint8, INT_MIN, INT_MAX;
      lia.
  - unfold accumulators_ok, kLimitNumPackets. cbn. lia.
Qed.

(** Every state the interface can reach holds values of the member types. *)
Lemma run_ok (cs : list call) :
  forall (s s' : state) (out : list trace_msg),
    Forall call_ok cs -> state_ok s -> accumulators_ok s ->
    run cs s = Some (s', out) ->
    state_ok s' /\ accumulators_ok s'.
Proof.
  induction cs as [|c cs IH]; intros s s' out Hcs Hs Ha; cbn [run].
  - intros Hres. injection Hres as <- _. auto.
  - inversion Hcs as [|? ? Hc Hcs']; subst.
    destruct (step c s) as [[s1 out1]|] eqn:E; [|discriminate].
    destruct (step_ok c s s1 out1 Hc Hs Ha E) as [Hs1 Ha1].
    destruct (run cs s1) as [[s2 out2]|] eqn:E2; [|discriminate].
    intros Hres. injection Hres as <- _. exact (IH _ _ _ Hcs' Hs1 Ha1 E2).
Qed.

(** ** [UpdateEstimate] in closed form *)

Lemma to_uint16_is_uint16 (z : Z) : is_uint16 (to_uint16 z).
Proof. unfold is_uint16, to_uint16. apply Z.mod_pos_bound. lia. Qed.

Lemma UpdateEstimate_decrease_eq (now_ms : Z) (s : state) :
  state_ok s ->
  26 < last_fraction_loss_ s ->
  to_uint32 (kBweDecreaseIntervalMs + last_round_trip_time_ s) <=
    to_uint32 (now_ms - time_last_decrease_ s) ->
  exists tfrc,
    CalcTfrcBps (to_uint16 (last_round_trip_time_ s))
      (last_fraction_loss_ s) = Some tfrc /\
    is_uint32 tfrc /\
    UpdateEstimate now_ms s = Some (decreased now_ms tfrc s).
Proof.
  intros Hs Hl Ht. pose proof Hs as [_ _ Hb _ _ Hl8 _ _ _ _].
  destruct (CalcTfrcBps_defined (to_uint16 (last_round_trip_time_ s))
              (last_fraction_loss_ s) (to_uint16_is_uint16 _) Hl8)
    as (tfrc & Htfrc & Hrange).
  exists tfrc. split; [exact Htfrc|]. split; [exact Hrange|].
  rewrite (UpdateEstimate_decrease now_ms s Hl Ht).
  rewrite (DecreasedBitrate_eq _ _ Hb Hl8), Htfrc. reflexivity.
Qed.

Lemma UpdateEstimate_increase_eq (now_ms : Z) (s : state) :
  state_ok s ->
  last_fraction_loss_ s <= 5 ->
  kBweIncreaseIntervalMs <= to_uint32 (now_ms - time_last_increase_ s) ->
  round_1_08 (bitrate_ s) + 1000 < 4294967296 ->
  UpdateEstimate now_ms s = Some (increased now_ms s).
Proof.
  intros Hs Hl Ht Hfit. pose proof Hs as [_ _ Hb _ _ _ _ _ _ _].
  rewrite (UpdateEstimate_increase now_ms s Hl Ht).
  rewrite (IncreasedBitrate_eq _ Hb). fold (round_1_08 (bitrate_ s)).
  destruct (Z.ltb_spec (round_1_08 (bitrate_ s)) 4294967296); [|lia].
  unfold increased. rewrite to_uint32_small; [reflexivity|].
  unfold is_uint32, round_1_08 in *.
  assert (0 <= (108 * bitrate_ s + 50) / 100) by (apply Z.div_pos; lia).
  lia.
Qed.

(** The clamp does not move a bitrate that is already clamped, whatever
    else differs. *)
Lemma CapBitrateToThresholds_keeps (s s0 : state) :
  clamped s0 ->
  bitrate_ s = bitrate_ s0 ->
  min_bitrate_configured_ s = min_bitrate_configured_ s0 ->
  max_bitrate_configured_ s = max_bitrate_configured_ s0 ->
  bwe_incoming_ s = bwe_incoming_ s0 ->
  fst (CapBitrateToThresholds s) = s.
Proof.
  intros Hc Hb Hmn Hmx Hh. apply CapBitrateToThresholds_fixed.
  unfold clamped in *. rewrite Hb, Hmn, Hmx, Hh. exact Hc.
Qed.

(** A report of at least [kLimitNumPackets] packets on empty accumulators
    commits its own loss fraction. *)
Lemma UpdateReceiverBlock_full
    (fraction_loss rtt number_of_packets now_ms : Z) (s : state) :
  is_uint8 fraction_loss ->
  kLimitNumPackets <= number_of_packets ->
  is_int number_of_packets ->
  is_int (fraction_loss * number_of_packets) ->
  accumulate_expected_packets_ s = 0 ->
  accumulate_lost_packets_Q8_ s = 0 ->
  UpdateReceiverBlock fraction_loss rtt number_of_packets now_ms s =
    UpdateEstimate now_ms
      (set_accumulate_expected_packets 0
         (set_accumulate_lost_packets_Q8 0
            (set_last_fraction_loss fraction_loss
               (set_last_round_trip_time rtt s)))).
Proof.
  unfold is_uint8, kLimitNumPackets. intros Hf Hn Hi Hfn He Hl.
  rewrite UpdateReceiverBlock_commit.
  - unfold committed. rewrite He, Hl, !Z.add_0_l.
    destruct (committed_fraction_loss (fraction_loss * number_of_packets)
                number_of_packets) as [-> _]; [lia|nia|].
    rewrite Z.div_mul by lia. reflexivity.
  - lia.
  - unfold no_int_overflow. rewrite He, Hl, !Z.add_0_l. auto.
  - unfold kLimitNumPackets. lia.
Qed.

Lemma observing_ok (min_bitrate max_bitrate bitrate loss rtt : Z) :
  is_uint32 min_bitrate -> is_uint32 max_bitrate -> is_uint32 bitrate ->
  is_uint8 loss -> is_uint32 rtt ->
  state_ok (observing min_bitrate max_bitrate bitrate loss rtt).
Proof.
  intros. constructor; cbn; try assumption;
    unfold is_int, is_uint32, INT_MIN, INT_MAX; lia.
Qed.

Lemma reported_ok (fraction_loss rtt : Z) (s : state) :
  is_uint8 fraction_loss -> is_uint32 rtt -> state_ok s ->
  state_ok (reported fraction_loss rtt s).
Proof.
  intros Hf Hr [? ? ? ? ? ? ? ? ? ?].
  constructor; unfold reported; simpl_state; try assumption;
    unfold is_int, INT_MIN, INT_MAX; lia.
Qed.

Lemma increased_ok (now_ms : Z) (s : state) :
  is_uint32 now_ms -> state_ok s ->
  round_1_08 (bitrate_ s) + 1000 < 4294967296 ->
  state_ok (fst (increased now_ms s)).
Proof.
  intros Hnow Hs Hfit. pose proof Hs as [? ? Hb ? ? ? ? ? ? ?].
  unfold increased. apply CapBitrateToThresholds_ok.
  constructor; simpl_state; try assumption.
  unfold is_uint32, round_1_08 in *.
  assert (0 <= (108 * bitrate_ s + 50) / 100) by (apply Z.div_pos; lia).
  lia.
Qed.

(** ** More on the clamp *)

Lemma CapBitrateToThresholds_bitrate (s : state) :
  bitrate_ (fst (CapBitrateToThresholds s)) =
    Z.max (min_bitrate_configured_ s) (capped_to_max s).
Proof. rewrite CapBitrateToThresholds_eq. reflexivity. Qed.

Lemma CapBitrateToThresholds_configuration (s : state) :
  same_configuration (fst (CapBitrateToThresholds s)) s /\
  time_last_increase_ (fst (CapBitrateToThresholds s)) =
    time_last_increase_ s /\
  time_last_decrease_ (fst (CapBitrateToThresholds s)) =
    time_last_decrease_ s.
Proof.
  rewrite CapBitrateToThresholds_eq. unfold same_configuration.
  cbn [fst]. state_fields. repeat split; reflexivity.
Qed.

Lemma CapBitrateToThresholds_quiet (s : state) :
  within_bounds s -> CapBitrateToThresholds s = (s, []).
Proof.
  intros ((Hmin & Hmax) & Hest). rewrite CapBitrateToThresholds_eq.
  assert (Hc : capped_to_max s = bitrate_ s).
  { unfold capped_to_max, capped_to_estimate.
    destruct (Z.ltb_spec 0 (bwe_incoming_ s)); lia. }
  rewrite Hc. destruct (Z.ltb_spec (bitrate_ s) (min_bitrate_configured_ s));
    [lia|].
  rewrite Z.max_r by lia. now rewrite set_bitrate_same.
Qed.

(** ** Where [UpdateEstimate] is defined *)

Lemma UpdateEstimate_defined (now_ms : Z) (s : state) :
  state_ok s ->
  round_1_08 (bitrate_ s) < 4294967296 ->
  exists o, UpdateEstimate now_ms s = Some o.
Proof.
  intros Hs Hb. pose proof Hs as [? ? ? ? ? ? ? ? ? ?].
  destruct (Z.le_gt_cases (last_fraction_loss_ s) 5) as [H5|H5].
  - destruct (Z.le_gt_cases kBweIncreaseIntervalMs
                (to_uint32 (now_ms - time_last_increase_ s))) as [Hc|Hc].
    + rewrite (UpdateEstimate_increase _ _ H5 Hc).
      rewrite IncreasedBitrate_eq by assumption.
      unfold round_1_08 in Hb.
      destruct (Z.ltb_spec ((108 * bitrate_ s + 50) / 100) 4294967296);
        [eauto|lia].
    + rewrite UpdateEstimate_hold by (left; split; assumption). eauto.
  - destruct (Z.le_gt_cases (last_fraction_loss_ s) 26) as [H26|H26].
    + rewrite UpdateEstimate_hold by (right; left; lia). eauto.
    + destruct (Z.le_gt_cases
                  (to_uint32 (kBweDecreaseIntervalMs + last_round_trip_time_ s))
                  (to_uint32 (now_ms - time_last_decrease_ s))) as [Hc|Hc].
      * destruct (UpdateEstimate_decrease_eq _ _ Hs H26 Hc)
          as (tfrc & _ & _ & ->). eauto.
      * rewrite UpdateEstimate_hold by (right; right; split; assumption).
        eauto.
Qed.

Lemma safe_bitrate_limit_round (b : Z) :
  b <= safe_bitrate_limit -> round_1_08 b < 4294967296.
Proof.
  unfold safe_bitrate_limit, round_1_08. intros Hb.
  apply Z.div_lt_upper_bound; lia.
Qed.

Lemma UpdateEstimate_clamped (now_ms : Z) (s s' : state)
    (out : list trace_msg) :
  UpdateEstimate now_ms s = Some (s', out) ->
  clamped s' /\ same_configuration s' s.
Proof.
  intros H. apply UpdateEstimate_ends_in_clamp in H as (s1 & Ho & Hc).
  apply (f_equal fst) in Ho. cbn [fst] in Ho. subst s'. split.
  - apply CapBitrateToThresholds_clamped.
  - destruct (CapBitrateToThresholds_configuration s1) as (Hc1 & _).
    unfold same_configuration in *. intuition congruence.
Qed.

Lemma step_safe (c : call) (s : state) :
  safe_call c -> safe_state s ->
  exists s' out, step c s = Some (s', out) /\ safe_state s'.
Proof.
  intros (Hc & Hlim) (Hs & Ha & Hb & Hmn & Hmx).
  assert (Hdone : forall s' out,
            step c s = Some (s', out) ->
            bitrate_ s' <= safe_bitrate_limit /\
            min_bitrate_configured_ s' <= safe_bitrate_limit /\
            max_bitrate_configured_ s' <= safe_bitrate_limit ->
            exists s' out, step c s = Some (s', out) /\ safe_state s').
  { intros s' out Hstep Hb'. exists s', out. split; [exact Hstep|].
    destruct (step_ok c s s' out Hc Hs Ha Hstep). split; [|split]; tauto. }
  assert (Hest : forall now s0 ,
            state_ok s0 ->
            bitrate_ s0 <= safe_bitrate_limit ->
            min_bitrate_configured_ s0 <= safe_bitrate_limit ->
            max_bitrate_configured_ s0 <= safe_bitrate_limit ->
            exists s' out,
              UpdateEstimate now s0 = Some (s', out) /\
              bitrate_ s' <= safe_bitrate_limit /\
              min_bitrate_configured_ s' <= safe_bitrate_limit /\
              max_bitrate_configured_ s' <= safe_bitrate_limit).
  { intros now s0 Hs0 Hb0 Hmn0 Hmx0.
    destruct (UpdateEstimate_defined now s0 Hs0
                (safe_bitrate_limit_round _ Hb0)) as ((s' & out) & Ho).
    exists s', out. split; [exact Ho|].
    destruct (UpdateEstimate_clamped _ _ _ _ Ho)
      as ((_ & Hle & _) & (E1 & E2 & _)).
    rewrite E1, E2 in *. lia. }
  destruct c as [b|mn mx|mn|bw|fl rtt n now]; cbn [step call_ok] in *.
  - eapply Hdone; [reflexivity|]. unfold SetSendBitrate. state_fields. lia.
  - eapply Hdone; [reflexivity|]. unfold SetMinMaxBitrate. state_fields. lia.
  - eapply Hdone; [reflexivity|]. unfold SetMinBitrate. state_fields. lia.
  - eapply Hdone; [rewrite <- surjective_pairing; reflexivity|].
    unfold UpdateReceiverEstimate.
    pose proof (CapBitrateToThresholds_clamped (set_bwe_incoming bw s))
      as (_ & Hle & _).
    destruct (CapBitrateToThresholds_configuration (set_bwe_incoming bw s))
      as ((E1 & E2 & _) & _).
    rewrite E1, E2 in *. state_fields. lia.
  - destruct Hc as (Hfl & Hrtt & Hn & Hnow).
    pose proof Hs as [? ? ? ? ? ? ? ? ? ?].
    assert (Hs1 : state_ok (set_last_round_trip_time rtt s))
      by (constructor; state_fields; assumption).
    destruct (Z.ltb_spec 0 n) as [Hpos|Hneg].
    + destruct Ha as (He & Hl).
      unfold kLimitNumPackets, is_uint8, is_int, INT_MIN, INT_MAX,
        safe_packets_limit in *.
      assert (Hfn : 0 <= fl * n <= 255 * n) by nia.
      assert (Hov : no_int_overflow fl n s)
        by (unfold no_int_overflow, is_int, INT_MIN, INT_MAX; lia).
      destruct (Z.lt_ge_cases (accumulate_expected_packets_ s + n) 20)
        as [Hlt|Hge].
      * eapply Hdone;
          [apply (UpdateReceiverBlock_early_return _ _ _ _ _ Hpos Hov Hlt)|].
        unfold accumulated. state_fields. lia.
      * destruct (Hest now (committed fl rtt n s)) as (s' & out & Ho & Hb');
          [|unfold committed; state_fields; lia..|].
        { unfold committed. constructor; state_fields; try assumption;
            try (unfold is_int, INT_MIN, INT_MAX; lia).
          unfold is_uint8, to_uint8.
          apply Z.mod_pos_bound. lia. }
        apply (Hdone s' out); [|exact Hb'].
        rewrite (UpdateReceiverBlock_commit _ _ _ _ _ Hpos Hov Hge).
        exact Ho.
    + destruct (Hest now (set_last_round_trip_time rtt s))
        as (s' & out & Ho & Hb'); [assumption|state_fields; lia..|].
      apply (Hdone s' out); [|exact Hb'].
      rewrite UpdateReceiverBlock_no_packets by lia. exact Ho.
Qed.

Lemma run_safe (cs : list call) :
  forall s : state,
    Forall safe_call cs -> safe_state s ->
    exists s' out, run cs s = Some (s', out) /\ safe_state s'.
Proof.
  induction cs as [|c cs IH]; intros s Hcs Hs.
  - exists s, []. split; [reflexivity|exact Hs].
  - inversion Hcs as [|? ? Hc Hcs']; subst.
    destruct (step_safe c s Hc Hs) as (s1 & out1 & Hstep & Hs1).
    destruct (IH s1 Hcs' Hs1) as (s2 & out2 & Hrun & Hs2).
    exists s2, (out1 ++ out2). cbn [run]. rewrite Hstep, Hrun. tauto.
Qed.

Lemma initial_safe : safe_state initial.
Proof.
  destruct initial_ok as [Hs Ha].
  split; [exact Hs|split; [exact Ha|]]. cbn. unfold safe_bitrate_limit. lia.
Qed.

(** ** What a call leaves alone *)

Lemma UpdateEstimate_frame (now_ms : Z) (s s' : state)
    (out : list trace_msg) :
  UpdateEstimate now_ms s = Some (s', out) ->
  same_configuration s' s /\
  (length out <= 1)%nat /\
  ((holds_rate now_ms s /\
    time_last_increase_ s' = time_last_increase_ s /\
    time_last_decrease_ s' = time_last_decrease_ s) \/
   (last_fraction_loss_ s <= 5 /\
    kBweIncreaseIntervalMs <= to_uint32 (now_ms - time_last_increase_ s) /\
    time_last_increase_ s' = now_ms /\
    time_last_decrease_ s' = time_last_decrease_ s) \/
   (26 < last_fraction_loss_ s /\
    to_uint32 (kBweDecreaseIntervalMs + last_round_trip_time_ s) <=
      to_uint32 (now_ms - time_last_decrease_ s) /\
    time_last_decrease_ s' = now_ms /\
    time_last_increase_ s' = time_last_increase_ s)).
Proof.
  intros H. split; [exact (proj2 (UpdateEstimate_clamped _ _ _ _ H))|].
  assert (Hcap : forall s1,
            Some (CapBitrateToThresholds s1) = Some (s', out) ->
            (length out <= 1)%nat /\
            time_last_increase_ s' = time_last_increase_ s1 /\
            time_last_decrease_ s' = time_last_decrease_ s1).
  { intros s1 E. injection E as E. rewrite CapBitrateToThresholds_eq in E.
    injection E as <- <-. state_fields.
    destruct (_ <? _); cbn [length]; repeat split; lia. }
  destruct (Z.le_gt_cases (last_fraction_loss_ s) 5) as [H5|H5].
  - destruct (Z.le_gt_cases kBweIncreaseIntervalMs
                (to_uint32 (now_ms - time_last_increase_ s))) as [Hc|Hc].
    + rewrite (UpdateEstimate_increase _ _ H5 Hc) in H.
      destruct (IncreasedBitrate (bitrate_ s)); [|discriminate].
      apply Hcap in H as (Hl & Hi & Hd). state_fields.
      split; [exact Hl|]. right; left. tauto.
    + assert (Hh : holds_rate now_ms s) by (left; split; assumption).
      rewrite (UpdateEstimate_hold _ _ Hh) in H.
      apply Hcap in H as (Hl & Hi & Hd). split; [exact Hl|]. left. tauto.
  - destruct (Z.le_gt_cases (last_fraction_loss_ s) 26) as [H26|H26].
    + assert (Hh : holds_rate now_ms s) by (right; left; lia).
      rewrite (UpdateEstimate_hold _ _ Hh) in H.
      apply Hcap in H as (Hl & Hi & Hd). split; [exact Hl|]. left. tauto.
    + destruct (Z.le_gt_cases
                  (to_uint32 (kBweDecreaseIntervalMs + last_round_trip_time_ s))
                  (to_uint32 (now_ms - time_last_decrease_ s))) as [Hc|Hc].
      * rewrite (UpdateEstimate_decrease _ _ H26 Hc) in H.
        destruct (DecreasedBitrate _ _); [|discriminate].
        destruct (CalcTfrcBps _ _); [|discriminate].
        apply Hcap in H as (Hl & Hi & Hd). state_fields.
        split; [exact Hl|]. right; right. tauto.
      * assert (Hh : holds_rate now_ms s) by (right; right; split; assumption).
        rewrite (UpdateEstimate_hold _ _ Hh) in H.
        apply Hcap in H as (Hl & Hi & Hd). split; [exact Hl|]. left. tauto.
Qed.

Lemma lost_packets_Q8_between (lo hi : Z) (rs : list report) :
  Forall report_ok rs ->
  Forall (fun r => lo <= report_fraction_loss r <= hi) rs ->
  lo * expected_packets rs <= lost_packets_Q8 rs <= hi * expected_packets rs.
Proof.
  induction 1 as [|r rs (_ & _ & Hn & _) _ IH]; intros Hb;
    cbn [expected_packets lost_packets_Q8].
  - lia.
  - inversion Hb as [|? ? Hr Hb']; subst. specialize (IH Hb'). nia.
Qed.

Lemma expected_packets_app (rs1 rs2 : list report) :
  expected_packets (rs1 ++ rs2) = expected_packets rs1 + expected_packets rs2.
Proof. induction rs1 as [|r rs1 IH]; cbn [app expected_packets]; lia. Qed.

Lemma lost_packets_Q8_app (rs1 rs2 : list report) :
  lost_packets_Q8 (rs1 ++ rs2) = lost_packets_Q8 rs1 + lost_packets_Q8 rs2.
Proof. induction rs1 as [|r rs1 IH]; cbn [app lost_packets_Q8]; lia. Qed.

Lemma step_warnings (c : call) (s s' : state) (out : list trace_msg) :
  step c s = Some (s', out) ->
  (length out <= 1)%nat /\
  Forall (fun m => trace_estimate_kbps m <= trace_min_kbps m /\
                   trace_min_kbps m = min_bitrate_configured_ s' / 1000 /\
                   bitrate_ s' = min_bitrate_configured_ s') out.
Proof.
  assert (Hcap : forall s1,
            CapBitrateToThresholds s1 = (s', out) ->
            (length out <= 1)%nat /\
            Forall (fun m => trace_estimate_kbps m <= trace_min_kbps m /\
                             trace_min_kbps m =
                               min_bitrate_configured_ s' / 1000 /\
                             bitrate_ s' = min_bitrate_configured_ s') out).
  { intros s1 E. rewrite CapBitrateToThresholds_eq in E.
    injection E as <- <-. simpl_state.
    destruct (Z.ltb_spec (capped_to_max s1) (min_bitrate_configured_ s1)).
    - split; [cbn; lia|]. constructor; [|constructor].
      unfold min_bitrate_warning. cbn [trace_estimate_kbps trace_min_kbps].
      split; [apply Z.div_le_mono; lia|split; [reflexivity|lia]].
    - split; [cbn; lia|constructor]. }
  destruct c as [b|mn mx|mn|bw|fl rtt n now]; cbn [step].
  1-3: intros E; injection E as <- <-; split; [cbn; lia|constructor].
  - intros E. injection E as E. exact (Hcap _ E).
  - intros E. unfold UpdateReceiverBlock in E.
    destruct (0 <? n).
    + destruct (int_result (fl * n)); [|discriminate].
      destruct (int_result (_ + _)); [|discriminate].
      destruct (int_result (_ + _)); [|discriminate].
      cbv zeta in E. destruct (kLimitNumPackets <=? _).
      * apply UpdateEstimate_ends_in_clamp in E as (s1 & E & _).
        exact (Hcap _ (eq_sym E)).
      * injection E as <- <-. split; [cbn; lia|constructor].
    + apply UpdateEstimate_ends_in_clamp in E as (s1 & E & _).
      exact (Hcap _ (eq_sym E)).
Qed.

Lemma run_warnings (cs : list call) :
  forall (s s' : state) (out : list trace_msg),
    run cs s = Some (s', out) ->
    (length out <= length cs)%nat /\
    Forall (fun m => trace_estimate_kbps m <= trace_min_kbps m) out /\
    (Forall is_setter cs -> out = []).
Proof.
  induction cs as [|c cs IH]; intros s s' out H; cbn [run] in H.
  - injection H as <- <-. repeat split; [cbn; lia|constructor].
  - destruct (step c s) as [[s1 out1]|] eqn:Hstep; [|discriminate].
    destruct (run cs s1) as [[s2 out2]|] eqn:Hrun; [|discriminate].
    injection H as <- <-.
    destruct (step_warnings _ _ _ _ Hstep) as (Hl1 & Hf1).
    destruct (IH _ _ _ Hrun) as (Hl2 & Hf2 & Hs2).
    split; [|split].
    + rewrite length_app. cbn [length]. lia.
    + apply Forall_app. split; [|exact Hf2].
      eapply Forall_impl; [|exact Hf1]. cbv beta. tauto.
    + intros Hset. inversion Hset as [|? ? Hc Hcs]; subst.
      rewrite (Hs2 Hcs), app_nil_r.
      destruct c; cbn [is_setter step] in *; try contradiction;
        now injection Hstep as _ <-.
Qed.

(** ** Sustained low loss *)

(** Projects through nested setters without unfolding them first. *)
Ltac project_state :=
  cbn [accumulate_lost_packets_Q8_ accumulate_expected_packets_ bitrate_
       min_bitrate_configured_ max_bitrate_configured_ last_fraction_loss_
       last_round_trip_time_ bwe_incoming_ time_last_increase_
       time_last_decrease_ fst snd
       set_accumulate_lost_packets_Q8 set_accumulate_expected_packets
       set_bitrate set_min_bitrate_configured set_max_bitrate_configured
       set_last_fraction_loss set_last_round_trip_time set_bwe_incoming
       set_time_last_increase set_time_last_decrease].

Lemma round_1_08_le (b : Z) : 0 <= b -> b <= round_1_08 b.
Proof.
  intros Hb. unfold round_1_08. apply Z.div_le_lower_bound; lia.
Qed.

Lemma round_1_08_mono (b c : Z) : b <= c -> round_1_08 b <= round_1_08 c.
Proof. intros H. unfold round_1_08. apply Z.div_le_mono; lia. Qed.

Lemma quiet_report_step (rtt now_ms : Z) (s : state) :
  state_ok s ->
  accumulate_expected_packets_ s = 0 ->
  accumulate_lost_packets_Q8_ s = 0 ->
  is_uint32 rtt -> is_uint32 now_ms ->
  kBweIncreaseIntervalMs <= to_uint32 (now_ms - time_last_increase_ s) ->
  round_1_08 (bitrate_ s) + 1000 < 4294967296 ->
  exists s' out,
    UpdateReceiverBlock 0 rtt kLimitNumPackets now_ms s = Some (s', out) /\
    state_ok s' /\
    accumulate_expected_packets_ s' = 0 /\
    accumulate_lost_packets_Q8_ s' = 0 /\
    time_last_increase_ s' = now_ms /\
    ceiling s' = ceiling s /\
    Z.min (ceiling s) (bitrate_ s + 1000) <= bitrate_ s' <= ceiling s.
Proof.
  intros Hs He Hl Hrtt Hnow Hc Hr.
  assert (H0 : is_uint8 0) by (unfold is_uint8; lia).
  assert (Hs1 : state_ok (reported 0 rtt s)) by now apply reported_ok.
  exists (fst (increased now_ms (reported 0 rtt s))),
    (snd (increased now_ms (reported 0 rtt s))).
  split.
  { rewrite UpdateReceiverBlock_full;
      try assumption;
      try (unfold kLimitNumPackets, is_int, INT_MIN, INT_MAX; lia).
    fold (reported 0 rtt s). rewrite <- surjective_pairing.
    apply UpdateEstimate_increase_eq; try assumption;
      unfold reported; simpl_state; lia. }
  split; [apply increased_ok; assumption|].
  pose proof (round_1_08_le (bitrate_ s)
                (proj1 (ok_bitrate s Hs))) as Hle.
  unfold increased. rewrite CapBitrateToThresholds_eq. cbn [fst].
  unfold ceiling, capped_to_max, capped_to_estimate, reported.
  project_state.
  split; [reflexivity|]. split; [reflexivity|]. split; [reflexivity|].
  split; [reflexivity|].
  destruct (0 <? bwe_incoming_ s); lia.
Qed.

Lemma to_uint32_period (start period : Z) :
  0 <= period < 4294967296 ->
  to_uint32 (to_uint32 (start + period) - to_uint32 start) = period.
Proof.
  intros Hp. unfold to_uint32.
  rewrite <- Zminus_mod.
  replace (start + period - start) with period by lia.
  now apply Z.mod_small.
Qed.

Lemma run_quiet_reports (rtt period : Z) (k : nat) :
  is_uint32 rtt ->
  kBweIncreaseIntervalMs <= period < 4294967296 ->
  forall (start : Z) (s : state),
    state_ok s ->
    accumulate_expected_packets_ s = 0 ->
    accumulate_lost_packets_Q8_ s = 0 ->
    time_last_increase_ s = to_uint32 start ->
    bitrate_ s <= ceiling s ->
    round_1_08 (ceiling s) + 1000 < 4294967296 ->
    exists s' out,
      run (periodic_reports 0 rtt start period k) s = Some (s', out) /\
      state_ok s' /\
      ceiling s' = ceiling s /\
      time_last_increase_ s' = to_uint32 (start + period * Z.of_nat k) /\
      Z.min (ceiling s) (bitrate_ s + 1000 * Z.of_nat k) <= bitrate_ s' /\
      bitrate_ s' <= ceiling s.
Proof.
  intros Hrtt Hp. unfold kBweIncreaseIntervalMs in Hp.
  induction k as [|k IH]; intros start s Hs He Hl Ht Hb Hr.
  - exists s, []. cbn [periodic_reports run Z.of_nat].
    rewrite !Z.mul_0_r, !Z.add_0_r.
    split; [reflexivity|]. split; [assumption|]. split; [reflexivity|].
    split; [assumption|]. lia.
  - cbn [periodic_reports run step].
    destruct (quiet_report_step rtt (to_uint32 (start + period)) s)
      as (s1 & out1 & Hstep & Hs1 & He1 & Hl1 & Ht1 & Hc1 & Hb1);
      try assumption.
    { apply to_uint32_is_uint32. }
    { rewrite Ht, to_uint32_period by lia.
      unfold kBweIncreaseIntervalMs. lia. }
    { pose proof (round_1_08_mono _ _ Hb). lia. }
    rewrite Hstep.
    destruct (IH (start + period) s1) as (s2 & out2 & Hrun & Hs2 & Hc2 & Ht2
                                          & Hb2 & Hb2');
      try assumption; try (rewrite Hc1; assumption || lia).
    rewrite Hrun. exists s2, (out1 ++ out2). rewrite Hc1 in *.
    split; [reflexivity|]. split; [assumption|]. split; [assumption|].
    split; [rewrite Ht2; f_equal; lia|]. lia.
Qed.

(** ** Truncation to [uint32_t] is monotone *)

Lemma shiftl_canonical_mono (m1 m2 : positive) (e1 e2 : Z) :
  Z.pos (digits2_pos m1) <= 53 ->
  Z.pos (digits2_pos m2) = 53 \/ e2 = -1074 ->
  -1074 <= e1 ->
  e1 < e2 \/ (e1 = e2 /\ Z.pos m1 <= Z.pos m2) ->
  Z.shiftl (Z.pos m1) e1 <= Z.shiftl (Z.pos m2) e2.
Proof.
  intros Hd1 Hd2 He1 [Hlt|[-> Hm]].
  - assert (Hm1 : Z.pos m1 < 2 ^ 53).
    { pose proof (digits2_pos_bounds m1) as Hb.
      pose proof (pow2_le (Z.pos (digits2_pos m1)) 53 ltac:(lia)). lia. }
    assert (Hm2 : 2 ^ 52 <= Z.pos m2).
    { pose proof (digits2_pos_bounds m2) as Hb.
      destruct Hd2 as [Hd2|Hd2]; [|lia]. rewrite Hd2 in Hb.
      change (53 - 1) with 52 in Hb. lia. }
    assert (H53 : 2 ^ 53 = 2 * 2 ^ 52) by reflexivity.
    assert (Hgap : 2 <= 2 ^ (e2 - e1))
      by (pose proof (pow2_le 1 (e2 - e1) ltac:(lia)); lia).
    set (P := 2 ^ 52) in *. clearbody P.
    destruct (Z.le_gt_cases 0 e1) as [Hpos|Hneg].
    + rewrite !Z.shiftl_mul_pow2 by lia.
      replace e2 with ((e2 - e1) + e1) by lia.
      rewrite (Z.pow_add_r 2 (e2 - e1) e1) by lia.
      pose proof (pow2_pos e1 Hpos).
      set (A := 2 ^ e1) in *. set (G := 2 ^ (e2 - e1)) in *.
      clearbody A G.
      assert (Hs1 : Z.pos m1 * A <= 2 * P * A) by nia.
      assert (Hs2 : 2 * P <= Z.pos m2 * G) by nia.
      nia.
    + rewrite (Z.shiftl_div_pow2 (Z.pos m1)) by lia.
      pose proof (pow2_pos (- e1) ltac:(lia)) as HA.
      pose proof (Z.mul_div_le (Z.pos m1) (2 ^ (- e1)) HA) as Hq.
      assert (Hq0 : 0 <= Z.pos m1 / 2 ^ (- e1))
        by (apply Z.div_pos; lia).
      destruct (Z.le_gt_cases 0 e2) as [Hpos2|Hneg2].
      * rewrite Z.shiftl_mul_pow2 by lia.
        pose proof (pow2_pos e2 Hpos2).
        assert (Hlow : 2 <= 2 ^ (- e1))
          by (pose proof (pow2_le 1 (- e1) ltac:(lia)); lia).
        set (A := 2 ^ (- e1)) in *. set (B := 2 ^ e2) in *.
        set (q := Z.pos m1 / A) in *. clearbody A B q.
        assert (Hs1 : 2 * q <= Z.pos m1) by nia.
        assert (Hs2 : Z.pos m2 <= Z.pos m2 * B) by nia.
        lia.
      * rewrite Z.shiftl_div_pow2 by lia.
        pose proof (pow2_pos (- e2) ltac:(lia)) as HB.
        apply Z.div_le_lower_bound; [exact HB|].
        assert (E : 2 ^ (- e1) = 2 ^ (e2 - e1) * 2 ^ (- e2)).
        { rewrite <- (Z.pow_add_r 2 (e2 - e1) (- e2)) by lia.
          f_equal. lia. }
        rewrite E in Hq, Hq0 |- *. clear E HA.
        set (B := 2 ^ (- e2)) in *. set (G := 2 ^ (e2 - e1)) in *.
        set (q := Z.pos m1 / (G * B)) in *. clearbody B G q.
        assert (Hs1 : 2 * (B * q) <= G * (B * q)) by nia.
        nia.
  - destruct (Z.le_gt_cases 0 e2) as [Hpos|Hneg].
    + rewrite !Z.shiftl_mul_pow2 by lia.
      pose proof (pow2_pos e2 Hpos). nia.
    + rewrite !Z.shiftl_div_pow2 by lia.
      apply Z.div_le_mono; [apply pow2_pos|]; lia.
Qed.

Lemma to_uint32_mono (x y : float) (tx ty : Z) :
  (x <=? y)%float = true ->
  Double.to_uint32 x = Some tx ->
  Double.to_uint32 y = Some ty ->
  tx <= ty.
Proof.
  intros Hle Hx Hy.
  pose proof (to_uint32_range _ _ Hx) as [Hx0 _].
  pose proof (to_uint32_range _ _ Hy) as [Hy0 _].
  unfold Double.to_uint32 in Hx, Hy.
  destruct (Double.fits_uint32 x); [|discriminate].
  destruct (Double.fits_uint32 y) eqn:Hfy; [|discriminate].
  injection Hx as <-. injection Hy as <-.
  rewrite FloatAxioms.leb_spec in Hle.
  destruct (Prim2SF x) as [sx| sx| |sx m1 e1] eqn:Ex;
    cbn [Double.SFtrunc] in *; try exact Hy0.
  destruct sx.
  { pose proof (Z.shiftl_nonneg (Z.pos m1) e1). lia. }
  destruct (Prim2SF y) as [sy| sy| |sy m2 e2] eqn:Ey;
    cbn [Double.SFtrunc] in *;
    try (destruct sy; discriminate Hle); try discriminate Hle.
  - (* y infinite: it does not fit *)
    apply andb_true_iff in Hfy as [_ Hfy].
    rewrite FloatAxioms.ltb_spec, Ey, Prim2SF_two32 in Hfy.
    destruct sy; discriminate.
  - destruct sy; [discriminate Hle|].
    destruct (Prim2SF_canonical _ _ _ _ Ex) as [[Hd1 He1]|[Hd1 He1]];
      destruct (Prim2SF_canonical _ _ _ _ Ey) as [[Hd2 He2]|[Hd2 He2]];
      (apply shiftl_canonical_mono; [lia|tauto|lia|]);
      unfold SFleb, SFcompare in Hle;
      (destruct (Z.compare_spec e1 e2) as [Heq|Hlt|Hgt];
       [right; split; [exact Heq|]|left; exact Hlt|discriminate Hle]);
      change (Pos.compare_cont Eq m1 m2) with (Pos.compare m1 m2) in Hle;
      destruct (Pos.compare_spec m1 m2) as [->|Hm|Hm];
      try discriminate Hle; try lia.
Qed.

(** ** [CalcTfrcBps] falls as its arguments grow *)

Lemma TfrcBitsPerSecond_value (rtt loss : float) :
  TfrcBitsPerSecond rtt loss =
    TfrcValue (Double.of_int kAvgPacketSizeBytes)
      (TfrcLossTerm1 loss) (TfrcLossTerm2 loss) rtt.
Proof. reflexivity. Qed.

Lemma tfrc_falls_rtts_sound (n : nat) (s a1 a2 b1 b2 : float) :
  forall (i : int) (prev1 prev2 : float),
    tfrc_falls_rtts n i prev1 prev2 s a1 a2 b1 b2 = true ->
    Uint63.to_Z i + Z.of_nat n < 2 ^ 62 ->
    (0 < Z.of_nat n ->
     (TfrcValue s a1 a2 (PrimFloat.of_uint63 i) <=? prev1)%float = true /\
     (TfrcValue s b1 b2 (PrimFloat.of_uint63 i) <=? prev2)%float = true) /\
    (forall j : int,
       Uint63.to_Z i <= Uint63.to_Z j < Uint63.to_Z i + Z.of_nat n ->
       (TfrcValue s b1 b2 (PrimFloat.of_uint63 j) <=?
        TfrcValue s a1 a2 (PrimFloat.of_uint63 j))%float = true) /\
    (forall j : int,
       Uint63.to_Z i <= Uint63.to_Z j ->
       Uint63.to_Z j + 1 < Uint63.to_Z i + Z.of_nat n ->
       (TfrcValue s a1 a2 (PrimFloat.of_uint63 (j + 1)%uint63) <=?
        TfrcValue s a1 a2 (PrimFloat.of_uint63 j))%float = true /\
       (TfrcValue s b1 b2 (PrimFloat.of_uint63 (j + 1)%uint63) <=?
        TfrcValue s b1 b2 (PrimFloat.of_uint63 j))%float = true).
Proof.
  induction n as [|n IH]; intros i prev1 prev2 Hfit Hno.
  - cbn [Z.of_nat]. repeat split; intros; lia.
  - cbn [tfrc_falls_rtts] in Hfit. cbv zeta in Hfit.
    apply andb_true_iff in Hfit as [Hfit Hrest].
    apply andb_true_iff in Hfit as [Hfit H2].
    apply andb_true_iff in Hfit as [H21 H1].
    pose proof (to_Z_succ i ltac:(lia)) as Hsucc.
    destruct (IH _ _ _ Hrest ltac:(lia)) as (Hfirst & Hpair & Hnext).
    split; [tauto|]. split.
    + intros j Hj.
      destruct (Z.eq_dec (Uint63.to_Z j) (Uint63.to_Z i)) as [Heq|Hne].
      * apply Uint63.to_Z_inj in Heq. now subst j.
      * apply Hpair. lia.
    + intros j Hj Hj1.
      destruct (Z.eq_dec (Uint63.to_Z j) (Uint63.to_Z i)) as [Heq|Hne].
      * apply Uint63.to_Z_inj in Heq. subst j. apply Hfirst. lia.
      * apply Hnext; lia.
Qed.

Lemma tfrc_falls_losses_sound (n : nat) :
  forall i : int,
    tfrc_falls_losses n i = true ->
    Uint63.to_Z i + Z.of_nat n < 2 ^ 62 ->
    forall l r : int,
      Uint63.to_Z i <= Uint63.to_Z l < Uint63.to_Z i + Z.of_nat n ->
      1 <= Uint63.to_Z r <= 65535 ->
      let lo := PrimFloat.of_uint63 l in
      let hi := PrimFloat.of_uint63 (l + 1)%uint63 in
      (TfrcBitsPerSecond (PrimFloat.of_uint63 r) hi <=?
       TfrcBitsPerSecond (PrimFloat.of_uint63 r) lo)%float = true /\
      (Uint63.to_Z r < 65535 ->
       (TfrcBitsPerSecond (PrimFloat.of_uint63 (r + 1)%uint63) lo <=?
        TfrcBitsPerSecond (PrimFloat.of_uint63 r) lo)%float = true /\
       (TfrcBitsPerSecond (PrimFloat.of_uint63 (r + 1)%uint63) hi <=?
        TfrcBitsPerSecond (PrimFloat.of_uint63 r) hi)%float = true).
Proof.
  induction n as [|n IH]; intros i Hfit Hno l r Hl Hr.
  - cbn in Hl. lia.
  - cbn [tfrc_falls_losses] in Hfit. cbv zeta in Hfit.
    apply andb_true_iff in Hfit as [Hi Hrest].
    destruct (Z.eq_dec (Uint63.to_Z l) (Uint63.to_Z i)) as [Heq|Hne].
    + apply Uint63.to_Z_inj in Heq. subst l. cbv zeta.
      rewrite !TfrcBitsPerSecond_value.
      destruct (tfrc_falls_rtts_sound _ _ _ _ _ _ _ _ _ Hi)
        as (_ & Hpair & Hnext).
      { rewrite Z2Nat.id by lia. vm_compute. reflexivity. }
      rewrite Z2Nat.id in Hpair, Hnext by lia.
      change (Uint63.to_Z 1) with 1 in Hpair, Hnext.
      split; [apply Hpair; lia|].
      intros Hr'. apply Hnext; lia.
    + pose proof (to_Z_succ i ltac:(lia)) as Hsucc.
      apply (IH (i + 1)%uint63 Hrest); try rewrite Hsucc; lia.
Qed.


(** The check itself: every non-zero round-trip time, every loss and the
    next one. *)
Lemma tfrc_falls_everywhere :
  tfrc_falls_losses (Z.to_nat 254) 1%uint63 = true.
Proof. vm_cast_no_check (eq_refl true). Qed.

Lemma of_int_succ (z : Z) :
  0 <= z < 65536 ->
  Double.of_int (z + 1) = PrimFloat.of_uint63 (Uint63.of_Z z + 1)%uint63.
Proof.
  intros Hz. unfold Double.of_int. f_equal. apply Uint63.to_Z_inj.
  rewrite to_Z_succ;
    rewrite !of_Z_to_Z_small
      by (change (2 ^ 62) with 4611686018427387904; lia);
    [reflexivity|change (2 ^ 62) with 4611686018427387904; lia].
Qed.

Lemma TfrcBitsPerSecond_falls (rtt loss : Z) :
  1 <= rtt <= 65535 -> 1 <= loss <= 254 ->
  (TfrcBitsPerSecond (Double.of_int rtt) (Double.of_int (loss + 1)) <=?
   TfrcBitsPerSecond (Double.of_int rtt) (Double.of_int loss))%float = true /\
  (rtt < 65535 ->
   (TfrcBitsPerSecond (Double.of_int (rtt + 1)) (Double.of_int loss) <=?
    TfrcBitsPerSecond (Double.of_int rtt) (Double.of_int loss))%float = true
   /\
   (TfrcBitsPerSecond (Double.of_int (rtt + 1)) (Double.of_int (loss + 1)) <=?
    TfrcBitsPerSecond (Double.of_int rtt) (Double.of_int (loss + 1)))%float =
     true).
Proof.
  intros Hr Hl. rewrite !of_int_succ by lia.
  assert (Hsmall : forall z, 0 <= z < 65536 ->
            Uint63.to_Z (Uint63.of_Z z) = z).
  { intros z Hz. apply of_Z_to_Z_small.
    change (2 ^ 62) with 4611686018427387904. lia. }
  destruct (tfrc_falls_losses_sound _ 1%uint63 tfrc_falls_everywhere
              ltac:(vm_compute; reflexivity)
              (Uint63.of_Z loss) (Uint63.of_Z rtt)) as (Hloss & Hrtt).
  - rewrite Hsmall by lia. rewrite Z2Nat.id by lia.
    change (Uint63.to_Z 1) with 1. lia.
  - rewrite Hsmall by lia. lia.
  - split; [exact Hloss|]. intros Hlt. apply Hrtt.
    rewrite Hsmall by lia. exact Hlt.
Qed.

Lemma CalcTfrcBps_value (rtt loss : Z) :
  1 <= rtt <= 65535 -> 1 <= loss <= 255 ->
  Double.to_uint32
    (TfrcBitsPerSecond (Double.of_int rtt) (Double.of_int loss)) =
    Some (TfrcBps rtt loss) /\
  CalcTfrcBps rtt loss = Some (TfrcBps rtt loss).
Proof.
  intros Hr Hl. destruct (TfrcBitsPerSecond_checked rtt loss Hr Hl) as [Hf _].
  assert (E : Double.to_uint32
                (TfrcBitsPerSecond (Double.of_int rtt) (Double.of_int loss)) =
              Some (TfrcBps rtt loss)).
  { unfold Double.to_uint32. rewrite Hf. reflexivity. }
  split; [exact E|]. unfold CalcTfrcBps.
  destruct (Z.eqb_spec rtt 0); [lia|]. destruct (Z.eqb_spec loss 0); [lia|].
  exact E.
Qed.

Lemma TfrcBps_step_rtt (rtt loss : Z) :
  1 <= rtt < 65535 -> 1 <= loss <= 255 ->
  TfrcBps (rtt + 1) loss <= TfrcBps rtt loss.
Proof.
  intros Hr Hl.
  destruct (CalcTfrcBps_value rtt loss) as [E1 _]; [lia|lia|].
  destruct (CalcTfrcBps_value (rtt + 1) loss) as [E2 _]; [lia|lia|].
  refine (to_uint32_mono _ _ _ _ _ E2 E1).
  destruct (Z.eq_dec loss 255) as [->|Hne].
  - change 255 with (254 + 1).
    apply (TfrcBitsPerSecond_falls rtt 254); lia.
  - apply (TfrcBitsPerSecond_falls rtt loss); lia.
Qed.

Lemma TfrcBps_step_loss (rtt loss : Z) :
  1 <= rtt <= 65535 -> 1 <= loss < 255 ->
  TfrcBps rtt (loss + 1) <= TfrcBps rtt loss.
Proof.
  intros Hr Hl.
  destruct (CalcTfrcBps_value rtt loss) as [E1 _]; [lia|lia|].
  destruct (CalcTfrcBps_value rtt (loss + 1)) as [E2 _]; [lia|lia|].
  refine (to_uint32_mono _ _ _ _ _ E2 E1).
  apply (TfrcBitsPerSecond_falls rtt loss); lia.
Qed.

Lemma TfrcBps_falls_rtt (k : nat) :
  forall rtt loss,
    1 <= rtt -> rtt + Z.of_nat k <= 65535 -> 1 <= loss <= 255 ->
    TfrcBps (rtt + Z.of_nat k) loss <= TfrcBps rtt loss.
Proof.
  induction k as [|k IH]; intros rtt loss Hr Hk Hl.
  - cbn [Z.of_nat]. rewrite Z.add_0_r. lia.
  - replace (rtt + Z.of_nat (S k)) with (rtt + Z.of_nat k + 1) by lia.
    pose proof (TfrcBps_step_rtt (rtt + Z.of_nat k) loss ltac:(lia) Hl).
    pose proof (IH rtt loss Hr ltac:(lia) Hl). lia.
Qed.

Lemma TfrcBps_falls_loss (k : nat) :
  forall rtt loss,
    1 <= rtt <= 65535 -> 1 <= loss -> loss + Z.of_nat k <= 255 ->
    TfrcBps rtt (loss + Z.of_nat k) <= TfrcBps rtt loss.
Proof.
  induction k as [|k IH]; intros rtt loss Hr Hl Hk.
  - cbn [Z.of_nat]. rewrite Z.add_0_r. lia.
  - replace (loss + Z.of_nat (S k)) with (loss + Z.of_nat k + 1) by lia.
    pose proof (TfrcBps_step_loss rtt (loss + Z.of_nat k) Hr ltac:(lia)).
    pose proof (IH rtt loss Hr Hl ltac:(lia)). lia.
Qed.

Lemma TfrcBps_falls (rtt1 rtt2 loss1 loss2 : Z) :
  1 <= rtt1 <= rtt2 -> rtt2 <= 65535 ->
  1 <= loss1 <= loss2 -> loss2 <= 255 ->
  TfrcBps rtt2 loss2 <= TfrcBps rtt1 loss1.
Proof.
  intros Hr Hr2 Hl Hl2.
  pose proof (TfrcBps_falls_rtt (Z.to_nat (rtt2 - rtt1)) rtt1 loss1) as H1.
  pose proof (TfrcBps_falls_loss (Z.to_nat (loss2 - loss1)) rtt2 loss1) as H2.
  rewrite Z2Nat.id in H1, H2 by lia.
  replace (rtt1 + (rtt2 - rtt1)) with rtt2 in H1 by lia.
  replace (loss1 + (loss2 - loss1)) with loss2 in H2 by lia.
  specialize (H1 ltac:(lia) ltac:(lia) ltac:(lia)).
  specialize (H2 ltac:(lia) ltac:(lia) ltac:(lia)). lia.
Qed.

Lemma TfrcBps_1_1 : TfrcBps 1 1 = 151124429.
Proof. vm_compute. reflexivity. Qed.

Lemma TfrcBps_1_27 : TfrcBps 1 27 = 13121289.
Proof. vm_compute. reflexivity. Qed.


Lemma CalcTfrcBps_bound (rtt loss : Z) :
  is_uint16 rtt -> is_uint8 loss ->
  exists tfrc,
    CalcTfrcBps rtt loss = Some tfrc /\
    0 <= tfrc <= 151124429 /\ (26 < loss -> tfrc <= 13121289).
Proof.
  unfold is_uint16, is_uint8. intros Hr Hl.
  destruct (Z.eq_dec rtt 0) as [->|Hr0];
    [exists 0; split; [reflexivity|lia]|].
  destruct (Z.eq_dec loss 0) as [->|Hl0].
  { exists 0. split; [|lia]. unfold CalcTfrcBps.
    now rewrite Z.eqb_refl, orb_true_r. }
  exists (TfrcBps rtt loss).
  destruct (CalcTfrcBps_value rtt loss) as [E1 E2]; [lia|lia|].
  split; [exact E2|].
  pose proof (to_uint32_range _ _ E1) as [H0 _].
  pose proof (TfrcBps_falls 1 rtt 1 loss ltac:(lia) ltac:(lia)
                ltac:(lia) ltac:(lia)) as H11.
  rewrite TfrcBps_1_1 in H11. split; [lia|].
  intros H26.
  pose proof (TfrcBps_falls 1 rtt 27 loss ltac:(lia) ltac:(lia)
                ltac:(lia) ltac:(lia)) as H127.
  rewrite TfrcBps_1_27 in H127. exact H127.
Qed.

(** ** Sustained heavy loss *)

Lemma lossy_report_step (fraction_loss rtt now_ms : Z) (s : state) :
  state_ok s ->
  accumulate_expected_packets_ s = 0 ->
  accumulate_lost_packets_Q8_ s = 0 ->
  is_uint8 fraction_loss -> 26 < fraction_loss ->
  is_uint32 rtt -> is_uint32 now_ms ->
  to_uint32 (kBweDecreaseIntervalMs + rtt) <=
    to_uint32 (now_ms - time_last_decrease_ s) ->
  exists tfrc s' out,
    CalcTfrcBps (to_uint16 rtt) fraction_loss = Some tfrc /\
    UpdateReceiverBlock fraction_loss rtt kLimitNumPackets now_ms s =
      Some (s', out) /\
    state_ok s' /\
    accumulate_expected_packets_ s' = 0 /\
    accumulate_lost_packets_Q8_ s' = 0 /\
    time_last_decrease_ s' = now_ms /\
    min_bitrate_configured_ s' = min_bitrate_configured_ s /\
    min_bitrate_configured_ s' <= bitrate_ s' /\
    512 * bitrate_ s' <=
      Z.max (512 * Z.max (min_bitrate_configured_ s) tfrc)
        ((512 - fraction_loss) * bitrate_ s).
Proof.
  intros Hs He Hl Hfl H26 Hrtt Hnow Hc.
  assert (Hs1 : state_ok (reported fraction_loss rtt s))
    by now apply reported_ok.
  destruct (UpdateEstimate_decrease_eq now_ms (reported fraction_loss rtt s)
              Hs1)
    as (tfrc & Et & Htr & Hu).
  { unfold reported. project_state. exact H26. }
  { unfold reported. project_state. exact Hc. }
  unfold reported in Et at 1 2. project_state.
  cbn [last_round_trip_time_ last_fraction_loss_
       set_accumulate_expected_packets set_accumulate_lost_packets_Q8
       set_last_fraction_loss set_last_round_trip_time] in Et.
  exists tfrc, (fst (decreased now_ms tfrc (reported fraction_loss rtt s))),
    (snd (decreased now_ms tfrc (reported fraction_loss rtt s))).
  split; [exact Et|].
  assert (Hrun : UpdateReceiverBlock fraction_loss rtt kLimitNumPackets
                   now_ms s =
                 Some (decreased now_ms tfrc (reported fraction_loss rtt s))).
  { rewrite UpdateReceiverBlock_full; try assumption;
      unfold kLimitNumPackets, is_int, is_uint8, INT_MIN, INT_MAX in *;
      lia. }
  split; [now rewrite <- surjective_pairing|].
  split.
  { apply (UpdateEstimate_ok now_ms (reported fraction_loss rtt s) _
             (snd (decreased now_ms tfrc (reported fraction_loss rtt s)))
             Hnow Hs1).
    now rewrite <- surjective_pairing. }
  pose proof (ok_bitrate s Hs) as Hb.
  unfold decreased. rewrite CapBitrateToThresholds_eq. cbn [fst].
  unfold capped_to_max, capped_to_estimate, reported. project_state.
  split; [reflexivity|]. split; [reflexivity|]. split; [reflexivity|].
  split; [reflexivity|].
  unfold is_uint32, is_uint8 in *.
  pose proof (Z.mul_div_le (bitrate_ s * (512 - fraction_loss)) 512
                ltac:(lia)) as Hd.
  set (d := bitrate_ s * (512 - fraction_loss) / 512) in *. clearbody d.
  destruct (0 <? bwe_incoming_ s); lia.
Qed.

Lemma pow_le_pow (a b : Z) (k : nat) :
  0 <= a <= b -> 0 <= a ^ Z.of_nat k <= b ^ Z.of_nat k.
Proof.
  intros H. split; [apply Z.pow_nonneg; lia|].
  apply Z.pow_le_mono_l. lia.
Qed.

Lemma run_lossy_reports (fraction_loss rtt period : Z) (k : nat) :
  is_uint8 fraction_loss -> 26 < fraction_loss ->
  is_uint32 rtt ->
  to_uint32 (kBweDecreaseIntervalMs + rtt) <= period < 4294967296 ->
  forall (start : Z) (s : state),
    state_ok s ->
    accumulate_expected_packets_ s = 0 ->
    accumulate_lost_packets_Q8_ s = 0 ->
    time_last_decrease_ s = to_uint32 start ->
    exists tfrc s' out,
      CalcTfrcBps (to_uint16 rtt) fraction_loss = Some tfrc /\
      run (periodic_reports fraction_loss rtt start period k) s =
        Some (s', out) /\
      state_ok s' /\
      min_bitrate_configured_ s' = min_bitrate_configured_ s /\
      time_last_decrease_ s' = to_uint32 (start + period * Z.of_nat k) /\
      (0 < Z.of_nat k -> min_bitrate_configured_ s <= bitrate_ s') /\
      512 ^ Z.of_nat k * bitrate_ s' <=
        Z.max (512 ^ Z.of_nat k * Z.max (min_bitrate_configured_ s) tfrc)
          ((512 - fraction_loss) ^ Z.of_nat k * bitrate_ s).
Proof.
  intros Hfl H26 Hrtt Hp.
  destruct (CalcTfrcBps_defined (to_uint16 rtt) fraction_loss)
    as (tfrc & Et & Htr); [apply to_uint16_is_uint16|assumption|].
  induction k as [|k IH]; intros start s Hs He Hl Ht.
  - exists tfrc, s, []. cbn [periodic_reports run Z.of_nat].
    rewrite !Z.mul_0_r, !Z.add_0_r, !Z.pow_0_r.
    split; [exact Et|]. split; [reflexivity|]. split; [assumption|].
    split; [reflexivity|]. split; [assumption|]. split; lia.
  - cbn [periodic_reports run step].
    destruct (lossy_report_step fraction_loss rtt
                (to_uint32 (start + period)) s)
      as (tfrc1 & s1 & out1 & Et1 & Hstep & Hs1 & He1 & Hl1 & Ht1 & Hm1
          & Hlo1 & Hb1);
      try assumption.
    { apply to_uint32_is_uint32. }
    { rewrite Ht, to_uint32_period; [tauto|].
      pose proof (to_uint32_is_uint32 (kBweDecreaseIntervalMs + rtt)) as Hu.
      unfold is_uint32 in Hu. lia. }
    rewrite Et in Et1. injection Et1 as <-.
    rewrite Hstep.
    destruct (IH (start + period) s1 Hs1 He1 Hl1 Ht1)
      as (tfrc2 & s2 & out2 & Et2 & Hrun & Hs2 & Hm2 & Ht2 & Hlo2 & Hb2).
    rewrite Et in Et2. injection Et2 as <-.
    rewrite Hrun. exists tfrc, s2, (out1 ++ out2). rewrite Hm1 in *.
    split; [exact Et|]. split; [reflexivity|]. split; [assumption|].
    split; [assumption|].
    split; [rewrite Ht2; f_equal; lia|].
    pose proof (ok_bitrate s Hs) as Hb0. pose proof (ok_bitrate s1 Hs1) as Hb1'.
    pose proof (ok_bitrate s2 Hs2) as Hb2'.
    unfold is_uint32, is_uint8 in *.
    split.
    { intros _. destruct k as [|k'].
      - cbn [periodic_reports run] in Hrun. injection Hrun as <- _. lia.
      - apply Hlo2. lia. }
    rewrite Nat2Z.inj_succ, !Z.pow_succ_r by lia.
    pose proof (pow_le_pow (512 - fraction_loss) 512 k ltac:(lia))
      as (Hq0 & Hq).
    assert (Hp0 : 0 < 512 ^ Z.of_nat k) by (apply Z.pow_pos_nonneg; lia).
    set (P := 512 ^ Z.of_nat k) in *.
    set (Q := (512 - fraction_loss) ^ Z.of_nat k) in *.
    set (F := Z.max (min_bitrate_configured_ s) tfrc) in *.
    assert (HF : 0 <= F) by (unfold F; lia).
    clearbody P Q F.
    destruct (Z.max_spec (P * F) (Q * bitrate_ s1)) as [[_ E]|[_ E]];
      rewrite E in Hb2; clear E;
      destruct (Z.max_spec (512 * F) ((512 - fraction_loss) * bitrate_ s))
        as [[_ E]|[_ E]]; rewrite E in Hb1; clear E.
    + assert (512 * (Q * bitrate_ s1) <=
              Q * ((512 - fraction_loss) * bitrate_ s)) by nia. nia.
    + assert (512 * (Q * bitrate_ s1) <= Q * (512 * F)) by nia.
      assert (Q * (512 * F) <= P * (512 * F)) by nia. nia.
    + nia.
    + nia.
Qed.

(** ** Timestamps *)

Lemma to_uint32_zero_diff (z : Z) : to_uint32 (z - z) = 0.
Proof. rewrite Z.sub_diag. reflexivity. Qed.

Lemma to_uint32_before (a b : Z) :
  is_uint32 a -> is_uint32 b -> a < b ->
  to_uint32 (a - b) = a - b + 4294967296.
Proof.
  unfold is_uint32, to_uint32. intros Ha Hb Hlt. symmetry.
  apply Z.mod_unique with (q := -1); lia.
Qed.

(** ** Where the calls are not defined *)

Lemma round_1_08_limit (b : Z) :
  4294967296 <= round_1_08 b <-> safe_bitrate_limit < b.
Proof.
  split.
  - intros Hr.
    destruct (Z.le_gt_cases b safe_bitrate_limit) as [Hle|Hgt];
      [|exact Hgt].
    pose proof (safe_bitrate_limit_round _ Hle). lia.
  - unfold safe_bitrate_limit, round_1_08. intros Hb.
    apply Z.div_le_lower_bound; lia.
Qed.

Lemma UpdateEstimate_none_iff (now_ms : Z) (s : state) :
  state_ok s ->
  UpdateEstimate now_ms s = None <->
  last_fraction_loss_ s <= 5 /\
  kBweIncreaseIntervalMs <= to_uint32 (now_ms - time_last_increase_ s) /\
  4294967296 <= round_1_08 (bitrate_ s).
Proof.
  intros Hs. pose proof Hs as [? ? ? ? ? ? ? ? ? ?]. split.
  - intros Hnone.
    assert (Hr : 4294967296 <= round_1_08 (bitrate_ s)).
    { destruct (Z.le_gt_cases 4294967296 (round_1_08 (bitrate_ s)))
        as [Hle|Hgt]; [exact Hle|].
      destruct (UpdateEstimate_defined now_ms s Hs) as (o & Ho); [lia|].
      congruence. }
    destruct (Z.le_gt_cases (last_fraction_loss_ s) 5) as [H5|H5].
    + destruct (Z.le_gt_cases kBweIncreaseIntervalMs
                  (to_uint32 (now_ms - time_last_increase_ s))) as [Hc|Hc];
        [tauto|].
      rewrite UpdateEstimate_hold in Hnone by (left; split; assumption).
      discriminate.
    + destruct (Z.le_gt_cases (last_fraction_loss_ s) 26) as [H26|H26].
      * rewrite UpdateEstimate_hold in Hnone by (right; left; lia).
        discriminate.
      * destruct (Z.le_gt_cases
                    (to_uint32
                       (kBweDecreaseIntervalMs + last_round_trip_time_ s))
                    (to_uint32 (now_ms - time_last_decrease_ s))) as [Hc|Hc].
        -- destruct (UpdateEstimate_decrease_eq _ _ Hs H26 Hc)
             as (tfrc & _ & _ & E). congruence.
        -- rewrite UpdateEstimate_hold in Hnone
             by (right; right; split; assumption).
           discriminate.
  - intros (H5 & Hc & Hr). rewrite (UpdateEstimate_increase _ _ H5 Hc).
    rewrite IncreasedBitrate_eq by assumption. unfold round_1_08 in Hr.
    destruct (Z.ltb_spec ((108 * bitrate_ s + 50) / 100) 4294967296);
      [lia|reflexivity].
Qed.

Lemma UpdateReceiverBlock_overflow
    (fraction_loss rtt number_of_packets now_ms : Z) (s : state) :
  0 < number_of_packets ->
  ~ no_int_overflow fraction_loss number_of_packets s ->
  UpdateReceiverBlock fraction_loss rtt number_of_packets now_ms s = None.
Proof.
  intros Hpos Hov.
  destruct (UpdateReceiverBlock _ _ _ _ s) as [o|] eqn:E; [|reflexivity].
  exfalso. apply Hov. exact (UpdateReceiverBlock_defined _ _ _ _ _ _ Hpos E).
Qed.

(** ** The increase on all of [uint32_t] *)

Lemma round_1_08_fits (b : Z) :
  round_1_08 b < 4294967296 <-> b <= 3976821569.
Proof.
  pose proof (round_1_08_limit b) as H. unfold safe_bitrate_limit in H. lia.
Qed.

Lemma round_1_08_no_wrap (b : Z) :
  round_1_08 b + 1000 < 4294967296 <-> b <= no_wrap_bitrate_limit.
Proof.
  unfold round_1_08, no_wrap_bitrate_limit. split.
  - intros H.
    destruct (Z.le_gt_cases b 3976820643) as [Hle|Hgt]; [exact Hle|].
    assert (4294966296 <= (108 * b + 50) / 100)
      by (apply Z.div_le_lower_bound; lia).
    lia.
  - intros H.
    assert ((108 * b + 50) / 100 < 4294966296)
      by (apply Z.div_lt_upper_bound; lia).
    lia.
Qed.

Lemma UpdateEstimate_increase_uint32 (now_ms : Z) (s : state) :
  state_ok s ->
  last_fraction_loss_ s <= 5 ->
  kBweIncreaseIntervalMs <= to_uint32 (now_ms - time_last_increase_ s) ->
  UpdateEstimate now_ms s =
    if round_1_08 (bitrate_ s) <? 4294967296
    then Some (increased_uint32 now_ms s) else None.
Proof.
  intros Hs H5 Hc. rewrite (UpdateEstimate_increase _ _ H5 Hc).
  rewrite IncreasedBitrate_eq by apply (ok_bitrate s Hs).
  fold (round_1_08 (bitrate_ s)).
  destruct (round_1_08 (bitrate_ s) <? 4294967296); reflexivity.
Qed.

Lemma increased_uint32_frame (now_ms : Z) (s : state) :
  time_last_increase_ (fst (increased_uint32 now_ms s)) = now_ms /\
  accumulate_expected_packets_ (fst (increased_uint32 now_ms s)) =
    accumulate_expected_packets_ s /\
  accumulate_lost_packets_Q8_ (fst (increased_uint32 now_ms s)) =
    accumulate_lost_packets_Q8_ s.
Proof.
  unfold increased_uint32. rewrite CapBitrateToThresholds_eq.
  repeat split.
Qed.

Lemma increased_uint32_ok (now_ms : Z) (s : state) :
  is_uint32 now_ms -> state_ok s ->
  state_ok (fst (increased_uint32 now_ms s)).
Proof.
  intros Hnow [? ? ? ? ? ? ? ? ? ?]. unfold increased_uint32.
  apply CapBitrateToThresholds_ok.
  constructor; simpl_state; try assumption. apply to_uint32_is_uint32.
Qed.

(** * The properties of the specification *)

(** ** Bounds *)

(** C1, as the specification states it, fails on three counts: the clamp
    raises the bitrate to the configured minimum last, so a positive receiver
    estimate below the minimum is exceeded; for the same reason a maximum
    below the minimum is exceeded; and a report that returns early does not
    clamp at all. *)
Lemma C1_counterexample :
  (exists s out,
     run [CallSetMinMaxBitrate 50000 1000000; CallSetSendBitrate 300000;
          CallUpdateReceiverEstimate 30000] initial = Some (s, out) /\
     0 < bwe_incoming_ s /\ ~ bitrate_ s <= bwe_incoming_ s) /\
  (exists s out,
     run [CallSetMinMaxBitrate 100000 50000; CallSetSendBitrate 70000;
          CallUpdateReceiverEstimate 0] initial = Some (s, out) /\
     ~ bitrate_ s <= max_bitrate_configured_ s) /\
  (exists s out,
     run [CallSetMinMaxBitrate 50000 1000000; CallSetSendBitrate 10000;
          CallUpdateReceiverBlock 0 50 5 1000] initial = Some (s, out) /\
     ~ min_bitrate_configured_ s <= bitrate_ s).
Proof.
  split; [|split]; eexists; eexists; (split; [reflexivity|]); cbn; lia.
Qed.

(** C1 (amended): for every sequence of calls, after a call of
    [UpdateReceiverEstimate], or of [UpdateReceiverBlock] that reaches rate
    adaptation, the bitrate is at least the configured minimum, at most the
    larger of the configured minimum and maximum, and, when the receiver
    estimate is positive, at most the larger of the minimum and the
    estimate; so the bounds hold as the specification words them whenever
    the minimum is not above the maximum or a positive estimate. *)
Theorem C1_bounds_after_update
    (cs : list call) (c : call) (s s' : state) (out out' : list trace_msg) :
  run cs initial = Some (s, out) ->
  step c s = Some (s', out') ->
  reaches_clamp c s ->
  run (cs ++ [c]) initial = Some (s', out ++ out') /\
  min_bitrate_configured_ s' <= bitrate_ s' /\
  bitrate_ s' <=
    Z.max (min_bitrate_configured_ s') (max_bitrate_configured_ s') /\
  (0 < bwe_incoming_ s' ->
   bitrate_ s' <= Z.max (min_bitrate_configured_ s') (bwe_incoming_ s')) /\
  (min_bitrate_configured_ s' <= max_bitrate_configured_ s' ->
   (0 < bwe_incoming_ s' -> min_bitrate_configured_ s' <= bwe_incoming_ s') ->
   within_bounds s').
Proof.
  intros Hrun Hstep Hreach.
  destruct (step_reaches_clamp c s s' out' Hstep Hreach) as (Hc & _).
  split.
  - rewrite run_app, Hrun, run_single, Hstep. now rewrite app_nil_r.
  - pose proof (clamped_within_bounds s' Hc) as Hw.
    destruct Hc as (H1 & H2 & H3). auto.
Qed.

Lemma C1_bounds_after_update_witness :
  exists s',
    run ([CallSetMinMaxBitrate 50000 1000000; CallSetSendBitrate 300000] ++
         [CallUpdateReceiverEstimate 30000]) initial =
      Some (s', [] ++ [min_bitrate_warning
                         (set_bwe_incoming 30000
                            (configured 50000 1000000 300000))]) /\
    min_bitrate_configured_ s' <= bitrate_ s' /\
    bitrate_ s' <=
      Z.max (min_bitrate_configured_ s') (max_bitrate_configured_ s') /\
    (0 < bwe_incoming_ s' ->
     bitrate_ s' <= Z.max (min_bitrate_configured_ s') (bwe_incoming_ s')) /\
    (min_bitrate_configured_ s' <= max_bitrate_configured_ s' ->
     (0 < bwe_incoming_ s' ->
      min_bitrate_configured_ s' <= bwe_incoming_ s') ->
     within_bounds s').
Proof.
  eexists.
  apply (C1_bounds_after_update
           [CallSetMinMaxBitrate 50000 1000000; CallSetSendBitrate 300000]
           (CallUpdateReceiverEstimate 30000)
           (configured 50000 1000000 300000)).
  - reflexivity.
  - reflexivity.
  - exact I.
Defined.

(** C5: the clamp replaces the bitrate [b] by
    [max (min_bitrate, min (max_bitrate, if 0 < estimate then min (b,
    estimate) else b))] and changes nothing else: the receiver estimate caps
    first, the configured maximum second, the configured minimum last and so
    over both.  It emits one warning, carrying the minimum and the capped
    value in kbps, exactly when the capped value is below the minimum, and
    never refuses. *)
Theorem C5_clamp_order (s : state) :
  let capped :=
    Z.min (max_bitrate_configured_ s)
      (if 0 <? bwe_incoming_ s then Z.min (bitrate_ s) (bwe_incoming_ s)
       else bitrate_ s) in
  CapBitrateToThresholds s =
    (set_bitrate (Z.max (min_bitrate_configured_ s) capped) s,
     if capped <? min_bitrate_configured_ s
     then [ {| trace_level := kTraceWarning;
               trace_module := kTraceRtpRtcp;
               trace_id := -1;
               trace_min_kbps := min_bitrate_configured_ s / 1000;
               trace_estimate_kbps := capped / 1000 |} ]
     else []).
Proof. exact (CapBitrateToThresholds_eq s). Qed.

(** C10: [UpdateReceiverEstimate] raises the bitrate as well: called while
    the bitrate is below the configured minimum, it leaves the bitrate at
    exactly the minimum, whatever the estimate, and reports it. *)
Theorem C10_estimate_raises_to_minimum (bandwidth : Z) (s : state) :
  bitrate_ s < min_bitrate_configured_ s ->
  let s' := fst (UpdateReceiverEstimate bandwidth s) in
  bitrate_ s' = min_bitrate_configured_ s /\
  bitrate_ s < bitrate_ s' /\
  min_bitrate_configured_ s' = min_bitrate_configured_ s /\
  bwe_incoming_ s' = bandwidth /\
  snd (UpdateReceiverEstimate bandwidth s) <> [].
Proof.
  intros Hlow. unfold UpdateReceiverEstimate.
  rewrite CapBitrateToThresholds_eq.
  unfold capped_to_max, capped_to_estimate. simpl_state.
  assert (Hc : Z.min (max_bitrate_configured_ s)
                 (if 0 <? bandwidth then Z.min (bitrate_ s) bandwidth
                  else bitrate_ s) < min_bitrate_configured_ s)
    by (destruct (Z.ltb_spec 0 bandwidth); lia).
  destruct (Z.ltb_spec
              (Z.min (max_bitrate_configured_ s)
                 (if 0 <? bandwidth then Z.min (bitrate_ s) bandwidth
                  else bitrate_ s)) (min_bitrate_configured_ s)); [|lia].
  repeat split; try lia. discriminate.
Qed.

Lemma C10_estimate_raises_to_minimum_witness :
  let s := configured 50000 1000000 10000 in
  let s' := fst (UpdateReceiverEstimate 4000000 s) in
  bitrate_ s' = min_bitrate_configured_ s /\
  bitrate_ s < bitrate_ s' /\
  min_bitrate_configured_ s' = min_bitrate_configured_ s /\
  bwe_incoming_ s' = 4000000 /\
  snd (UpdateReceiverEstimate 4000000 s) <> [].
Proof.
  apply (C10_estimate_raises_to_minimum 4000000
           (configured 50000 1000000 10000)).
  cbn. lia.
Defined.

(** ** Sample gating *)

(** C2: reports of positive packet counts that, since the last commit, add
    up to fewer than 20 expected packets only add to the two accumulators
    (and store the round-trip time): they change neither the bitrate nor the
    loss fraction and emit nothing.  The report with which the count reaches
    20 stores the integer quotient of the accumulated lost packets (Q8) by
    the accumulated expected packets as the loss fraction, resets both
    accumulators and runs [UpdateEstimate]. *)
Theorem C2_sample_gating (s : state) (rs : list report) (r : report) :
  accumulate_expected_packets_ s = 0 ->
  accumulate_lost_packets_Q8_ s = 0 ->
  Forall report_ok rs ->
  report_ok r ->
  expected_packets rs < kLimitNumPackets ->
  kLimitNumPackets <= expected_packets rs + report_number_of_packets r ->
  is_int (lost_packets_Q8 rs +
          report_fraction_loss r * report_number_of_packets r) ->
  is_int (expected_packets rs + report_number_of_packets r) ->
  exists s1,
    run (map report_call rs) s = Some (s1, []) /\
    bitrate_ s1 = bitrate_ s /\
    last_fraction_loss_ s1 = last_fraction_loss_ s /\
    time_last_increase_ s1 = time_last_increase_ s /\
    time_last_decrease_ s1 = time_last_decrease_ s /\
    accumulate_expected_packets_ s1 = expected_packets rs /\
    accumulate_lost_packets_Q8_ s1 = lost_packets_Q8 rs /\
    step (report_call r) s1 =
      UpdateEstimate (report_now_ms r)
        (set_accumulate_expected_packets 0
           (set_accumulate_lost_packets_Q8 0
              (set_last_fraction_loss
                 ((lost_packets_Q8 rs +
                   report_fraction_loss r * report_number_of_packets r) /
                  (expected_packets rs + report_number_of_packets r))
                 (set_last_round_trip_time (report_rtt r) s1)))).
Proof.
  intros He0 Hl0 Hrs Hr Hlt Hge Hil Hie.
  pose proof (expected_packets_pos rs Hrs) as Hpos.
  pose proof (lost_packets_Q8_bounds rs Hrs) as Hlb.
  destruct (run_reports_below_limit rs s Hrs) as
    (s1 & Hrun & Hexp & Hlost & Hb & Hf & _ & _ & _ & Hti & Htd).
  { unfold accumulators_ok, kLimitNumPackets. lia. }
  { lia. }
  rewrite He0 in Hexp. rewrite Hl0 in Hlost. cbn in Hexp, Hlost.
  exists s1. repeat (split; [assumption|]).
  destruct Hr as (Hfl & _ & Hn & _ & _). unfold is_uint8 in Hfl.
  set (n := report_number_of_packets r) in *.
  set (f := report_fraction_loss r) in *.
  assert (Hfn : 0 <= f * n <= 255 * n) by nia.
  unfold report_call. cbn [step]. fold n f.
  rewrite UpdateReceiverBlock_commit.
  - unfold committed. rewrite Hexp, Hlost.
    destruct (committed_fraction_loss (lost_packets_Q8 rs + f * n)
                (expected_packets rs + n)) as [-> _]; [lia|lia|].
    reflexivity.
  - exact Hn.
  - unfold no_int_overflow. rewrite Hexp, Hlost.
    unfold is_int, INT_MIN, INT_MAX in *. lia.
  - lia.
Qed.

Lemma C2_sample_gating_witness :
  let s := configured 50000 1000000 300000 in
  let rs := [ {| report_fraction_loss := 10; report_rtt := 50;
                 report_number_of_packets := 8; report_now_ms := 2000 |};
              {| report_fraction_loss := 40; report_rtt := 60;
                 report_number_of_packets := 11; report_now_ms := 2100 |} ] in
  let r := {| report_fraction_loss := 100; report_rtt := 70;
              report_number_of_packets := 6; report_now_ms := 2200 |} in
  exists s1,
    run (map report_call rs) s = Some (s1, []) /\
    bitrate_ s1 = bitrate_ s /\
    last_fraction_loss_ s1 = last_fraction_loss_ s /\
    time_last_increase_ s1 = time_last_increase_ s /\
    time_last_decrease_ s1 = time_last_decrease_ s /\
    accumulate_expected_packets_ s1 = expected_packets rs /\
    accumulate_lost_packets_Q8_ s1 = lost_packets_Q8 rs /\
    step (report_call r) s1 =
      UpdateEstimate (report_now_ms r)
        (set_accumulate_expected_packets 0
           (set_accumulate_lost_packets_Q8 0
              (set_last_fraction_loss
                 ((lost_packets_Q8 rs +
                   report_fraction_loss r * report_number_of_packets r) /
                  (expected_packets rs + report_number_of_packets r))
                 (set_last_round_trip_time (report_rtt r) s1)))).
Proof.
  intros s rs r.
  apply (C2_sample_gating s rs r).
  - reflexivity.
  - reflexivity.
  - repeat constructor; unfold is_uint8, is_uint32, is_int, INT_MIN, INT_MAX;
      cbn; lia.
  - repeat split; unfold is_uint8, is_uint32, is_int, INT_MIN, INT_MAX;
      cbn; lia.
  - vm_compute. reflexivity.
  - vm_compute. discriminate.
  - unfold is_int, INT_MIN, INT_MAX. cbn. lia.
  - unfold is_int, INT_MIN, INT_MAX. cbn. lia.
Defined.

(** ** Where the clamp runs *)

(** C6, as the specification states it, fails: none of the three setters
    clamps, so right after one of them the bitrate can lie below the
    configured minimum. *)
Lemma C6_counterexample :
  (exists s out,
     run [CallSetMinMaxBitrate 50000 1000000; CallSetSendBitrate 10000]
       initial = Some (s, out) /\
     ~ min_bitrate_configured_ s <= bitrate_ s) /\
  (exists s out,
     run [CallSetSendBitrate 300000; CallSetMinMaxBitrate 400000 1000000]
       initial = Some (s, out) /\
     ~ min_bitrate_configured_ s <= bitrate_ s) /\
  (exists s out,
     run [CallSetMinMaxBitrate 50000 1000000; CallSetSendBitrate 300000;
          CallUpdateReceiverEstimate 0; CallSetMinBitrate 400000]
       initial = Some (s, out) /\
     ~ min_bitrate_configured_ s <= bitrate_ s).
Proof.
  split; [|split]; eexists; eexists; (split; [reflexivity|]); cbn; lia.
Qed.

(** C6 (amended): the clamp is the last step of [UpdateReceiverEstimate] and
    of [UpdateEstimate], and of no setter.  [SetSendBitrate],
    [SetMinMaxBitrate] and [SetMinBitrate] store their arguments, change no
    other member and emit nothing; the bitrate is brought into the clamped
    region of the bounds then in force by the next call of
    [UpdateReceiverEstimate], or of [UpdateReceiverBlock] that reaches rate
    adaptation. *)
Theorem C6_clamp_on_next_update
    (c u : call) (s s1 s2 : state) (out1 out2 : list trace_msg) :
  is_setter c ->
  step c s = Some (s1, out1) ->
  step u s1 = Some (s2, out2) ->
  reaches_clamp u s1 ->
  out1 = [] /\
  bitrate_ s1 =
    match c with CallSetSendBitrate b => b | _ => bitrate_ s end /\
  min_bitrate_configured_ s1 =
    match c with
    | CallSetMinMaxBitrate mn _ | CallSetMinBitrate mn => mn
    | _ => min_bitrate_configured_ s
    end /\
  max_bitrate_configured_ s1 =
    match c with
    | CallSetMinMaxBitrate _ mx => mx
    | _ => max_bitrate_configured_ s
    end /\
  bwe_incoming_ s1 = bwe_incoming_ s /\
  last_fraction_loss_ s1 = last_fraction_loss_ s /\
  last_round_trip_time_ s1 = last_round_trip_time_ s /\
  accumulate_lost_packets_Q8_ s1 = accumulate_lost_packets_Q8_ s /\
  accumulate_expected_packets_ s1 = accumulate_expected_packets_ s /\
  time_last_increase_ s1 = time_last_increase_ s /\
  time_last_decrease_ s1 = time_last_decrease_ s /\
  clamped s2 /\
  min_bitrate_configured_ s2 = min_bitrate_configured_ s1 /\
  max_bitrate_configured_ s2 = max_bitrate_configured_ s1.
Proof.
  intros Hc Hs Hu Hr.
  destruct (step_reaches_clamp u s1 s2 out2 Hu Hr) as (Hcl & Hmn & Hmx).
  destruct c; cbn in Hc; try contradiction; cbn in Hs;
    injection Hs as <- <-; cbn; repeat (split; [reflexivity|]);
    auto.
Qed.

Lemma C6_clamp_on_next_update_witness :
  let s := SetMinMaxBitrate 50000 1000000 initial in
  let s1 := SetSendBitrate 10000 s in
  let s2 := fst (UpdateReceiverEstimate 0 s1) in
  @nil trace_msg = [] /\
  bitrate_ s1 = 10000 /\
  min_bitrate_configured_ s1 = min_bitrate_configured_ s /\
  max_bitrate_configured_ s1 = max_bitrate_configured_ s /\
  bwe_incoming_ s1 = bwe_incoming_ s /\
  last_fraction_loss_ s1 = last_fraction_loss_ s /\
  last_round_trip_time_ s1 = last_round_trip_time_ s /\
  accumulate_lost_packets_Q8_ s1 = accumulate_lost_packets_Q8_ s /\
  accumulate_expected_packets_ s1 = accumulate_expected_packets_ s /\
  time_last_increase_ s1 = time_last_increase_ s /\
  time_last_decrease_ s1 = time_last_decrease_ s /\
  clamped s2 /\
  min_bitrate_configured_ s2 = min_bitrate_configured_ s1 /\
  max_bitrate_configured_ s2 = max_bitrate_configured_ s1.
Proof.
  intros s s1 s2.
  apply (C6_clamp_on_next_update (CallSetSendBitrate 10000)
           (CallUpdateReceiverEstimate 0) s s1 s2 []
           (snd (UpdateReceiverEstimate 0 s1))).
  - exact I.
  - reflexivity.
  - reflexivity.
  - exact I.
Defined.

(** ** Decrease *)



(** C9: [CalcTfrcBps] takes the round-trip time as a [uint16_t], so it sees
    the stored 32-bit value modulo 65536.  For a stored round-trip time that
    is a positive multiple of 65536 and a loss fraction above 26, the floor
    computed during a decrease is 0 and the bitrate handed to the clamp is
    the multiplicative decrease alone. *)
Theorem C9_rtt_truncated_to_16_bits (now_ms k : Z) (s : state) :
  state_ok s ->
  0 < k ->
  last_round_trip_time_ s = 65536 * k ->
  26 < last_fraction_loss_ s ->
  to_uint32 (kBweDecreaseIntervalMs + last_round_trip_time_ s) <=
    to_uint32 (now_ms - time_last_decrease_ s) ->
  last_round_trip_time_ s <> 0 /\
  last_fraction_loss_ s <> 0 /\
  CalcTfrcBps (to_uint16 (last_round_trip_time_ s)) (last_fraction_loss_ s) =
    Some 0 /\
  UpdateEstimate now_ms s =
    Some (CapBitrateToThresholds
            (set_bitrate (bitrate_ s * (512 - last_fraction_loss_ s) / 512)
               (set_time_last_decrease now_ms s))).
Proof.
  intros Hs Hk Hrtt Hl Ht.
  assert (H16 : to_uint16 (last_round_trip_time_ s) = 0).
  { unfold to_uint16. rewrite Hrtt, Z.mul_comm. apply Z.mod_mul. lia. }
  split; [lia|]. split; [lia|].
  destruct (UpdateEstimate_decrease_eq now_ms s Hs Hl Ht)
    as (tfrc & Htfrc & _ & Hupd).
  rewrite H16 in *. unfold CalcTfrcBps in Htfrc. cbn [Z.eqb orb] in Htfrc.
  injection Htfrc as <-. split; [reflexivity|].
  rewrite Hupd. unfold decreased. rewrite Z.max_l; [reflexivity|].
  pose proof Hs as [_ _ Hb _ _ Hl8 _ _ _ _].
  apply (decreased_is_uint32 _ _ Hb Hl8).
Qed.

Lemma C9_rtt_truncated_to_16_bits_witness :
  let s := observing 50000 1000000 300000 200 65536 in
  last_round_trip_time_ s <> 0 /\
  last_fraction_loss_ s <> 0 /\
  CalcTfrcBps (to_uint16 (last_round_trip_time_ s)) (last_fraction_loss_ s) =
    Some 0 /\
  UpdateEstimate 70000 s =
    Some (CapBitrateToThresholds
            (set_bitrate (bitrate_ s * (512 - last_fraction_loss_ s) / 512)
               (set_time_last_decrease 70000 s))).
Proof.
  intros s.
  apply (C9_rtt_truncated_to_16_bits 70000 1
           (observing 50000 1000000 300000 200 65536)).
  - apply observing_ok; unfold is_uint32, is_uint8; lia.
  - lia.
  - reflexivity.
  - cbn. lia.
  - vm_compute. discriminate.
Defined.

(** ** The TFRC floor *)

(** C7: [CalcTfrcBps] returns 0 when its round-trip time or its loss is 0,
    so the maximum with it leaves the multiplicative decrease as it is, and
    nothing faults.  For every other input it returns, without leaving
    [uint32_t], the truncation of the value the specification gives: the
    throughput equation of RFC 3448 with [s = 1000], [b = 1] and
    [t_RTO = 4 R], in bits per second. *)
Theorem C7_tfrc_floor (rtt loss : Z) :
  is_uint16 rtt -> is_uint8 loss ->
  exists tfrc,
    CalcTfrcBps rtt loss = Some tfrc /\
    is_uint32 tfrc /\
    (rtt = 0 \/ loss = 0 ->
     tfrc = 0 /\ forall rate, 0 <= rate -> Z.max rate tfrc = rate) /\
    (rtt <> 0 -> loss <> 0 ->
     Double.to_uint32
       (spec_tfrc_bps (Double.of_int rtt) (Double.of_int loss)) =
       Some tfrc).
Proof.
  intros Hr Hl.
  destruct (CalcTfrcBps_defined rtt loss Hr Hl) as (tfrc & Htfrc & Hrange).
  exists tfrc. split; [exact Htfrc|]. split; [exact Hrange|].
  unfold CalcTfrcBps in Htfrc. split.
  - intros Hz.
    assert (Hb : (rtt =? 0) || (loss =? 0) = true).
    { destruct Hz as [->| ->]; [reflexivity|]. apply orb_true_r. }
    rewrite Hb in Htfrc. injection Htfrc as <-.
    split; [reflexivity|]. intros rate Hrate. apply Z.max_l. exact Hrate.
  - intros Hr0 Hl0.
    destruct (Z.eqb_spec rtt 0); [contradiction|].
    destruct (Z.eqb_spec loss 0); [contradiction|].
    cbn [orb] in Htfrc. unfold is_uint16, is_uint8 in *.
    destruct (TfrcBitsPerSecond_checked rtt loss) as [_ ->]; try lia.
    exact Htfrc.
Qed.

Lemma C7_tfrc_floor_witness :
  exists tfrc,
    CalcTfrcBps 100 200 = Some tfrc /\
    is_uint32 tfrc /\
    (100 = 0 \/ 200 = 0 ->
     tfrc = 0 /\ forall rate, 0 <= rate -> Z.max rate tfrc = rate) /\
    (100 <> 0 -> 200 <> 0 ->
     Double.to_uint32
       (spec_tfrc_bps (Double.of_int 100) (Double.of_int 200)) =
       Some tfrc).
Proof.
  apply (C7_tfrc_floor 100 200); unfold is_uint16, is_uint8; lia.
Defined.

(** ** Increase *)

(** C4, as the specification states it, fails where [uint32_t] ends: the
    sum [bitrate_ += 1000] is taken modulo [2^32].  From a bitrate of
    3976821000, with bounds that leave the clamp nothing to do, the rounded
    product plus 1000 is 4294967680, and the increase, which is due and
    defined, leaves a bitrate of 384. *)
Lemma C4_counterexample :
  last_fraction_loss_ (observing 0 4294967295 3976821000 0 50) <= 5 /\
  kBweIncreaseIntervalMs <=
    to_uint32
      (1000 -
       time_last_increase_ (observing 0 4294967295 3976821000 0 50)) /\
  round_1_08 (bitrate_ (observing 0 4294967295 3976821000 0 50)) + 1000 =
    4294967680 /\
  (exists s' out,
     UpdateEstimate 1000 (observing 0 4294967295 3976821000 0 50) =
       Some (s', out) /\
     bitrate_ s' = 384 /\
     time_last_increase_ s' = 1000) /\
  UpdateEstimate 1000 (observing 0 4294967295 3976821000 0 50) =
    Some (CapBitrateToThresholds
            (set_bitrate 384
               (set_time_last_increase 1000
                  (observing 0 4294967295 3976821000 0 50)))) /\
  UpdateEstimate 1000 (observing 0 4294967295 3976821000 0 50) <>
    Some (CapBitrateToThresholds
            (set_bitrate
               (round_1_08
                  (bitrate_ (observing 0 4294967295 3976821000 0 50)) + 1000)
               (set_time_last_increase 1000
                  (observing 0 4294967295 3976821000 0 50)))).
Proof.
  assert (E : UpdateEstimate 1000 (observing 0 4294967295 3976821000 0 50) =
              Some (CapBitrateToThresholds
                      (set_bitrate 384
                         (set_time_last_increase 1000
                            (observing 0 4294967295 3976821000 0 50))))).
  { rewrite UpdateEstimate_increase_uint32.
    - reflexivity.
    - apply observing_ok; unfold is_uint32, is_uint8; lia.
    - cbn. lia.
    - vm_compute. discriminate. }
  split; [cbn; lia|]. split; [vm_compute; discriminate|].
  split; [reflexivity|]. split; [|split; [exact E|]].
  - eexists; eexists. split; [rewrite E; reflexivity|].
    split; reflexivity.
  - rewrite E. intros H. apply (f_equal (option_map (fun o => bitrate_ (fst o))))
      in H.
    vm_compute in H. discriminate H.
Qed.

(** C4 (amended): when [UpdateEstimate] runs with a loss fraction of at
    most 5 and the unsigned 32-bit difference [now_ms - time_last_increase]
    is at least 1000, and [bitrate * 1.08] rounded to the nearest integer
    is a 32-bit value (a bitrate of at most 3976821569), the bitrate handed
    to the clamp is that rounded product plus 1000 modulo [2^32], which is
    the plain sum for a bitrate of at most 3976820643, and
    [time_last_increase] becomes [now_ms]; from 300000 that is 325000.  A
    further report with loss 0 less than 1000 ms after that one leaves the
    bitrate and [time_last_increase] alone, so that the two reports produce
    one increase; 1000 ms or more after, it increases again in the same
    way. *)
Theorem C4_increase (now_ms : Z) (s : state) :
  state_ok s ->
  is_uint32 now_ms ->
  last_fraction_loss_ s <= 5 ->
  kBweIncreaseIntervalMs <= to_uint32 (now_ms - time_last_increase_ s) ->
  round_1_08 (bitrate_ s) < 4294967296 ->
  UpdateEstimate now_ms s =
    Some (CapBitrateToThresholds
            (set_bitrate (to_uint32 (round_1_08 (bitrate_ s) + 1000))
               (set_time_last_increase now_ms s))) /\
  (round_1_08 (bitrate_ s) < 4294967296 <-> bitrate_ s <= 3976821569) /\
  (bitrate_ s <= 3976820643 ->
   to_uint32 (round_1_08 (bitrate_ s) + 1000) =
     round_1_08 (bitrate_ s) + 1000) /\
  time_last_increase_ (fst (increased_uint32 now_ms s)) = now_ms /\
  (bitrate_ s = 300000 ->
   to_uint32 (round_1_08 (bitrate_ s) + 1000) = 325000) /\
  forall rtt number_of_packets now2,
    is_uint32 rtt ->
    is_uint32 now2 ->
    kLimitNumPackets <= number_of_packets ->
    is_int number_of_packets ->
    accumulate_expected_packets_ s = 0 ->
    accumulate_lost_packets_Q8_ s = 0 ->
    let s1 := fst (increased_uint32 now_ms s) in
    (to_uint32 (now2 - now_ms) < kBweIncreaseIntervalMs ->
     exists s2 out,
       UpdateReceiverBlock 0 rtt number_of_packets now2 s1 = Some (s2, out) /\
       bitrate_ s2 = bitrate_ s1 /\
       time_last_increase_ s2 = now_ms) /\
    (kBweIncreaseIntervalMs <= to_uint32 (now2 - now_ms) ->
     round_1_08 (bitrate_ s1) < 4294967296 ->
     exists s2 out,
       UpdateReceiverBlock 0 rtt number_of_packets now2 s1 = Some (s2, out) /\
       (s2, out) =
         CapBitrateToThresholds
           (set_bitrate (to_uint32 (round_1_08 (bitrate_ s1) + 1000))
              (set_time_last_increase now2 (reported 0 rtt s1))) /\
       time_last_increase_ s2 = now2).
Proof.
  intros Hs Hnow Hl Ht Hfit.
  assert (Hinc : forall t s0,
            state_ok s0 -> last_fraction_loss_ s0 <= 5 ->
            kBweIncreaseIntervalMs <=
              to_uint32 (t - time_last_increase_ s0) ->
            round_1_08 (bitrate_ s0) < 4294967296 ->
            UpdateEstimate t s0 = Some (increased_uint32 t s0)).
  { intros t s0 Hs0 Hl0 Ht0 Hf0.
    rewrite (UpdateEstimate_increase_uint32 t s0 Hs0 Hl0 Ht0).
    destruct (Z.ltb_spec (round_1_08 (bitrate_ s0)) 4294967296);
      [reflexivity|lia]. }
  split; [exact (Hinc now_ms s Hs Hl Ht Hfit)|].
  split; [apply round_1_08_fits|].
  split.
  { intros Hb. apply to_uint32_small.
    pose proof (proj2 (round_1_08_no_wrap (bitrate_ s)) Hb) as Hw.
    pose proof (round_1_08_le (bitrate_ s) (proj1 (ok_bitrate s Hs))) as Hle.
    pose proof (ok_bitrate s Hs) as Hb0. unfold is_uint32 in *. lia. }
  split; [apply increased_uint32_frame|].
  split; [intros ->; reflexivity|].
  intros rtt n now2 Hrtt Hnow2 Hn Hi He Hlost s1.
  pose proof (increased_uint32_ok now_ms s Hnow Hs) as Hs1. fold s1 in Hs1.
  destruct (increased_uint32_frame now_ms s) as (Htli & He1 & Hl1).
  fold s1 in Htli, He1, Hl1. rewrite He in He1. rewrite Hlost in Hl1.
  assert (Hfull : UpdateReceiverBlock 0 rtt n now2 s1 =
                  UpdateEstimate now2 (reported 0 rtt s1)).
  { apply UpdateReceiverBlock_full; try assumption.
    - unfold is_uint8; lia.
    - rewrite Z.mul_0_l. unfold is_int, INT_MIN, INT_MAX. lia. }
  assert (Hrep : state_ok (reported 0 rtt s1))
    by (apply reported_ok; [unfold is_uint8; lia|assumption|assumption]).
  assert (Htli1 : time_last_increase_ (reported 0 rtt s1) = now_ms)
    by (unfold reported; simpl_state; exact Htli).
  split.
  - intros Hshort. rewrite Hfull, UpdateEstimate_hold.
    2:{ left. rewrite Htli1. split; [cbn; lia|exact Hshort]. }
    rewrite CapBitrateToThresholds_eq.
    eexists; eexists; split; [reflexivity|].
    pose proof (CapBitrateToThresholds_keeps (reported 0 rtt s1) s1) as Hk.
    rewrite CapBitrateToThresholds_eq in Hk. cbn [fst] in Hk.
    rewrite Hk; try reflexivity.
    + split; [reflexivity|exact Htli1].
    + apply CapBitrateToThresholds_clamped.
  - intros Hlong Hfit1. rewrite Hfull.
    rewrite (Hinc now2 _ Hrep).
    + destruct (increased_uint32 now2 (reported 0 rtt s1)) as [s2 out] eqn:E.
      exists s2, out. split; [reflexivity|]. split.
      * rewrite <- E. reflexivity.
      * change s2 with (fst (s2, out)). rewrite <- E.
        apply increased_uint32_frame.
    + cbn. lia.
    + rewrite Htli1. exact Hlong.
    + exact Hfit1.
Qed.

Lemma C4_increase_witness :
  let s := reported 0 50 (configured 50000 1000000 300000) in
  UpdateEstimate 1000 s =
    Some (CapBitrateToThresholds
            (set_bitrate (to_uint32 (round_1_08 (bitrate_ s) + 1000))
               (set_time_last_increase 1000 s))) /\
  (round_1_08 (bitrate_ s) < 4294967296 <-> bitrate_ s <= 3976821569) /\
  (bitrate_ s <= 3976820643 ->
   to_uint32 (round_1_08 (bitrate_ s) + 1000) =
     round_1_08 (bitrate_ s) + 1000) /\
  time_last_increase_ (fst (increased_uint32 1000 s)) = 1000 /\
  (bitrate_ s = 300000 ->
   to_uint32 (round_1_08 (bitrate_ s) + 1000) = 325000) /\
  forall rtt number_of_packets now2,
    is_uint32 rtt ->
    is_uint32 now2 ->
    kLimitNumPackets <= number_of_packets ->
    is_int number_of_packets ->
    accumulate_expected_packets_ s = 0 ->
    accumulate_lost_packets_Q8_ s = 0 ->
    let s1 := fst (increased_uint32 1000 s) in
    (to_uint32 (now2 - 1000) < kBweIncreaseIntervalMs ->
     exists s2 out,
       UpdateReceiverBlock 0 rtt number_of_packets now2 s1 = Some (s2, out) /\
       bitrate_ s2 = bitrate_ s1 /\
       time_last_increase_ s2 = 1000) /\
    (kBweIncreaseIntervalMs <= to_uint32 (now2 - 1000) ->
     round_1_08 (bitrate_ s1) < 4294967296 ->
     exists s2 out,
       UpdateReceiverBlock 0 rtt number_of_packets now2 s1 = Some (s2, out) /\
       (s2, out) =
         CapBitrateToThresholds
           (set_bitrate (to_uint32 (round_1_08 (bitrate_ s1) + 1000))
              (set_time_last_increase now2 (reported 0 rtt s1))) /\
       time_last_increase_ s2 = now2).
Proof.
  intros s.
  apply (C4_increase 1000 (reported 0 50 (configured 50000 1000000 300000))).
  - apply reported_ok; [unfold is_uint8; lia|unfold is_uint32; lia|].
    constructor; cbn; unfold is_int, is_uint32, is_uint8, INT_MIN, INT_MAX;
      lia.
  - unfold is_uint32; lia.
  - cbn. lia.
  - vm_compute. discriminate.
  - vm_compute. reflexivity.
Defined.

(** ** The cooldown comparisons *)

(** C8: the two cooldown checks are the unsigned 32-bit comparisons
    [now_ms - time_last_increase >= 1000] and
    [now_ms - time_last_decrease >= 300 + last_round_trip_time], differences
    and sum taken modulo [2^32], and nothing else decides between adjusting
    and holding the rate.  Hence for an estimator that has only been
    configured, whose two timestamps are still 0, a report with a loss of at
    most 5 at [now_ms = 0] does not increase the rate, and one at a [now_ms]
    whose unsigned difference to 0 is at least 1000 does. *)
Theorem C8_cooldown_comparisons (now_ms : Z) (s : state) :
  state_ok s ->
  is_uint32 now_ms ->
  (last_fraction_loss_ s <= 5 ->
   UpdateEstimate now_ms s =
     if kBweIncreaseIntervalMs <=? to_uint32 (now_ms - time_last_increase_ s)
     then
       match IncreasedBitrate (bitrate_ s) with
       | Some b =>
           Some (CapBitrateToThresholds
                   (set_bitrate (to_uint32 (b + 1000))
                      (set_time_last_increase now_ms s)))
       | None => None
       end
     else Some (CapBitrateToThresholds s)) /\
  (26 < last_fraction_loss_ s ->
   UpdateEstimate now_ms s =
     if to_uint32 (kBweDecreaseIntervalMs + last_round_trip_time_ s)
        <=? to_uint32 (now_ms - time_last_decrease_ s)
     then
       match CalcTfrcBps (to_uint16 (last_round_trip_time_ s))
               (last_fraction_loss_ s) with
       | Some tfrc => Some (decreased now_ms tfrc s)
       | None => None
       end
     else Some (CapBitrateToThresholds s)) /\
  forall min_bitrate max_bitrate bitrate fraction_loss rtt number_of_packets,
    is_uint8 fraction_loss ->
    fraction_loss <= 5 ->
    kLimitNumPackets <= number_of_packets ->
    is_int number_of_packets ->
    is_int (fraction_loss * number_of_packets) ->
    let s0 := configured min_bitrate max_bitrate bitrate in
    time_last_increase_ s0 = 0 /\
    time_last_decrease_ s0 = 0 /\
    UpdateReceiverBlock fraction_loss rtt number_of_packets 0 s0 =
      Some (CapBitrateToThresholds (reported fraction_loss rtt s0)) /\
    time_last_increase_
      (fst (CapBitrateToThresholds (reported fraction_loss rtt s0))) = 0 /\
    (kBweIncreaseIntervalMs <= to_uint32 (now_ms - 0) ->
     UpdateReceiverBlock fraction_loss rtt number_of_packets now_ms s0 =
       match IncreasedBitrate bitrate with
       | Some b =>
           Some (CapBitrateToThresholds
                   (set_bitrate (to_uint32 (b + 1000))
                      (set_time_last_increase now_ms
                         (reported fraction_loss rtt s0))))
       | None => None
       end).
Proof.
  intros Hs Hnow. split; [|split].
  - intros Hl.
    destruct (Z.leb_spec kBweIncreaseIntervalMs
                (to_uint32 (now_ms - time_last_increase_ s))) as [Ht|Ht].
    + exact (UpdateEstimate_increase now_ms s Hl Ht).
    + apply UpdateEstimate_hold. left. split; assumption.
  - intros Hl. pose proof Hs as [_ _ Hb _ _ Hl8 _ _ _ _].
    destruct (Z.leb_spec
                (to_uint32 (kBweDecreaseIntervalMs + last_round_trip_time_ s))
                (to_uint32 (now_ms - time_last_decrease_ s))) as [Ht|Ht].
    + rewrite (UpdateEstimate_decrease now_ms s Hl Ht).
      rewrite (DecreasedBitrate_eq _ _ Hb Hl8). reflexivity.
    + apply UpdateEstimate_hold. right. right. split; assumption.
  - intros mn mx b fl rtt n Hfl Hfl5 Hn Hi Hfn s0.
    split; [reflexivity|]. split; [reflexivity|].
    assert (Hfull : forall t,
              UpdateReceiverBlock fl rtt n t s0 =
              UpdateEstimate t (reported fl rtt s0))
      by (intros t; apply UpdateReceiverBlock_full; auto).
    split; [|split].
    + rewrite Hfull. apply UpdateEstimate_hold. left.
      split; [exact Hfl5|]. vm_compute. reflexivity.
    + rewrite CapBitrateToThresholds_eq. reflexivity.
    + intros Ht. rewrite Hfull.
      exact (UpdateEstimate_increase now_ms (reported fl rtt s0) Hfl5 Ht).
Qed.

Lemma C8_cooldown_comparisons_witness :
  let s := observing 50000 1000000 300000 200 100 in
  (last_fraction_loss_ s <= 5 ->
   UpdateEstimate 1000 s =
     if kBweIncreaseIntervalMs <=? to_uint32 (1000 - time_last_increase_ s)
     then
       match IncreasedBitrate (bitrate_ s) with
       | Some b =>
           Some (CapBitrateToThresholds
                   (set_bitrate (to_uint32 (b + 1000))
                      (set_time_last_increase 1000 s)))
       | None => None
       end
     else Some (CapBitrateToThresholds s)) /\
  (26 < last_fraction_loss_ s ->
   UpdateEstimate 1000 s =
     if to_uint32 (kBweDecreaseIntervalMs + last_round_trip_time_ s)
        <=? to_uint32 (1000 - time_last_decrease_ s)
     then
       match CalcTfrcBps (to_uint16 (last_round_trip_time_ s))
               (last_fraction_loss_ s) with
       | Some tfrc => Some (decreased 1000 tfrc s)
       | None => None
       end
     else Some (CapBitrateToThresholds s)) /\
  forall min_bitrate max_bitrate bitrate fraction_loss rtt number_of_packets,
    is_uint8 fraction_loss ->
    fraction_loss <= 5 ->
    kLimitNumPackets <= number_of_packets ->
    is_int number_of_packets ->
    is_int (fraction_loss * number_of_packets) ->
    let s0 := configured min_bitrate max_bitrate bitrate in
    time_last_increase_ s0 = 0 /\
    time_last_decrease_ s0 = 0 /\
    UpdateReceiverBlock fraction_loss rtt number_of_packets 0 s0 =
      Some (CapBitrateToThresholds (reported fraction_loss rtt s0)) /\
    time_last_increase_
      (fst (CapBitrateToThresholds (reported fraction_loss rtt s0))) = 0 /\
    (kBweIncreaseIntervalMs <= to_uint32 (1000 - 0) ->
     UpdateReceiverBlock fraction_loss rtt number_of_packets 1000 s0 =
       match IncreasedBitrate bitrate with
       | Some b =>
           Some (CapBitrateToThresholds
                   (set_bitrate (to_uint32 (b + 1000))
                      (set_time_last_increase 1000
                         (reported fraction_loss rtt s0))))
       | None => None
       end).
Proof.
  intros s.
  apply (C8_cooldown_comparisons 1000
           (observing 50000 1000000 300000 200 100)).
  - apply observing_ok; unfold is_uint32, is_uint8; lia.
  - unfold is_uint32; lia.
Defined.

(** * Further properties of the estimator *)

(** ** Defined behaviour *)

(** X1: a sequence of calls whose arguments are values of the parameter
    types, whose bitrates (the base bitrate and the configured bounds) are at
    most 3976821569 and whose reports cover at most 8421485 packets each has
    defined behaviour from construction on: no [int] accumulator overflows
    and no conversion from [double] leaves [uint32_t].  Every member then
    holds a value of its type, the accumulators hold fewer than
    [kLimitNumPackets] packets, and the bitrate is at most 3976821569. *)
Theorem X1_safe_calls_are_defined (cs : list call) :
  Forall safe_call cs ->
  exists s out,
    run cs initial = Some (s, out) /\
    state_ok s /\ accumulators_ok s /\ bitrate_ s <= safe_bitrate_limit.
Proof.
  intros Hcs.
  destruct (run_safe cs initial Hcs initial_safe)
    as (s & out & Hrun & Hs & Ha & Hb & _).
  exists s, out. tauto.
Qed.

Lemma X1_safe_calls_are_defined_witness :
  exists s out,
    run [CallSetMinMaxBitrate 50000 1000000; CallSetSendBitrate 300000;
         CallUpdateReceiverBlock 0 50 20 1000;
         CallUpdateReceiverEstimate 200000;
         CallUpdateReceiverBlock 128 100 8421485 2000] initial =
      Some (s, out) /\
    state_ok s /\ accumulators_ok s /\ bitrate_ s <= safe_bitrate_limit.
Proof.
  apply (X1_safe_calls_are_defined
           [CallSetMinMaxBitrate 50000 1000000; CallSetSendBitrate 300000;
            CallUpdateReceiverBlock 0 50 20 1000;
            CallUpdateReceiverEstimate 200000;
            CallUpdateReceiverBlock 128 100 8421485 2000]).
  repeat constructor;
    unfold is_uint32, is_uint8, is_int, INT_MIN, INT_MAX, safe_bitrate_limit,
      safe_packets_limit; lia.
Defined.

(** X2: on a state whose members hold values of their types,
    [UpdateEstimate] has no defined behaviour in exactly one situation: the
    loss fraction is at most 5, the increase is due, and
    [bitrate * 1.08 + 0.5] truncates to a value of at least [2^32], which
    [static_cast<uint32_t>] cannot convert.  That is the case from a bitrate
    of 3976821570 on. *)
Theorem X2_update_estimate_undefined_iff (now_ms : Z) (s : state) :
  state_ok s ->
  (UpdateEstimate now_ms s = None <->
   last_fraction_loss_ s <= 5 /\
   kBweIncreaseIntervalMs <= to_uint32 (now_ms - time_last_increase_ s) /\
   4294967296 <= round_1_08 (bitrate_ s)) /\
  (4294967296 <= round_1_08 (bitrate_ s) <->
   safe_bitrate_limit < bitrate_ s).
Proof.
  intros Hs. split.
  - apply UpdateEstimate_none_iff. exact Hs.
  - apply round_1_08_limit.
Qed.

Lemma X2_update_estimate_undefined_iff_witness :
  let s := observing 0 4294967295 3976821570 0 50 in
  (UpdateEstimate 1000 s = None <->
   last_fraction_loss_ s <= 5 /\
   kBweIncreaseIntervalMs <= to_uint32 (1000 - time_last_increase_ s) /\
   4294967296 <= round_1_08 (bitrate_ s)) /\
  (4294967296 <= round_1_08 (bitrate_ s) <->
   safe_bitrate_limit < bitrate_ s).
Proof.
  intros s.
  apply (X2_update_estimate_undefined_iff 1000
           (observing 0 4294967295 3976821570 0 50)).
  apply observing_ok; unfold is_uint32, is_uint8; lia.
Defined.

(** X3: [bitrate_ += 1000] is unsigned 32-bit arithmetic.  When the rounded
    [bitrate * 1.08] lies in the last 1000 values of [uint32_t], the sum
    wraps around: the increase hands the clamp a bitrate below 1000, and
    the call ends with a bitrate of at most 999 or of the configured
    minimum. *)
Theorem X3_increase_wraps_around (now_ms : Z) (s : state) :
  state_ok s ->
  last_fraction_loss_ s <= 5 ->
  kBweIncreaseIntervalMs <= to_uint32 (now_ms - time_last_increase_ s) ->
  4294967296 - 1000 <= round_1_08 (bitrate_ s) < 4294967296 ->
  let wrapped := round_1_08 (bitrate_ s) + 1000 - 4294967296 in
  UpdateEstimate now_ms s =
    Some (CapBitrateToThresholds
            (set_bitrate wrapped (set_time_last_increase now_ms s))) /\
  0 <= wrapped < 1000 /\
  bitrate_
    (fst (CapBitrateToThresholds
            (set_bitrate wrapped (set_time_last_increase now_ms s)))) <=
    Z.max (min_bitrate_configured_ s) 999.
Proof.
  intros Hs H5 Hc Hr wrapped. pose proof Hs as [? ? ? ? ? ? ? ? ? ?].
  split; [|split].
  - rewrite (UpdateEstimate_increase _ _ H5 Hc).
    rewrite IncreasedBitrate_eq by assumption.
    fold (round_1_08 (bitrate_ s)).
    destruct (Z.ltb_spec (round_1_08 (bitrate_ s)) 4294967296); [|lia].
    do 3 f_equal. unfold to_uint32, wrapped. symmetry.
    apply Z.mod_unique with (q := 1); lia.
  - unfold wrapped. lia.
  - rewrite CapBitrateToThresholds_bitrate.
    unfold capped_to_max, capped_to_estimate. simpl_state.
    fold wrapped.
    assert (wrapped < 1000) by (unfold wrapped; lia).
    destruct (0 <? bwe_incoming_ s); lia.
Qed.

Lemma X3_increase_wraps_around_witness :
  let s := observing 0 4294967295 3976821000 0 50 in
  let wrapped := round_1_08 (bitrate_ s) + 1000 - 4294967296 in
  UpdateEstimate 1000 s =
    Some (CapBitrateToThresholds
            (set_bitrate wrapped (set_time_last_increase 1000 s))) /\
  0 <= wrapped < 1000 /\
  bitrate_
    (fst (CapBitrateToThresholds
            (set_bitrate wrapped (set_time_last_increase 1000 s)))) <=
    Z.max (min_bitrate_configured_ s) 999.
Proof.
  intros s.
  apply (X3_increase_wraps_around 1000
           (observing 0 4294967295 3976821000 0 50)).
  - apply observing_ok; unfold is_uint32, is_uint8; lia.
  - cbn. lia.
  - vm_compute. discriminate.
  - vm_compute. split; [discriminate|reflexivity].
Defined.

(** ** The clamp *)

(** X4: the clamp is idempotent on the state: a second
    [CapBitrateToThresholds], or a second [UpdateReceiverEstimate] with the
    same estimate, changes nothing.  It is not silent, though: the second
    call emits the warning again exactly when the configured minimum is
    above the configured maximum or above a positive receiver estimate. *)
Theorem X4_clamp_idempotent (bandwidth : Z) (s : state) :
  let s1 := fst (CapBitrateToThresholds s) in
  let s2 := fst (UpdateReceiverEstimate bandwidth s) in
  fst (CapBitrateToThresholds s1) = s1 /\
  fst (UpdateReceiverEstimate bandwidth s2) = s2 /\
  (snd (CapBitrateToThresholds s1) <> [] <->
   max_bitrate_configured_ s < min_bitrate_configured_ s \/
   0 < bwe_incoming_ s < min_bitrate_configured_ s).
Proof.
  intros s1 s2. split; [|split].
  - apply CapBitrateToThresholds_fixed, CapBitrateToThresholds_clamped.
  - unfold UpdateReceiverEstimate.
    assert (E : set_bwe_incoming bandwidth s2 = s2).
    { unfold s2, UpdateReceiverEstimate.
      rewrite CapBitrateToThresholds_eq. cbn [fst].
      destruct s; reflexivity. }
    rewrite E.
    apply CapBitrateToThresholds_fixed, CapBitrateToThresholds_clamped.
  - unfold s1. rewrite !CapBitrateToThresholds_eq. cbn [fst snd].
    unfold capped_to_max, capped_to_estimate. simpl_state.
    destruct (Z.ltb_spec 0 (bwe_incoming_ s));
      match goal with
      | |- context [if ?a <? ?b then _ else _] =>
          destruct (Z.ltb_spec a b)
      end; split; intros Hw; try discriminate; try congruence; lia.
Qed.

(** X5: the clamp is monotone: of two bitrates handed to it under the same
    thresholds, the larger never ends below the smaller. *)
Theorem X5_clamp_monotone (b1 b2 : Z) (s : state) :
  b1 <= b2 ->
  bitrate_ (fst (CapBitrateToThresholds (set_bitrate b1 s))) <=
  bitrate_ (fst (CapBitrateToThresholds (set_bitrate b2 s))).
Proof.
  intros Hb. rewrite !CapBitrateToThresholds_bitrate.
  unfold capped_to_max, capped_to_estimate. simpl_state.
  destruct (0 <? bwe_incoming_ s); lia.
Qed.

Lemma X5_clamp_monotone_witness :
  bitrate_
    (fst (CapBitrateToThresholds
            (set_bitrate 10000 (configured 50000 1000000 300000)))) <=
  bitrate_
    (fst (CapBitrateToThresholds
            (set_bitrate 2000000 (configured 50000 1000000 300000)))).
Proof.
  apply (X5_clamp_monotone 10000 2000000 (configured 50000 1000000 300000)).
  lia.
Defined.

(** X6: the clamp invents no value: the bitrate it leaves is the one it was
    given or one of the three thresholds.  It raises the bitrate only to the
    configured minimum, and lowers it only when the bitrate is above the
    configured maximum or above a positive receiver estimate. *)
Theorem X6_clamp_picks_a_threshold (s : state) :
  let b' := bitrate_ (fst (CapBitrateToThresholds s)) in
  (b' = bitrate_ s \/ b' = min_bitrate_configured_ s \/
   b' = max_bitrate_configured_ s \/
   (0 < bwe_incoming_ s /\ b' = bwe_incoming_ s)) /\
  (bitrate_ s < b' -> b' = min_bitrate_configured_ s) /\
  (b' < bitrate_ s ->
   max_bitrate_configured_ s < bitrate_ s \/
   0 < bwe_incoming_ s < bitrate_ s) /\
  b' <= Z.max (bitrate_ s) (min_bitrate_configured_ s).
Proof.
  intros b'. unfold b'. rewrite CapBitrateToThresholds_bitrate.
  unfold capped_to_max, capped_to_estimate.
  destruct (Z.ltb_spec 0 (bwe_incoming_ s)); lia.
Qed.

(** ** What the calls leave alone *)

(** X7: [UpdateEstimate] changes nothing but the bitrate and one timestamp.
    The configured bounds, the receiver estimate, the loss fraction, the
    round-trip time and the accumulators are as before; it emits at most one
    message; [time_last_increase] changes, to [now_ms], only when an
    increase is due and [time_last_decrease], to [now_ms], only when a
    decrease is due, never both. *)
Theorem X7_update_estimate_frame
    (now_ms : Z) (s s' : state) (out : list trace_msg) :
  UpdateEstimate now_ms s = Some (s', out) ->
  same_configuration s' s /\
  (length out <= 1)%nat /\
  ((holds_rate now_ms s /\
    time_last_increase_ s' = time_last_increase_ s /\
    time_last_decrease_ s' = time_last_decrease_ s) \/
   (last_fraction_loss_ s <= 5 /\
    kBweIncreaseIntervalMs <= to_uint32 (now_ms - time_last_increase_ s) /\
    time_last_increase_ s' = now_ms /\
    time_last_decrease_ s' = time_last_decrease_ s) \/
   (26 < last_fraction_loss_ s /\
    to_uint32 (kBweDecreaseIntervalMs + last_round_trip_time_ s) <=
      to_uint32 (now_ms - time_last_decrease_ s) /\
    time_last_decrease_ s' = now_ms /\
    time_last_increase_ s' = time_last_increase_ s)).
Proof. apply UpdateEstimate_frame. Qed.

Lemma X7_update_estimate_frame_witness :
  let s := observing 50000 1000000 300000 0 50 in
  let s' := fst (increased 1000 s) in
  let out := snd (increased 1000 s) in
  same_configuration s' s /\
  (length out <= 1)%nat /\
  ((holds_rate 1000 s /\
    time_last_increase_ s' = time_last_increase_ s /\
    time_last_decrease_ s' = time_last_decrease_ s) \/
   (last_fraction_loss_ s <= 5 /\
    kBweIncreaseIntervalMs <= to_uint32 (1000 - time_last_increase_ s) /\
    time_last_increase_ s' = 1000 /\
    time_last_decrease_ s' = time_last_decrease_ s) \/
   (26 < last_fraction_loss_ s /\
    to_uint32 (kBweDecreaseIntervalMs + last_round_trip_time_ s) <=
      to_uint32 (1000 - time_last_decrease_ s) /\
    time_last_decrease_ s' = 1000 /\
    time_last_increase_ s' = time_last_increase_ s)).
Proof.
  intros s s' out.
  apply (X7_update_estimate_frame 1000
           (observing 50000 1000000 300000 0 50) s' out).
  unfold s', out. rewrite <- surjective_pairing.
  apply UpdateEstimate_increase_eq.
  - apply observing_ok; unfold is_uint32, is_uint8; lia.
  - cbn. lia.
  - vm_compute. discriminate.
  - vm_compute. reflexivity.
Defined.

(** X8: [UpdateReceiverBlock] stores the round-trip time of every report,
    also of one that returns early, so that [CurrentEstimate] gives it back;
    it never touches the configured bounds or the receiver estimate.  A
    report of no packets ([number_of_packets <= 0]) leaves the loss fraction
    and both accumulators as they were and ignores its [fraction_loss]:
    rate adaptation runs on the loss fraction of the last commit. *)
Theorem X8_report_records_rtt
    (fraction_loss rtt number_of_packets now_ms : Z) (s s' : state)
    (out : list trace_msg) :
  UpdateReceiverBlock fraction_loss rtt number_of_packets now_ms s =
    Some (s', out) ->
  CurrentEstimate s' = (bitrate_ s', last_fraction_loss_ s', rtt) /\
  min_bitrate_configured_ s' = min_bitrate_configured_ s /\
  max_bitrate_configured_ s' = max_bitrate_configured_ s /\
  bwe_incoming_ s' = bwe_incoming_ s /\
  (number_of_packets <= 0 ->
   last_fraction_loss_ s' = last_fraction_loss_ s /\
   accumulate_expected_packets_ s' = accumulate_expected_packets_ s /\
   accumulate_lost_packets_Q8_ s' = accumulate_lost_packets_Q8_ s /\
   forall fraction_loss',
     UpdateReceiverBlock fraction_loss' rtt number_of_packets now_ms s =
       Some (s', out)).
Proof.
  intros H. unfold CurrentEstimate.
  destruct (Z.ltb_spec 0 number_of_packets) as [Hpos|Hneg].
  - pose proof (UpdateReceiverBlock_defined _ _ _ _ _ _ Hpos H) as Hov.
    destruct (Z.lt_ge_cases
                (accumulate_expected_packets_ s + number_of_packets)
                kLimitNumPackets) as [Hlt|Hge].
    + rewrite (UpdateReceiverBlock_early_return _ _ _ _ _ Hpos Hov Hlt) in H.
      injection H as <- <-. unfold accumulated. simpl_state.
      repeat split; try reflexivity; intros; lia.
    + rewrite (UpdateReceiverBlock_commit _ _ _ _ _ Hpos Hov Hge) in H.
      apply UpdateEstimate_clamped in H
        as (_ & E1 & E2 & E3 & E4 & E5 & E6 & E7).
      unfold committed in *. simpl_state.
      rewrite E5. repeat split; try assumption; intros; lia.
  - rewrite UpdateReceiverBlock_no_packets in H by assumption.
    pose proof H as H'.
    apply UpdateEstimate_clamped in H'
      as (_ & E1 & E2 & E3 & E4 & E5 & E6 & E7).
    simpl_state. rewrite E5. repeat split; try assumption.
    intros fl'. now rewrite UpdateReceiverBlock_no_packets by assumption.
Qed.

Lemma X8_report_records_rtt_witness :
  let s := configured 50000 1000000 300000 in
  let s' := set_last_round_trip_time 70 s in
  CurrentEstimate s' = (bitrate_ s', last_fraction_loss_ s', 70) /\
  min_bitrate_configured_ s' = min_bitrate_configured_ s /\
  max_bitrate_configured_ s' = max_bitrate_configured_ s /\
  bwe_incoming_ s' = bwe_incoming_ s /\
  (0 <= 0 ->
   last_fraction_loss_ s' = last_fraction_loss_ s /\
   accumulate_expected_packets_ s' = accumulate_expected_packets_ s /\
   accumulate_lost_packets_Q8_ s' = accumulate_lost_packets_Q8_ s /\
   forall fraction_loss',
     UpdateReceiverBlock fraction_loss' 70 0 500 s = Some (s', [])).
Proof.
  intros s s'.
  apply (X8_report_records_rtt 10 70 0 500
           (configured 50000 1000000 300000)).
  reflexivity.
Defined.

(** ** Reports *)

(** X9: the loss fraction a commit stores is the packet-weighted mean of the
    loss fractions reported since the last commit, rounded down.  It lies
    between the smallest and the largest of them, so that the narrowing to
    [uint8_t] loses nothing, and the commit leaves both accumulators
    empty. *)
Theorem X9_committed_loss_is_a_weighted_mean
    (lo hi : Z) (s s' : state) (rs : list report) (r : report)
    (out : list trace_msg) :
  accumulate_expected_packets_ s = 0 ->
  accumulate_lost_packets_Q8_ s = 0 ->
  Forall report_ok (rs ++ [r]) ->
  Forall (fun r => lo <= report_fraction_loss r <= hi) (rs ++ [r]) ->
  expected_packets rs < kLimitNumPackets ->
  kLimitNumPackets <= expected_packets (rs ++ [r]) ->
  run (map report_call (rs ++ [r])) s = Some (s', out) ->
  last_fraction_loss_ s' =
    lost_packets_Q8 (rs ++ [r]) / expected_packets (rs ++ [r]) /\
  lo <= last_fraction_loss_ s' <= hi /\
  accumulate_expected_packets_ s' = 0 /\
  accumulate_lost_packets_Q8_ s' = 0.
Proof.
  intros He Hl Hok Hb Hlt Hge Hrun.
  pose proof (lost_packets_Q8_between lo hi _ Hok Hb) as Hbetween.
  pose proof (lost_packets_Q8_bounds _ Hok) as Hbounds.
  apply Forall_app in Hok as (Hok & Hr).
  inversion Hr as [|? ? (Hfl & Hrtt & Hn & Hni & Hnow) _]; subst.
  rewrite expected_packets_app in *. rewrite lost_packets_Q8_app in *.
  cbn [expected_packets lost_packets_Q8] in *.
  rewrite !Z.add_0_r in *.
  destruct (run_reports_below_limit rs s Hok) as (s1 & Hrun1 & E1 & E2 & _).
  { unfold accumulators_ok, kLimitNumPackets. lia. }
  { lia. }
  rewrite map_app, run_app, Hrun1 in Hrun. cbn [map] in Hrun.
  rewrite run_single in Hrun. unfold report_call in Hrun. cbn [step] in Hrun.
  destruct (UpdateReceiverBlock _ _ _ _ s1) as [[s2 out2]|] eqn:Hstep;
    [|discriminate].
  injection Hrun as <- _.
  pose proof (UpdateReceiverBlock_defined _ _ _ _ _ _ Hn Hstep) as Hov.
  rewrite UpdateReceiverBlock_commit in Hstep by (assumption || lia).
  apply UpdateEstimate_clamped in Hstep
    as (_ & _ & _ & _ & E4 & _ & E6 & E7).
  unfold committed in *. simpl_state.
  rewrite E1, E2, He, Hl, !Z.add_0_l in *.
  unfold kLimitNumPackets in *.
  destruct (committed_fraction_loss
              (lost_packets_Q8 rs +
               report_fraction_loss r * report_number_of_packets r)
              (expected_packets rs + report_number_of_packets r))
    as (Hq & _); [lia|lia|].
  rewrite Hq in E4. rewrite E4.
  repeat split; try assumption.
  - apply Z.div_le_lower_bound; lia.
  - apply Z.div_le_upper_bound; lia.
Qed.

Lemma X9_committed_loss_is_a_weighted_mean_witness :
  let rs :=
    [ {| report_fraction_loss := 30; report_rtt := 50;
         report_number_of_packets := 10; report_now_ms := 100 |} ] in
  let r :=
    {| report_fraction_loss := 10; report_rtt := 60;
       report_number_of_packets := 10; report_now_ms := 200 |} in
  let s' :=
    set_last_fraction_loss 20
      (set_last_round_trip_time 60 (configured 50000 1000000 300000)) in
  last_fraction_loss_ s' =
    lost_packets_Q8 (rs ++ [r]) / expected_packets (rs ++ [r]) /\
  10 <= last_fraction_loss_ s' <= 30 /\
  accumulate_expected_packets_ s' = 0 /\
  accumulate_lost_packets_Q8_ s' = 0.
Proof.
  intros rs r s'.
  apply (X9_committed_loss_is_a_weighted_mean 10 30
           (configured 50000 1000000 300000) s' rs r []).
  - reflexivity.
  - reflexivity.
  - repeat constructor; cbn; unfold INT_MIN, INT_MAX; lia.
  - repeat constructor; cbn; lia.
  - cbn. unfold kLimitNumPackets. lia.
  - cbn. unfold kLimitNumPackets. lia.
  - reflexivity.
Defined.

(** X10: from construction on, for every sequence of calls whose arguments
    are values of the parameter types and whose behaviour is defined, every
    member holds a value of its type, and between two calls the
    accumulators hold fewer than [kLimitNumPackets] packets and at most 255
    lost (Q8) per packet. *)
Theorem X10_members_stay_in_range
    (cs : list call) (s : state) (out : list trace_msg) :
  Forall call_ok cs ->
  run cs initial = Some (s, out) ->
  state_ok s /\ accumulators_ok s.
Proof.
  intros Hcs Hrun. destruct initial_ok as [Hs Ha].
  exact (run_ok cs initial s out Hcs Hs Ha Hrun).
Qed.

Lemma X10_members_stay_in_range_witness :
  let s :=
    accumulated 255 70 19
      (fst (UpdateReceiverEstimate 30000
              (configured 50000 1000000 300000))) in
  state_ok s /\ accumulators_ok s.
Proof.
  intros s.
  apply (X10_members_stay_in_range
           [CallSetMinMaxBitrate 50000 1000000; CallSetSendBitrate 300000;
            CallUpdateReceiverEstimate 30000;
            CallUpdateReceiverBlock 255 70 19 1000]
           s (snd (UpdateReceiverEstimate 30000
                     (configured 50000 1000000 300000)))).
  - repeat constructor;
      unfold is_uint32, is_uint8, is_int, INT_MIN, INT_MAX; lia.
  - reflexivity.
Defined.

(** ** Holding and decreasing *)

(** X11: while the rate is held (a loss fraction of 6 to 26, or an increase
    or decrease that is not yet due), [UpdateEstimate] is the clamp alone:
    on a state the clamp has left it changes nothing, and on a state within
    the bounds as configured it emits nothing either. *)
Theorem X11_hold_changes_nothing (now_ms : Z) (s : state) :
  holds_rate now_ms s ->
  (clamped s -> exists out, UpdateEstimate now_ms s = Some (s, out)) /\
  (within_bounds s -> UpdateEstimate now_ms s = Some (s, [])).
Proof.
  intros Hh. rewrite (UpdateEstimate_hold _ _ Hh). split.
  - intros Hc. exists (snd (CapBitrateToThresholds s)).
    rewrite <- (CapBitrateToThresholds_fixed s Hc) at 2.
    now rewrite <- surjective_pairing.
  - intros Hw. now rewrite CapBitrateToThresholds_quiet.
Qed.

Lemma X11_hold_changes_nothing_witness :
  let s := observing 50000 1000000 300000 26 50 in
  (clamped s -> exists out, UpdateEstimate 5000 s = Some (s, out)) /\
  (within_bounds s -> UpdateEstimate 5000 s = Some (s, [])).
Proof.
  intros s.
  apply (X11_hold_changes_nothing 5000
           (observing 50000 1000000 300000 26 50)).
  right; left. cbn. lia.
Defined.

(** X12: on a state the clamp has left, a decrease never takes more than
    the fraction [last_fraction_loss / 512] off the bitrate, which is less
    than half; and it ends no higher than the larger of the configured
    minimum, 485/512 of the old bitrate and the TFRC rate: the bitrate
    rises on a decrease only when the TFRC rate is above it. *)
Theorem X12_decrease_bounds (now_ms : Z) (s : state) :
  state_ok s ->
  clamped s ->
  26 < last_fraction_loss_ s ->
  to_uint32 (kBweDecreaseIntervalMs + last_round_trip_time_ s) <=
    to_uint32 (now_ms - time_last_decrease_ s) ->
  exists tfrc s' out,
    CalcTfrcBps (to_uint16 (last_round_trip_time_ s))
      (last_fraction_loss_ s) = Some tfrc /\
    UpdateEstimate now_ms s = Some (s', out) /\
    bitrate_ s * (512 - last_fraction_loss_ s) / 512 <= bitrate_ s' /\
    bitrate_ s / 2 <= bitrate_ s' /\
    bitrate_ s' <=
      Z.max (min_bitrate_configured_ s)
        (Z.max (bitrate_ s * 485 / 512) tfrc) /\
    bitrate_ s' <= Z.max (bitrate_ s) tfrc.
Proof.
  intros Hs (Hmin & Hmax & Hest) H26 Hc.
  pose proof Hs as [? ? ? ? ? ? ? ? ? ?].
  destruct (UpdateEstimate_decrease_eq _ _ Hs H26 Hc)
    as (tfrc & Ht & Htr & Hu).
  exists tfrc, (fst (decreased now_ms tfrc s)),
    (snd (decreased now_ms tfrc s)).
  split; [exact Ht|]. split; [now rewrite <- surjective_pairing|].
  unfold decreased. rewrite CapBitrateToThresholds_bitrate.
  unfold capped_to_max, capped_to_estimate. simpl_state.
  unfold is_uint32, is_uint8 in *.
  set (b := bitrate_ s) in *. set (l := last_fraction_loss_ s) in *.
  assert (Hd1 : b * (512 - l) / 512 <= b)
    by (apply Z.div_le_upper_bound; nia).
  assert (Hd2 : b / 2 <= b * (512 - l) / 512).
  { apply Z.div_le_lower_bound; [lia|].
    pose proof (Z.mul_div_le b 2 ltac:(lia)). nia. }
  assert (Hd3 : b * (512 - l) / 512 <= b * 485 / 512)
    by (apply Z.div_le_mono; nia).
  destruct (Z.ltb_spec 0 (bwe_incoming_ s)); lia.
Qed.

Lemma X12_decrease_bounds_witness :
  let s := observing 50000 1000000 300000 128 50 in
  exists tfrc s' out,
    CalcTfrcBps (to_uint16 (last_round_trip_time_ s))
      (last_fraction_loss_ s) = Some tfrc /\
    UpdateEstimate 1000 s = Some (s', out) /\
    bitrate_ s * (512 - last_fraction_loss_ s) / 512 <= bitrate_ s' /\
    bitrate_ s / 2 <= bitrate_ s' /\
    bitrate_ s' <=
      Z.max (min_bitrate_configured_ s)
        (Z.max (bitrate_ s * 485 / 512) tfrc) /\
    bitrate_ s' <= Z.max (bitrate_ s) tfrc.
Proof.
  intros s.
  apply (X12_decrease_bounds 1000 (observing 50000 1000000 300000 128 50)).
  - apply observing_ok; unfold is_uint32, is_uint8; lia.
  - unfold clamped. cbn. lia.
  - cbn. lia.
  - vm_compute. discriminate.
Defined.

(** ** Trace output *)

(** X13: a sequence of calls emits at most one message per call, and none
    for the setters; every message reports an estimate (in kbps) that is not
    above the minimum it reports; and a call that emits a message is no
    setter and ends with the bitrate at the configured minimum. *)
Theorem X13_warnings_of_a_run
    (cs : list call) (s s' : state) (out : list trace_msg) :
  run cs s = Some (s', out) ->
  (length out <= length cs)%nat /\
  Forall (fun m => trace_estimate_kbps m <= trace_min_kbps m) out /\
  (Forall is_setter cs -> out = []) /\
  forall c s0 s1 out1,
    step c s0 = Some (s1, out1) ->
    out1 <> [] ->
    ~ is_setter c /\
    length out1 = 1%nat /\
    bitrate_ s1 = min_bitrate_configured_ s1 /\
    Forall (fun m => trace_min_kbps m = min_bitrate_configured_ s1 / 1000)
      out1.
Proof.
  intros Hrun. destruct (run_warnings cs s s' out Hrun) as (Hl & Hf & Hs).
  split; [exact Hl|]. split; [exact Hf|]. split; [exact Hs|].
  intros c s0 s1 out1 Hstep Hne.
  destruct (step_warnings _ _ _ _ Hstep) as (Hl1 & Hf1).
  destruct out1 as [|m [|m' out1]]; [contradiction| |cbn in Hl1; lia].
  inversion Hf1 as [|? ? (_ & Hm & Hb) _]; subst.
  split; [|split; [reflexivity|split; [exact Hb|]]].
  - intros Hset.
    destruct c; cbn [is_setter step] in *; try contradiction;
      discriminate.
  - constructor; [exact Hm|constructor].
Qed.

Lemma X13_warnings_of_a_run_witness :
  let cs :=
    [CallSetMinMaxBitrate 50000 1000000; CallSetSendBitrate 300000;
     CallUpdateReceiverEstimate 30000] in
  let out := snd (UpdateReceiverEstimate 30000
                    (configured 50000 1000000 300000)) in
  (length out <= length cs)%nat /\
  Forall (fun m => trace_estimate_kbps m <= trace_min_kbps m) out /\
  (Forall is_setter cs -> out = []) /\
  forall c s0 s1 out1,
    step c s0 = Some (s1, out1) ->
    out1 <> [] ->
    ~ is_setter c /\
    length out1 = 1%nat /\
    bitrate_ s1 = min_bitrate_configured_ s1 /\
    Forall (fun m => trace_min_kbps m = min_bitrate_configured_ s1 / 1000)
      out1.
Proof.
  intros cs out.
  apply (X13_warnings_of_a_run cs initial
           (fst (UpdateReceiverEstimate 30000
                   (configured 50000 1000000 300000))) out).
  reflexivity.
Defined.

(** ** Sustained low loss *)

(** X14: under sustained low loss the bitrate reaches its ceiling, as long
    as the ceiling is at most 3976820643, the largest bitrate whose increase
    does not wrap around.  Start from a state with empty accumulators whose
    bitrate is not above the ceiling (the configured maximum, a positive
    receiver estimate below it, or the configured minimum if that is
    higher), and feed [k] reports without loss, of 20 packets each, one
    every [period] of at least 1000 ms on the 32-bit clock.  Every report
    increases: none has undefined behaviour, the bitrate never passes the
    ceiling, and after the [k] reports it is the ceiling or at least
    [1000 * k] above where it started. *)
Theorem X14_low_loss_reaches_the_ceiling
    (rtt period : Z) (k : nat) (s : state) :
  state_ok s ->
  accumulate_expected_packets_ s = 0 ->
  accumulate_lost_packets_Q8_ s = 0 ->
  is_uint32 rtt ->
  kBweIncreaseIntervalMs <= period < 4294967296 ->
  bitrate_ s <= ceiling s ->
  ceiling s <= no_wrap_bitrate_limit ->
  exists s' out,
    run (periodic_reports 0 rtt (time_last_increase_ s) period k) s =
      Some (s', out) /\
    time_last_increase_ s' =
      to_uint32 (time_last_increase_ s + period * Z.of_nat k) /\
    Z.min (ceiling s) (bitrate_ s + 1000 * Z.of_nat k) <= bitrate_ s' /\
    bitrate_ s' <= ceiling s /\
    (ceiling s <= bitrate_ s + 1000 * Z.of_nat k -> bitrate_ s' = ceiling s).
Proof.
  intros Hs He Hl Hrtt Hp Hb Hr.
  apply round_1_08_no_wrap in Hr.
  destruct (run_quiet_reports rtt period k Hrtt Hp (time_last_increase_ s) s)
    as (s' & out & Hrun & _ & _ & Ht & Hlo & Hhi); try assumption.
  { symmetry. apply to_uint32_small. apply (ok_time_last_increase s Hs). }
  exists s', out. repeat split; try assumption. lia.
Qed.

Lemma X14_low_loss_reaches_the_ceiling_witness :
  let s := configured 50000 350000 300000 in
  exists s' out,
    run (periodic_reports 0 50 (time_last_increase_ s) 1000 3) s =
      Some (s', out) /\
    time_last_increase_ s' =
      to_uint32 (time_last_increase_ s + 1000 * Z.of_nat 3) /\
    Z.min (ceiling s) (bitrate_ s + 1000 * Z.of_nat 3) <= bitrate_ s' /\
    bitrate_ s' <= ceiling s /\
    (ceiling s <= bitrate_ s + 1000 * Z.of_nat 3 -> bitrate_ s' = ceiling s).
Proof.
  intros s.
  apply (X14_low_loss_reaches_the_ceiling 50 1000 3
           (configured 50000 350000 300000)).
  - apply (observing_ok 50000 350000 300000 0 0);
      unfold is_uint32, is_uint8; lia.
  - reflexivity.
  - reflexivity.
  - unfold is_uint32; lia.
  - unfold kBweIncreaseIntervalMs; lia.
  - vm_compute. discriminate.
  - vm_compute. discriminate.
Defined.

(** ** The TFRC rate *)

(** X15: past its early return, [CalcTfrcBps] falls as its arguments grow:
    for round-trip times [0 < rtt1 <= rtt2] and losses [0 < loss1 <= loss2]
    of the parameter types, the rate for [(rtt2, loss2)] is not above the
    rate for [(rtt1, loss1)].  The floating-point rounding of the formula
    and the truncation to [uint32_t] never reverse the order. *)
Theorem X15_tfrc_rate_falls (rtt1 rtt2 loss1 loss2 : Z) :
  0 < rtt1 <= rtt2 -> rtt2 < 65536 ->
  0 < loss1 <= loss2 -> loss2 < 256 ->
  exists t1 t2,
    CalcTfrcBps rtt1 loss1 = Some t1 /\
    CalcTfrcBps rtt2 loss2 = Some t2 /\
    t2 <= t1.
Proof.
  intros Hr Hr2 Hl Hl2.
  exists (TfrcBps rtt1 loss1), (TfrcBps rtt2 loss2).
  split; [apply CalcTfrcBps_value; lia|].
  split; [apply CalcTfrcBps_value; lia|].
  apply TfrcBps_falls; lia.
Qed.

Lemma X15_tfrc_rate_falls_witness :
  exists t1 t2,
    CalcTfrcBps 50 27 = Some t1 /\
    CalcTfrcBps 100 128 = Some t2 /\
    t2 <= t1.
Proof. apply (X15_tfrc_rate_falls 50 100 27 128); lia. Defined.

(** X16: [CalcTfrcBps] never returns more than 151124429 bps, its value for
    a round-trip time of 1 ms and a loss of 1/255, and for the losses above
    26 at which [UpdateEstimate] asks for it never more than 13121289
    bps, its value for 1 ms and 27/255. *)
Theorem X16_tfrc_rate_bound (rtt loss : Z) :
  is_uint16 rtt -> is_uint8 loss ->
  exists tfrc,
    CalcTfrcBps rtt loss = Some tfrc /\
    0 <= tfrc <= 151124429 /\
    (26 < loss -> tfrc <= 13121289) /\
    CalcTfrcBps 1 1 = Some 151124429 /\
    CalcTfrcBps 1 27 = Some 13121289.
Proof.
  intros Hr Hl. destruct (CalcTfrcBps_bound rtt loss Hr Hl) as (t & E & H).
  exists t. split; [exact E|]. split; [tauto|]. split; [tauto|].
  rewrite <- TfrcBps_1_1, <- TfrcBps_1_27.
  split; apply CalcTfrcBps_value; lia.
Qed.

Lemma X16_tfrc_rate_bound_witness :
  exists tfrc,
    CalcTfrcBps 50 128 = Some tfrc /\
    0 <= tfrc <= 151124429 /\
    (26 < 128 -> tfrc <= 13121289) /\
    CalcTfrcBps 1 1 = Some 151124429 /\
    CalcTfrcBps 1 27 = Some 13121289.
Proof.
  apply (X16_tfrc_rate_bound 50 128); unfold is_uint16, is_uint8; lia.
Defined.

(** X17: a decrease can raise the bitrate, to the TFRC rate, but on a state
    the clamp has left it never ends above the larger of the old bitrate
    and 13121289 bps. *)
Theorem X17_decrease_never_ends_high (now_ms : Z) (s : state) :
  state_ok s ->
  clamped s ->
  26 < last_fraction_loss_ s ->
  to_uint32 (kBweDecreaseIntervalMs + last_round_trip_time_ s) <=
    to_uint32 (now_ms - time_last_decrease_ s) ->
  exists s' out,
    UpdateEstimate now_ms s = Some (s', out) /\
    bitrate_ s' <= Z.max (bitrate_ s) 13121289.
Proof.
  intros Hs (Hmin & Hmax & Hest) H26 Hc.
  pose proof Hs as [? ? ? ? ? ? ? ? ? ?].
  destruct (UpdateEstimate_decrease_eq _ _ Hs H26 Hc)
    as (tfrc & Etfrc & _ & Hu).
  destruct (CalcTfrcBps_bound (to_uint16 (last_round_trip_time_ s))
              (last_fraction_loss_ s))
    as (t' & Et' & _ & Ht');
    [apply to_uint16_is_uint16|assumption|].
  rewrite Etfrc in Et'. injection Et' as <-. specialize (Ht' H26).
  exists (fst (decreased now_ms tfrc s)), (snd (decreased now_ms tfrc s)).
  split; [now rewrite <- surjective_pairing|].
  unfold decreased. rewrite CapBitrateToThresholds_bitrate.
  unfold capped_to_max, capped_to_estimate. simpl_state.
  unfold is_uint32, is_uint8 in *.
  assert (Hd : bitrate_ s * (512 - last_fraction_loss_ s) / 512 <= bitrate_ s)
    by (apply Z.div_le_upper_bound; nia).
  destruct (Z.ltb_spec 0 (bwe_incoming_ s)); lia.
Qed.

Lemma X17_decrease_never_ends_high_witness :
  let s := observing 50000 1000000 300000 128 50 in
  exists s' out,
    UpdateEstimate 1000 s = Some (s', out) /\
    bitrate_ s' <= Z.max (bitrate_ s) 13121289.
Proof.
  intros s.
  apply (X17_decrease_never_ends_high 1000
           (observing 50000 1000000 300000 128 50)).
  - apply observing_ok; unfold is_uint32, is_uint8; lia.
  - unfold clamped. cbn. lia.
  - cbn. lia.
  - vm_compute. discriminate.
Defined.

(** ** Sustained heavy loss *)

(** X18: under sustained heavy loss the bitrate falls geometrically to its
    floor.  Start from a state with empty accumulators and feed [k] reports
    of the same loss fraction above 26 and the same round-trip time, of 20
    packets each, spaced by at least the decrease interval
    [300 + rtt] on the 32-bit clock.  Every report decreases; after the [k]
    reports the bitrate is at most the larger of the floor (the configured
    minimum or the TFRC rate) and [((512 - loss) / 512)^k] times the bitrate
    at the start, and from the first report on it is at least the
    configured minimum. *)
Theorem X18_heavy_loss_reaches_the_floor
    (fraction_loss rtt period : Z) (k : nat) (s : state) :
  state_ok s ->
  accumulate_expected_packets_ s = 0 ->
  accumulate_lost_packets_Q8_ s = 0 ->
  is_uint8 fraction_loss -> 26 < fraction_loss ->
  is_uint32 rtt ->
  to_uint32 (kBweDecreaseIntervalMs + rtt) <= period < 4294967296 ->
  exists tfrc s' out,
    CalcTfrcBps (to_uint16 rtt) fraction_loss = Some tfrc /\
    run (periodic_reports fraction_loss rtt (time_last_decrease_ s) period k)
      s = Some (s', out) /\
    time_last_decrease_ s' =
      to_uint32 (time_last_decrease_ s + period * Z.of_nat k) /\
    (0 < Z.of_nat k -> min_bitrate_configured_ s <= bitrate_ s') /\
    512 ^ Z.of_nat k * bitrate_ s' <=
      Z.max (512 ^ Z.of_nat k * Z.max (min_bitrate_configured_ s) tfrc)
        ((512 - fraction_loss) ^ Z.of_nat k * bitrate_ s).
Proof.
  intros Hs He Hl Hfl H26 Hrtt Hp.
  destruct (run_lossy_reports fraction_loss rtt period k Hfl H26 Hrtt Hp
              (time_last_decrease_ s) s)
    as (tfrc & s' & out & Et & Hrun & _ & _ & Ht & Hlo & Hb);
    try assumption.
  { symmetry. apply to_uint32_small. apply (ok_time_last_decrease s Hs). }
  exists tfrc, s', out. tauto.
Qed.

Lemma X18_heavy_loss_reaches_the_floor_witness :
  let s := configured 50000 1000000 300000 in
  exists tfrc s' out,
    CalcTfrcBps (to_uint16 50) 128 = Some tfrc /\
    run (periodic_reports 128 50 (time_last_decrease_ s) 350 3) s =
      Some (s', out) /\
    time_last_decrease_ s' =
      to_uint32 (time_last_decrease_ s + 350 * Z.of_nat 3) /\
    (0 < Z.of_nat 3 -> min_bitrate_configured_ s <= bitrate_ s') /\
    512 ^ Z.of_nat 3 * bitrate_ s' <=
      Z.max (512 ^ Z.of_nat 3 * Z.max (min_bitrate_configured_ s) tfrc)
        ((512 - 128) ^ Z.of_nat 3 * bitrate_ s).
Proof.
  intros s.
  apply (X18_heavy_loss_reaches_the_floor 128 50 350 3
           (configured 50000 1000000 300000)).
  - apply (observing_ok 50000 1000000 300000 0 0);
      unfold is_uint32, is_uint8; lia.
  - reflexivity.
  - reflexivity.
  - unfold is_uint8; lia.
  - lia.
  - unfold is_uint32; lia.
  - vm_compute. split; [discriminate|reflexivity].
Defined.

(** ** Timestamps *)

(** X19: a second [UpdateEstimate] with the same timestamp has no further
    effect on the state: after an increase or a decrease at [now_ms] the
    unsigned difference to the timestamp just stored is 0, which is below
    either interval.  The one exception is a decrease interval
    [static_cast<uint32_t>(kBweDecreaseIntervalMs + last_round_trip_time_)]
    that is itself 0. *)
Theorem X19_same_timestamp_changes_nothing
    (now_ms : Z) (s s1 : state) (out : list trace_msg) :
  to_uint32 (kBweDecreaseIntervalMs + last_round_trip_time_ s) <> 0 ->
  UpdateEstimate now_ms s = Some (s1, out) ->
  holds_rate now_ms s1 /\
  exists out', UpdateEstimate now_ms s1 = Some (s1, out').
Proof.
  intros Hrtt H.
  destruct (UpdateEstimate_clamped _ _ _ _ H) as (Hc & Hcfg).
  destruct (UpdateEstimate_frame _ _ _ _ H)
    as ((_ & _ & _ & El & Er & _) & _ & Hcase).
  assert (Hh : holds_rate now_ms s1).
  { unfold holds_rate in *. rewrite El, Er.
    destruct Hcase as [(Hh & Ei & Ed)|[(H5 & _ & Ei & Ed)|(H26 & _ & Ed & Ei)]].
    - rewrite Ei, Ed. exact Hh.
    - left. split; [exact H5|]. rewrite Ei, to_uint32_zero_diff.
      unfold kBweIncreaseIntervalMs. lia.
    - right; right. split; [exact H26|]. rewrite Ed, to_uint32_zero_diff.
      pose proof (to_uint32_is_uint32
                    (kBweDecreaseIntervalMs + last_round_trip_time_ s)) as Hu.
      unfold is_uint32 in Hu. lia. }
  split; [exact Hh|].
  exists (snd (CapBitrateToThresholds s1)).
  rewrite (UpdateEstimate_hold _ _ Hh).
  rewrite <- (CapBitrateToThresholds_fixed s1 Hc) at 2.
  now rewrite <- surjective_pairing.
Qed.

Lemma X19_same_timestamp_changes_nothing_witness :
  let s := observing 50000 1000000 300000 0 50 in
  let s1 := fst (increased 1000 s) in
  holds_rate 1000 s1 /\
  exists out', UpdateEstimate 1000 s1 = Some (s1, out').
Proof.
  intros s s1.
  apply (X19_same_timestamp_changes_nothing 1000
           (observing 50000 1000000 300000 0 50) s1
           (snd (increased 1000 (observing 50000 1000000 300000 0 50)))).
  - vm_compute. discriminate.
  - unfold s1, s. rewrite <- surjective_pairing.
    apply UpdateEstimate_increase_eq.
    + apply observing_ok; unfold is_uint32, is_uint8; lia.
    + cbn. lia.
    + vm_compute. discriminate.
    + vm_compute. reflexivity.
Defined.

(** X20: the cooldown is an unsigned difference, so a report whose
    timestamp lies before the last increase is not refused: the difference
    wraps to [now_ms - time_last_increase + 2^32], and unless the timestamp
    lies more than [2^32 - 1000] ms back the increase is due.  It then runs
    as every increase does (the rounded product plus 1000 modulo [2^32]
    goes to the clamp, and a bitrate above 3976821569 has no defined
    behaviour) and moves [time_last_increase] back to [now_ms].  A
    timestamp further back than that holds the rate. *)
Theorem X20_timestamp_before_last_increase (now_ms : Z) (s : state) :
  state_ok s ->
  is_uint32 now_ms ->
  last_fraction_loss_ s <= 5 ->
  now_ms < time_last_increase_ s ->
  to_uint32 (now_ms - time_last_increase_ s) =
    now_ms - time_last_increase_ s + 4294967296 /\
  (time_last_increase_ s - now_ms <= 4294967296 - kBweIncreaseIntervalMs ->
   UpdateEstimate now_ms s =
     (if bitrate_ s <=? safe_bitrate_limit
      then Some (increased_uint32 now_ms s) else None) /\
   time_last_increase_ (fst (increased_uint32 now_ms s)) = now_ms) /\
  (4294967296 - kBweIncreaseIntervalMs < time_last_increase_ s - now_ms ->
   UpdateEstimate now_ms s = Some (CapBitrateToThresholds s)).
Proof.
  intros Hs Hnow H5 Hlt.
  pose proof (to_uint32_before now_ms (time_last_increase_ s) Hnow
                (ok_time_last_increase s Hs) Hlt) as E.
  split; [exact E|]. unfold kBweIncreaseIntervalMs in *. split.
  - intros Hback. split; [|apply increased_uint32_frame].
    rewrite UpdateEstimate_increase_uint32; try assumption;
      [|unfold kBweIncreaseIntervalMs; lia].
    pose proof (round_1_08_limit (bitrate_ s)) as Hlim.
    destruct (Z.ltb_spec (round_1_08 (bitrate_ s)) 4294967296);
      destruct (Z.leb_spec (bitrate_ s) safe_bitrate_limit);
      try reflexivity; lia.
  - intros Hback. apply UpdateEstimate_hold. left. split; [exact H5|].
    unfold kBweIncreaseIntervalMs. lia.
Qed.

Lemma X20_timestamp_before_last_increase_witness :
  let s := set_time_last_increase 5000 (observing 50000 1000000 300000 0 50) in
  to_uint32 (4000 - time_last_increase_ s) =
    4000 - time_last_increase_ s + 4294967296 /\
  (time_last_increase_ s - 4000 <= 4294967296 - kBweIncreaseIntervalMs ->
   UpdateEstimate 4000 s =
     (if bitrate_ s <=? safe_bitrate_limit
      then Some (increased_uint32 4000 s) else None) /\
   time_last_increase_ (fst (increased_uint32 4000 s)) = 4000) /\
  (4294967296 - kBweIncreaseIntervalMs < time_last_increase_ s - 4000 ->
   UpdateEstimate 4000 s = Some (CapBitrateToThresholds s)).
Proof.
  intros s.
  apply (X20_timestamp_before_last_increase 4000
           (set_time_last_increase 5000
              (observing 50000 1000000 300000 0 50))).
  - constructor; cbn; unfold is_int, is_uint32, is_uint8, INT_MIN, INT_MAX;
      lia.
  - unfold is_uint32; lia.
  - cbn. lia.
  - cbn. lia.
Defined.

(** ** Which call writes which member *)

(** X21: every member has its writers.  The configured bounds change only
    in [SetMinMaxBitrate] and [SetMinBitrate], the receiver estimate only in
    [UpdateReceiverEstimate], the round-trip time and the accumulators only
    in [UpdateReceiverBlock]; the loss fraction changes only in a report
    that commits (a positive packet count that brings the accumulated count
    to [kLimitNumPackets]), the two timestamps only in a report that reaches
    rate adaptation, and the bitrate only in [SetSendBitrate] and in the
    calls that end in the clamp. *)
Theorem X21_writers_of_the_members
    (c : call) (s s' : state) (out : list trace_msg) :
  step c s = Some (s', out) ->
  (min_bitrate_configured_ s' <> min_bitrate_configured_ s \/
   max_bitrate_configured_ s' <> max_bitrate_configured_ s ->
   match c with
   | CallSetMinMaxBitrate _ _ | CallSetMinBitrate _ => True
   | _ => False
   end) /\
  (bwe_incoming_ s' <> bwe_incoming_ s ->
   match c with CallUpdateReceiverEstimate _ => True | _ => False end) /\
  (last_round_trip_time_ s' <> last_round_trip_time_ s \/
   accumulate_expected_packets_ s' <> accumulate_expected_packets_ s \/
   accumulate_lost_packets_Q8_ s' <> accumulate_lost_packets_Q8_ s ->
   match c with CallUpdateReceiverBlock _ _ _ _ => True | _ => False end) /\
  (last_fraction_loss_ s' <> last_fraction_loss_ s ->
   match c with
   | CallUpdateReceiverBlock _ _ number_of_packets _ =>
       0 < number_of_packets /\
       kLimitNumPackets <= accumulate_expected_packets_ s + number_of_packets
   | _ => False
   end) /\
  (time_last_increase_ s' <> time_last_increase_ s \/
   time_last_decrease_ s' <> time_last_decrease_ s ->
   match c with
   | CallUpdateReceiverBlock _ _ _ _ => reaches_clamp c s
   | _ => False
   end) /\
  (bitrate_ s' <> bitrate_ s ->
   match c with
   | CallSetSendBitrate _ => True
   | CallSetMinMaxBitrate _ _ | CallSetMinBitrate _ => False
   | _ => reaches_clamp c s
   end).
Proof.
  destruct c as [b|mn mx|mn|bw|fl rtt n now]; cbn [step reaches_clamp].
  - intros E. injection E as <- _. unfold SetSendBitrate. simpl_state.
    intuition congruence.
  - intros E. injection E as <- _. unfold SetMinMaxBitrate. simpl_state.
    intuition congruence.
  - intros E. injection E as <- _. unfold SetMinBitrate. simpl_state.
    intuition congruence.
  - intros E. injection E as E. apply (f_equal fst) in E. cbn [fst] in E.
    subst s'. unfold UpdateReceiverEstimate.
    rewrite CapBitrateToThresholds_eq. cbn [fst]. simpl_state.
    intuition congruence.
  - intros E. destruct (Z.ltb_spec 0 n) as [Hpos|Hneg].
    + pose proof (UpdateReceiverBlock_defined _ _ _ _ _ _ Hpos E) as Hov.
      destruct (Z.lt_ge_cases (accumulate_expected_packets_ s + n)
                  kLimitNumPackets) as [Hlt|Hge].
      * rewrite (UpdateReceiverBlock_early_return _ _ _ _ _ Hpos Hov Hlt)
          in E.
        injection E as <- _. unfold accumulated. simpl_state.
        intuition congruence.
      * rewrite (UpdateReceiverBlock_commit _ _ _ _ _ Hpos Hov Hge) in E.
        apply UpdateEstimate_clamped in E
          as (_ & E1 & E2 & E3 & _).
        unfold committed in *. simpl_state. rewrite E1, E2, E3.
        intuition congruence.
    + rewrite UpdateReceiverBlock_no_packets in E by assumption.
      destruct (UpdateEstimate_frame _ _ _ _ E)
        as ((E1 & E2 & E3 & E4 & _) & _).
      simpl_state. rewrite E1, E2, E3, E4.
      intuition (congruence || lia).
Qed.

Lemma X21_writers_of_the_members_witness :
  let s := configured 50000 1000000 300000 in
  let s' := accumulated 10 70 5 s in
  (min_bitrate_configured_ s' <> min_bitrate_configured_ s \/
   max_bitrate_configured_ s' <> max_bitrate_configured_ s ->
   False) /\
  (bwe_incoming_ s' <> bwe_incoming_ s -> False) /\
  (last_round_trip_time_ s' <> last_round_trip_time_ s \/
   accumulate_expected_packets_ s' <> accumulate_expected_packets_ s \/
   accumulate_lost_packets_Q8_ s' <> accumulate_lost_packets_Q8_ s ->
   True) /\
  (last_fraction_loss_ s' <> last_fraction_loss_ s ->
   0 < 5 /\ kLimitNumPackets <= accumulate_expected_packets_ s + 5) /\
  (time_last_increase_ s' <> time_last_increase_ s \/
   time_last_decrease_ s' <> time_last_decrease_ s ->
   reaches_clamp (CallUpdateReceiverBlock 10 70 5 1000) s) /\
  (bitrate_ s' <> bitrate_ s ->
   reaches_clamp (CallUpdateReceiverBlock 10 70 5 1000) s).
Proof.
  intros s s'.
  apply (X21_writers_of_the_members (CallUpdateReceiverBlock 10 70 5 1000)
           (configured 50000 1000000 300000) s' []).
  reflexivity.
Defined.

(** ** Where a report is not defined *)

(** X22: between two calls, [UpdateReceiverBlock] with arguments of the
    parameter types has no defined behaviour in exactly two situations: its
    [int] arithmetic overflows, which is the case exactly when the
    accumulated lost packets or the accumulated expected packets would pass
    [INT_MAX]; or it reaches rate adaptation with a loss fraction of at most
    5, the increase due and a bitrate above 3976821569, whose increase does
    not fit [uint32_t]. *)
Theorem X22_report_undefined_iff
    (fraction_loss rtt number_of_packets now_ms : Z) (s : state) :
  state_ok s ->
  accumulators_ok s ->
  is_uint8 fraction_loss ->
  is_uint32 rtt ->
  is_int number_of_packets ->
  UpdateReceiverBlock fraction_loss rtt number_of_packets now_ms s = None <->
  (0 < number_of_packets /\
   (INT_MAX <
      accumulate_lost_packets_Q8_ s + fraction_loss * number_of_packets \/
    INT_MAX < accumulate_expected_packets_ s + number_of_packets)) \/
  (reaches_clamp
     (CallUpdateReceiverBlock fraction_loss rtt number_of_packets now_ms) s /\
   loss_after_report fraction_loss number_of_packets s <= 5 /\
   kBweIncreaseIntervalMs <= to_uint32 (now_ms - time_last_increase_ s) /\
   safe_bitrate_limit < bitrate_ s).
Proof.
  intros Hs (He & Hl) Hfl Hrtt Hn. pose proof Hs as [? ? ? ? ? ? ? ? ? ?].
  unfold is_uint8, is_int, INT_MIN, INT_MAX, kLimitNumPackets in *.
  cbn [reaches_clamp]. unfold loss_after_report, kLimitNumPackets.
  assert (Hs1 : state_ok (set_last_round_trip_time rtt s))
    by (constructor; simpl_state; assumption).
  destruct (Z.ltb_spec 0 number_of_packets) as [Hpos|Hneg].
  - assert (Hfn : 0 <= fraction_loss * number_of_packets) by nia.
    assert (Hov : no_int_overflow fraction_loss number_of_packets s <->
                  ~ (INT_MAX <
                       accumulate_lost_packets_Q8_ s +
                       fraction_loss * number_of_packets \/
                     INT_MAX <
                       accumulate_expected_packets_ s + number_of_packets)).
    { unfold no_int_overflow, is_int, INT_MIN, INT_MAX. lia. }
    unfold INT_MAX in Hov.
    destruct (Z.le_gt_cases
                (accumulate_lost_packets_Q8_ s +
                 fraction_loss * number_of_packets) 2147483647) as [Hl1|Hl1];
      [|rewrite UpdateReceiverBlock_overflow by (tauto || lia); tauto].
    destruct (Z.le_gt_cases
                (accumulate_expected_packets_ s + number_of_packets)
                2147483647) as [He1|He1];
      [|rewrite UpdateReceiverBlock_overflow by (tauto || lia); tauto].
    assert (Hno : no_int_overflow fraction_loss number_of_packets s)
      by (apply Hov; lia).
    destruct (Z.lt_ge_cases
                (accumulate_expected_packets_ s + number_of_packets) 20)
      as [Hlt|Hge].
    + rewrite UpdateReceiverBlock_early_return
        by (assumption || (unfold kLimitNumPackets; lia)).
      split; [discriminate|]. intros [?|?]; lia.
    + rewrite UpdateReceiverBlock_commit
        by (assumption || (unfold kLimitNumPackets; lia)).
      destruct (committed_fraction_loss
                  (accumulate_lost_packets_Q8_ s +
                   fraction_loss * number_of_packets)
                  (accumulate_expected_packets_ s + number_of_packets))
        as (Hq & Hq8); [lia|nia|].
      assert (Hs2 : state_ok
                      (committed fraction_loss rtt number_of_packets s)).
      { unfold committed. rewrite Hq.
        constructor; simpl_state; try assumption;
          unfold is_int, INT_MIN, INT_MAX; lia. }
      rewrite (UpdateEstimate_none_iff now_ms _ Hs2), round_1_08_limit.
      unfold committed. simpl_state. rewrite Hq.
      unfold kBweIncreaseIntervalMs. split; [tauto|].
      intros [?|?]; [lia|tauto].
  - rewrite UpdateReceiverBlock_no_packets by lia.
    rewrite (UpdateEstimate_none_iff now_ms _ Hs1), round_1_08_limit.
    simpl_state. unfold kBweIncreaseIntervalMs. split; [tauto|].
    intros [?|?]; [lia|tauto].
Qed.

Lemma X22_report_undefined_iff_witness :
  let s := configured 0 4294967295 4000000000 in
  UpdateReceiverBlock 0 50 20 1000 s = None <->
  (0 < 20 /\
   (INT_MAX < accumulate_lost_packets_Q8_ s + 0 * 20 \/
    INT_MAX < accumulate_expected_packets_ s + 20)) \/
  (reaches_clamp (CallUpdateReceiverBlock 0 50 20 1000) s /\
   loss_after_report 0 20 s <= 5 /\
   kBweIncreaseIntervalMs <= to_uint32 (1000 - time_last_increase_ s) /\
   safe_bitrate_limit < bitrate_ s).
Proof.
  intros s.
  apply (X22_report_undefined_iff 0 50 20 1000
           (configured 0 4294967295 4000000000)).
  - apply (observing_ok 0 4294967295 4000000000 0 0);
      unfold is_uint32, is_uint8; lia.
  - unfold accumulators_ok, kLimitNumPackets. cbn. lia.
  - unfold is_uint8; lia.
  - unfold is_uint32; lia.
  - unfold is_int, INT_MIN, INT_MAX; lia.
Defined.
